(** * payload.bin extractor: wire decoder, manifest builder, operation executor

    A shallow embedding of [extract_payload.py] and the properties of its
    wire decoder, manifest model builder, operation executor, extraction
    orchestrator and command line, with the byte ranges that
    [download_firmware.py] computes for a download over several
    connections.

    Conventions of the embedding.
    - Python [int] is unbounded and the decoder only produces non-negative
      values: integers are [N]; cursor positions and byte counts used for
      slicing are [nat].
    - [bytes] objects are [list byte]; [str] objects are [string], holding
      the UTF-8 encoding of the text ([bytes.decode] accepts exactly the
      well-formed UTF-8 sequences and is injective on them).
    - A raised exception is a value of [exn]; a computation that may raise
      returns [exc].
    - The values the decoder yields are dynamically typed ([int] or
      [bytes]); the manifest builder stores them as they come, so the
      record fields they land in have type [value].
    - Files are byte lists. What the machine may refuse is outside the
      model: I/O errors, want of memory, the size of file and the length of
      name the file system takes. What the interpreter refuses by the value
      alone is in it: [seek] to an offset past [2^63 - 1] raises
      [ValueError], [read(n)] and [bytes(n)] with [n] past [2^63 - 34] and a
      repetition past [2^63 - 1] raise [OverflowError]. The one read left
      without its limit is that of the manifest in [load_payload]; the
      statement that lets the announced length exceed the file carries the
      bound.
    - An image file is named by the partition's name, which stands for
      [output_dir / "name.img"]: that is what the code opens for names that
      are plain file names ([plain_name]), and the statements about images
      are made for such names.
    - [lzma.decompress], [bz2.decompress] and [format_size] (which formats
      with floating point) are parameters: what is proved holds whatever
      they compute. [hashlib.sha256] is SHA-256 itself.
    - [main] is given what [parse_args] makes of the command line (a
      usage error, the help, or the arguments), and the payload file as its
      content, or as absent.
    - The downloader's sizes and range ends are [Z]: the end of a range can
      be -1. *)

From Stdlib Require Import NArith Strings.Byte String List Lia.
From stdpp Require Import base option list gmap strings sorting.
Import ListNotations.

Local Open Scope N_scope.
Local Open Scope nat_scope.

(** ** Bytes, dynamically typed values, exceptions *)

Abbreviation bytes := (list byte) (only parsing).

Definition byte_val (b : byte) : N := Byte.to_N b.

#[global] Instance byte_eq_decision : EqDecision byte := Byte.byte_eq_dec.

(** What the wire decoder yields for a field: a Python [int] (wire types 0, 1
    and 5) or a [bytes] slice (wire type 2). *)
Inductive value : Type :=
  | VInt (n : N)
  | VBytes (b : bytes).

(** The result of [OP_NAMES.get(op_type, op_type)] and of
    [OP_NAMES.get(op_type)]: the kind's name when the table has one. *)
Inductive kind_label : Type :=
  | KName (name : string)
  | KRaw (v : value)
  | KNone.

Inductive exn : Type :=
  | TruncatedVarint                 (* ValueError("Truncated varint") *)
  | UnknownWireType (w : N)         (* ValueError("Unknown wire type: w") *)
  | StructError                     (* struct.error: buffer of the wrong size *)
  | TypeError                       (* operand of the wrong dynamic type *)
  | AttributeError                  (* int object has no attribute decode *)
  | UnicodeDecodeError              (* bytes.decode() on ill-formed UTF-8 *)
  | InvalidMagic (m : bytes)        (* ValueError("Invalid magic: ...") *)
  | UnsupportedVersion (v : N)      (* ValueError("Unsupported version: v") *)
  | IncrementalOp (k : kind_label)  (* ValueError("Incremental op not supported: k") *)
  | Unsupported (k : kind_label)    (* ValueError("Unsupported: k"), from decompress *)
  | LZMAError                       (* lzma.decompress raised *)
  | BZ2Error                        (* bz2.decompress raised *)
  | KeyError                        (* dict lookup of an absent key *)
  | FormatError                     (* format_size raised *)
  | OffsetTooLarge                  (* ValueError: seek to an offset no off_t holds *)
  | OverflowError.                  (* OverflowError: a count or length out of range *)

Inductive exc (A : Type) : Type :=
  | Ok (a : A)
  | Raise (e : exn).
Arguments Ok {A} a.
Arguments Raise {A} e.

#[global] Instance exc_bind : MBind exc := fun A B k r =>
  match r with
  | Ok a => k a
  | Raise e => Raise e
  end.
#[global] Instance exc_ret : MRet exc := fun A a => Ok a.

(** [data[a:b]] for non-negative [a], [b]: Python clips the slice to the
    buffer, silently. *)
Definition slice {A : Type} (data : list A) (a b : nat) : list A :=
  take (b - a) (drop a data).

(** ** Wire decoder *)

(** The loop of [read_varint], over the bytes from [pos] on. *)
Fixpoint read_varint_loop (rest : bytes) (pos : nat) (result shift : N)
  : exc (N * nat) :=
  match rest with
  | [] => Raise TruncatedVarint
  | byte :: rest' =>
      let pos := S pos in
      let result := N.lor result (N.shiftl (N.land (byte_val byte) 0x7F) shift) in
      if (byte_val byte <? 0x80)%N then Ok (result, pos)
      else read_varint_loop rest' pos result (shift + 7)%N
  end.

Definition read_varint (data : bytes) (pos : nat) : exc (N * nat) :=
  read_varint_loop (drop pos data) pos 0%N 0%N.

(** Little-endian value of a byte string. *)
Fixpoint le_value (bs : bytes) : N :=
  match bs with
  | [] => 0%N
  | b :: bs' => (byte_val b + 256 * le_value bs')%N
  end.

(** Big-endian value of a byte string. *)
Definition be_value (bs : bytes) : N := le_value (rev bs).

(** The byte of value [n mod 256], and fixed-width encodings. *)
Definition byte_of_N (n : N) : byte :=
  match Byte.of_N (n mod 256)%N with
  | Some b => b
  | None => x00
  end.

Fixpoint le_bytes (width : nat) (n : N) : bytes :=
  match width with
  | O => []
  | S w => byte_of_N n :: le_bytes w (n / 256)%N
  end.

Definition be_bytes (width : nat) (n : N) : bytes := rev (le_bytes width n).

(** [struct.unpack('<Q', buf)[0]] and [struct.unpack('<I', buf)[0]] with
    [width] 8 and 4: the buffer must have exactly [width] bytes. *)
Definition unpack_le (width : nat) (buf : bytes) : exc N :=
  if decide (length buf = width) then Ok (le_value buf) else Raise StructError.

(** [struct.unpack('>Q', buf)[0]] and [struct.unpack('>I', buf)[0]]. *)
Definition unpack_be (width : nat) (buf : bytes) : exc N :=
  if decide (length buf = width) then Ok (be_value buf) else Raise StructError.

(** One turn of the loop of [iter_fields]: the field yielded and the cursor
    after it. *)
Definition decode_field (data : bytes) (pos : nat) : exc (N * value * nat) :=
  '(tag, pos) ← read_varint data pos;
  let field_num := N.shiftr tag 3 in
  let wire_type := N.land tag 7 in
  if (wire_type =? 0)%N then
    '(v, pos) ← read_varint data pos;
    Ok (field_num, VInt v, pos)
  else if (wire_type =? 2)%N then
    '(len, pos) ← read_varint data pos;
    Ok (field_num, VBytes (slice data pos (pos + N.to_nat len)), pos + N.to_nat len)
  else if (wire_type =? 1)%N then
    v ← unpack_le 8 (slice data pos (pos + 8));
    Ok (field_num, VInt v, pos + 8)
  else if (wire_type =? 5)%N then
    v ← unpack_le 4 (slice data pos (pos + 4));
    Ok (field_num, VInt v, pos + 4)
  else Raise (UnknownWireType wire_type).

(** How a run of the generator ends: the loop condition fails
    ([StopIteration]), an exception leaves the generator, or the model's
    bound on the number of turns is used up ([Exhausted], which
    [iter_fields_from_enough_fuel] shows cannot happen for the bound
    [iter_fields] uses). *)
Inductive stop : Type :=
  | StopIteration
  | Stopped (e : exn)
  | Exhausted.

(** The generator [iter_fields] from cursor [pos], run for at most [fuel]
    turns: the pairs it yields, in order, and how it ends. *)
Fixpoint iter_fields_from (fuel : nat) (data : bytes) (pos : nat)
  : list (N * value) * stop :=
  if decide (pos < length data) then
    match fuel with
    | O => ([], Exhausted)
    | S fuel' =>
        match decode_field data pos with
        | Raise e => ([], Stopped e)
        | Ok (field_num, v, pos') =>
            let '(fields, st) := iter_fields_from fuel' data pos' in
            ((field_num, v) :: fields, st)
        end
    end
  else ([], StopIteration).

(** A run of [iter_fields(data)]: the fields yielded and the exception that
    ends the run, if one does. Every turn consumes at least one byte, so
    [length data] turns are enough. *)
Definition iter_fields (data : bytes) : list (N * value) * option exn :=
  match iter_fields_from (length data) data 0 with
  | (fields, Stopped e) => (fields, Some e)
  | (fields, _) => (fields, None)
  end.

(** [for field_num, value in gen: body]: the body runs on each yielded pair
    in turn, and the exception that ends the generator is raised after the
    last of them. *)
Fixpoint for_each {S : Type} (body : S -> N * value -> exc S)
    (fields : list (N * value)) (s : S) : exc S :=
  match fields with
  | [] => Ok s
  | f :: fields' => s' ← body s f; for_each body fields' s'
  end.

Definition for_fields {S : Type} (v : value) (body : S -> N * value -> exc S)
    (s : S) : exc S :=
  match v with
  | VInt _ => Raise TypeError          (* len() of an int *)
  | VBytes data =>
      let '(fields, ending) := iter_fields data in
      s' ← for_each body fields s;
      match ending with
      | None => Ok s'
      | Some e => Raise e
      end
  end.

(** ** Data model *)

(** [Operation]: every field but [dst_extents] holds the decoded value as
    it came; an extent is the pair [(start_block, num_blocks)]. *)
Record Operation : Type := mkOperation {
  op_type : value;
  data_offset : value;
  data_length : value;
  dst_extents : list (value * value);
  data_sha256 : value
}.

(** [Partition]; [psize] is the field [size] of the source. *)
Record Partition : Type := mkPartition {
  name : string;
  operations : list Operation;
  psize : value
}.

(** [Payload]; [payload_data_offset] is the field [data_offset] of the
    source, as [Operation] has one of that name too. *)
Record Payload : Type := mkPayload {
  path : string;
  payload_data_offset : N;
  block_size : value;
  partitions : list Partition
}.

Definition PAYLOAD_MAGIC : bytes := [x43; x72; x41; x55].   (* b'CrAU' *)
Definition BLOCK_SIZE : N := 4096.

Definition OP_REPLACE : N := 0.
Definition OP_REPLACE_BZ : N := 1.
Definition OP_SOURCE_COPY : N := 4.
Definition OP_SOURCE_BSDIFF : N := 5.
Definition OP_ZERO : N := 6.
Definition OP_REPLACE_XZ : N := 8.
Definition OP_PUFFDIFF : N := 9.

(** The table [OP_NAMES]. *)
Definition OP_NAMES (k : N) : option string :=
  match k with
  | 0 => Some "REPLACE"%string
  | 1 => Some "REPLACE_BZ"%string
  | 4 => Some "SOURCE_COPY"%string
  | 5 => Some "SOURCE_BSDIFF"%string
  | 6 => Some "ZERO"%string
  | 8 => Some "REPLACE_XZ"%string
  | 9 => Some "PUFFDIFF"%string
  | 14 => Some "ZSTD"%string
  | 15 => Some "LZ4"%string
  | _ => None
  end%N.

(** [value == k] for an [int] constant [k]: a [bytes] object never equals
    an [int]. *)
Definition is_int (v : value) (k : N) : bool :=
  match v with
  | VInt n => (n =? k)%N
  | VBytes _ => false
  end.

(** [Operation()], [Partition()]: the dataclass defaults. *)
Definition new_operation : Operation :=
  mkOperation (VInt 0) (VInt 0) (VInt 0) [] (VBytes []).
Definition new_partition : Partition :=
  mkPartition ""%string [] (VInt 0).

(** ** Manifest model builder *)

(** Well-formed UTF-8, as [bytes.decode()] accepts it: no overlong forms,
    no surrogates, nothing above U+10FFFF. *)
Definition between (lo x hi : N) : bool := ((lo <=? x) && (x <=? hi))%N.

Fixpoint utf8_valid (bs : bytes) : bool :=
  match bs with
  | [] => true
  | b0 :: r0 =>
      let c0 := byte_val b0 in
      if (c0 <? 0x80)%N then utf8_valid r0 else
      match r0 with
      | [] => false
      | b1 :: r1 =>
          let c1 := byte_val b1 in
          if between 0xC2 c0 0xDF then between 0x80 c1 0xBF && utf8_valid r1 else
          match r1 with
          | [] => false
          | b2 :: r2 =>
              let c2 := byte_val b2 in
              if between 0xE0 c0 0xEF then
                (if (c0 =? 0xE0)%N then between 0xA0 c1 0xBF
                 else if (c0 =? 0xED)%N then between 0x80 c1 0x9F
                 else between 0x80 c1 0xBF)
                && between 0x80 c2 0xBF && utf8_valid r2
              else
              match r2 with
              | [] => false
              | b3 :: r3 =>
                  let c3 := byte_val b3 in
                  between 0xF0 c0 0xF4
                  && (if (c0 =? 0xF0)%N then between 0x90 c1 0xBF
                      else if (c0 =? 0xF4)%N then between 0x80 c1 0x8F
                      else between 0x80 c1 0xBF)
                  && between 0x80 c2 0xBF && between 0x80 c3 0xBF && utf8_valid r3
              end
          end
      end
  end.

(** [value.decode()]. *)
Definition decode (v : value) : exc string :=
  match v with
  | VInt _ => Raise AttributeError
  | VBytes b =>
      if utf8_valid b then Ok (string_of_list_byte b) else Raise UnicodeDecodeError
  end.

(** The body of the loop over an extent's fields. *)
Definition extent_body (e : value * value) (fv : N * value) : exc (value * value) :=
  let '(f, v) := fv in
  if (f =? 1)%N then Ok (v, e.2)
  else if (f =? 2)%N then Ok (e.1, v)
  else Ok e.

(** The body of the loop of [parse_operation]. *)
Definition operation_body (op : Operation) (fv : N * value) : exc Operation :=
  let '(field_num, v) := fv in
  if (field_num =? 1)%N then
    Ok (mkOperation v (data_offset op) (data_length op) (dst_extents op) (data_sha256 op))
  else if (field_num =? 2)%N then
    Ok (mkOperation (op_type op) v (data_length op) (dst_extents op) (data_sha256 op))
  else if (field_num =? 3)%N then
    Ok (mkOperation (op_type op) (data_offset op) v (dst_extents op) (data_sha256 op))
  else if (field_num =? 6)%N then
    e ← for_fields v extent_body (VInt 0, VInt 0);
    Ok (mkOperation (op_type op) (data_offset op) (data_length op)
          (dst_extents op ++ [e]) (data_sha256 op))
  else if (field_num =? 8)%N then
    Ok (mkOperation (op_type op) (data_offset op) (data_length op) (dst_extents op) v)
  else Ok op.

Definition parse_operation (data : value) : exc Operation :=
  for_fields data operation_body new_operation.

(** The body of the loop over the fields of [new_partition_info]. *)
Definition info_body (sz : value) (fv : N * value) : exc value :=
  let '(f, v) := fv in
  if (f =? 1)%N then Ok v else Ok sz.

(** The body of the loop of [parse_partition]. *)
Definition partition_body (part : Partition) (fv : N * value) : exc Partition :=
  let '(field_num, v) := fv in
  if (field_num =? 1)%N then
    s ← decode v;
    Ok (mkPartition s (operations part) (psize part))
  else if (field_num =? 7)%N then
    sz ← for_fields v info_body (psize part);
    Ok (mkPartition (name part) (operations part) sz)
  else if (field_num =? 8)%N then
    op ← parse_operation v;
    Ok (mkPartition (name part) (operations part ++ [op]) (psize part))
  else Ok part.

Definition parse_partition (data : value) : exc Partition :=
  for_fields data partition_body new_partition.

(** The body of the loop of [load_payload] over the manifest. *)
Definition payload_body (payload : Payload) (fv : N * value) : exc Payload :=
  let '(field_num, v) := fv in
  if (field_num =? 3)%N then
    Ok (mkPayload (path payload) (payload_data_offset payload) v (partitions payload))
  else if (field_num =? 13)%N then
    part ← parse_partition v;
    Ok (mkPayload (path payload) (payload_data_offset payload) (block_size payload)
          (partitions payload ++ [part]))
  else Ok payload.

(** [load_payload(path)], where [file] is the content of the file at
    [path]. The reads are sequential: once the magic is there the cursor is
    at 4, and each [struct.unpack] raises unless its read was complete, so
    the manifest is read from offset 24; that last read may come up short.
    The manifest read is taken as it goes for a length a [bytes] object can
    have: an announced length past [2^63 - 34], which no file reaches,
    makes [f.read] raise [OverflowError] instead. A statement that lets the
    announced length exceed the file bounds it by that limit. *)
Definition load_payload (p : string) (file : bytes) : exc Payload :=
  let magic := slice file 0 4 in
  if decide (magic = PAYLOAD_MAGIC) then
    version ← unpack_be 8 (slice file 4 12);
    if (version =? 2)%N then
      manifest_size ← unpack_be 8 (slice file 12 20);
      signature_size ← unpack_be 4 (slice file 20 24);
      let manifest_data := slice file 24 (24 + N.to_nat manifest_size) in
      for_fields (VBytes manifest_data) payload_body
        (mkPayload p (24 + manifest_size + signature_size)%N (VInt BLOCK_SIZE) [])
    else Raise (UnsupportedVersion version)
  else Raise (InvalidMagic magic).

(** ** SHA-256 ([hashlib.sha256(data).digest()]), after FIPS 180-4 *)

Module SHA256.

Local Open Scope N_scope.

Definition w32 (x : N) : N := x mod 2 ^ 32.
Definition add32 (x y : N) : N := w32 (x + y).
Definition rotr (n x : N) : N := N.lor (N.shiftr x n) (w32 (N.shiftl x (32 - n))).
Definition not32 (x : N) : N := N.lxor x 0xFFFFFFFF.

Definition Ch (x y z : N) : N := N.lxor (N.land x y) (N.land (not32 x) z).
Definition Maj (x y z : N) : N :=
  N.lxor (N.land x y) (N.lxor (N.land x z) (N.land y z)).
Definition Sigma0 (x : N) : N := N.lxor (rotr 2 x) (N.lxor (rotr 13 x) (rotr 22 x)).
Definition Sigma1 (x : N) : N := N.lxor (rotr 6 x) (N.lxor (rotr 11 x) (rotr 25 x)).
Definition sigma0 (x : N) : N := N.lxor (rotr 7 x) (N.lxor (rotr 18 x) (N.shiftr x 3)).
Definition sigma1 (x : N) : N := N.lxor (rotr 17 x) (N.lxor (rotr 19 x) (N.shiftr x 10)).

(** The round constants and the initial hash value are the first 32 bits
    of the fractional parts of the cube roots of the first 64 primes and of
    the square roots of the first 8. *)
Definition is_prime (n : N) : bool :=
  (1 <? n) && forallb (fun d => negb (n mod d =? 0)) (N.of_nat <$> seq 2 (N.to_nat n - 2)).

Definition primes (count : nat) : list N :=
  take count (List.filter is_prime (N.of_nat <$> seq 2 400)).

(** The integer cube root, the bits from [n - 1] down decided one by one. *)
Fixpoint icbrt_bits (n : nat) (x r : N) : N :=
  match n with
  | O => r
  | S n' =>
      let c := r + 2 ^ N.of_nat n' in
      if c * c * c <=? x then icbrt_bits n' x c else icbrt_bits n' x r
  end.

Definition frac_cbrt32 (p : N) : N := w32 (icbrt_bits 40 (p * 2 ^ 96) 0).
Definition frac_sqrt32 (p : N) : N := w32 (N.sqrt (p * 2 ^ 64)).

Definition K : list N := Eval vm_compute in map frac_cbrt32 (primes 64).
Definition H0 : list N := Eval vm_compute in map frac_sqrt32 (primes 8).

(** The message followed by the bit 1, zeros, and its length in bits as a
    64-bit big-endian number, to a multiple of 64 bytes. *)
Definition pad (msg : bytes) : bytes :=
  let len := length msg in
  msg ++ [x80] ++ replicate ((64 - (len + 9) mod 64) mod 64)%nat x00
      ++ be_bytes 8 (8 * N.of_nat len).

(** The sixteen big-endian words of a block. *)
Fixpoint words (n : nat) (block : bytes) : list N :=
  match n with
  | O => []
  | S n' => be_value (take 4 block) :: words n' (drop 4 block)
  end.

(** The message schedule, latest word first. *)
Fixpoint schedule (n : nat) (rw : list N) : list N :=
  match n with
  | O => rw
  | S n' =>
      let w := add32 (add32 (sigma1 (nth 1 rw 0)) (nth 6 rw 0))
                     (add32 (sigma0 (nth 14 rw 0)) (nth 15 rw 0)) in
      schedule n' (w :: rw)
  end.

Definition round (s : list N) (kw : N * N) : list N :=
  match s with
  | [a; b; c; d; e; f; g; h] =>
      let t1 := add32 (add32 (add32 h (Sigma1 e)) (add32 (Ch e f g) kw.1)) kw.2 in
      let t2 := add32 (Sigma0 a) (Maj a b c) in
      [add32 t1 t2; a; b; c; add32 d t1; e; f; g]
  | _ => s
  end.

Definition compress (h : list N) (block : bytes) : list N :=
  let w := rev (schedule 48 (rev (words 16 block))) in
  zip_with add32 h (foldl round h (zip K w)).

Fixpoint blocks (fuel : nat) (h : list N) (msg : bytes) : list N :=
  match fuel, msg with
  | S fuel', _ :: _ => blocks fuel' (compress h (take 64 msg)) (drop 64 msg)
  | _, _ => h
  end.

Definition sha256 (msg : bytes) : bytes :=
  let m := pad msg in
  concat (map (be_bytes 4) (blocks (length m) H0 m)).

End SHA256.

(** ** Files *)

(** The destination image while it is open for writing: its bytes, the
    cursor, and the calls of [write] made so far, each with the offset it
    wrote at. A seek within the interpreter's offset range and a write do
    not fail here: the limits of the machine and of the file system are
    outside the model, the limit of the offset is in [seek_to]. *)
Record wfile : Type := mkFile {
  content : bytes;
  cursor : nat;
  written : list (nat * bytes)
}.

(** [open(output_path, 'wb')]: created, or truncated to nothing. *)
Definition open_wb : wfile := mkFile [] 0 [].

Definition seek (p : nat) (f : wfile) : wfile :=
  mkFile (content f) p (written f).

(** Writing [d] at offset [pos]: a gap between the end of the file and
    [pos] reads as zeros afterwards; an empty write leaves the file as it
    is, whatever the offset. *)
Definition write_at (file : bytes) (pos : nat) (d : bytes) : bytes :=
  match d with
  | [] => file
  | _ => take pos file ++ replicate (pos - length file) x00 ++ d
           ++ drop (pos + length d) file
  end.

Definition write (d : bytes) (f : wfile) : wfile :=
  mkFile (write_at (content f) (cursor f) d) (cursor f + length d)
         (written f ++ [(cursor f, d)]).

(** ** Dynamically typed arithmetic *)

#[global] Instance value_eq_dec : EqDecision value.
Proof. solve_decision. Defined.

(** The interpreter's limits (CPython on a 64-bit platform). A file
    offset is an [off_t] and a repetition count or a length an index
    ([Py_ssize_t]): both end at [2^63 - 1]. A [bytes] object that
    [bytes(n)] or [read(n)] makes carries a header of 33 bytes that has to
    fit under the same limit. Below these limits a call fails only for want
    of memory or of room in the file system, which is the machine's
    business. *)
Definition OFFSET_MAX : N := 2 ^ 63 - 1.
Definition INDEX_MAX : N := 2 ^ 63 - 1.
Definition BYTES_MAX : N := 2 ^ 63 - 34.

(** [n * s] and [s * n]: the count has to be an index, and so has the
    length of the result. *)
Definition repeat_bytes (n : N) (s : bytes) : exc value :=
  if (INDEX_MAX <? n)%N then Raise OverflowError
  else if (INDEX_MAX <? N.of_nat (length s) * n)%N then Raise OverflowError
  else Ok (VBytes (concat (replicate (N.to_nat n) s))).

(** [a * b]: the product of two ints, a [bytes] repeated by an int, or a
    [TypeError]. *)
Definition py_mul (a b : value) : exc value :=
  match a, b with
  | VInt x, VInt y => Ok (VInt (x * y))
  | VInt n, VBytes s | VBytes s, VInt n => repeat_bytes n s
  | VBytes _, VBytes _ => Raise TypeError
  end.

(** [k + v] for an int [k]. *)
Definition py_add (k : N) (v : value) : exc N :=
  match v with
  | VInt n => Ok (k + n)%N
  | VBytes _ => Raise TypeError
  end.

(** [bytes(v)]: that many zero bytes, or a copy. *)
Definition py_bytes (v : value) : exc bytes :=
  match v with
  | VInt n =>
      if (BYTES_MAX <? n)%N then Raise OverflowError
      else Ok (replicate (N.to_nat n) x00)
  | VBytes s => Ok s
  end.

(** The truth value of [v]. *)
Definition truthy (v : value) : bool :=
  match v with
  | VInt n => negb (n =? 0)%N
  | VBytes s => negb (bool_decide (s = []))
  end.

(** [f.seek(v)]: the offset must be an int, and one an [off_t] holds. *)
Definition seek_to (v : value) (f : wfile) : exc wfile :=
  match v with
  | VInt p =>
      if (OFFSET_MAX <? p)%N then Raise OffsetTooLarge
      else Ok (seek (N.to_nat p) f)
  | VBytes _ => Raise TypeError
  end.

(** [OP_NAMES.get(v, v)] and [OP_NAMES.get(v)]. *)
Definition names_get_or_self (v : value) : kind_label :=
  match v with
  | VInt n => match OP_NAMES n with Some s => KName s | None => KRaw v end
  | VBytes _ => KRaw v
  end.

Definition names_get (v : value) : kind_label :=
  match v with
  | VInt n => match OP_NAMES n with Some s => KName s | None => KNone end
  | VBytes _ => KNone
  end.

(** ** Operation executor *)

(** [v in (OP_SOURCE_COPY, OP_SOURCE_BSDIFF, OP_PUFFDIFF)]. *)
Definition incremental (v : value) : bool :=
  is_int v OP_SOURCE_COPY || is_int v OP_SOURCE_BSDIFF || is_int v OP_PUFFDIFF.

(** [op.data_sha256 and hashlib.sha256(compressed).digest() != op.data_sha256]. *)
Definition digest_mismatch (op : Operation) (compressed : bytes) : bool :=
  truthy (data_sha256 op)
  && negb (bool_decide (VBytes (SHA256.sha256 compressed) = data_sha256 op)).

(** Why [extract_partition] printed an error and returned [False]. *)
Inductive failure : Type :=
  | HashMismatch (i : nat)            (* "Error: Hash mismatch at operation i" *)
  | DecompressFailed (e : exn).       (* "Error: e", from the except clause *)

(** How a call of [extract_partition] ends. *)
Inductive verdict : Type :=
  | ReturnTrue
  | ReturnFalse (why : failure)
  | Raised (e : exn).

Section Executor.

(** [lzma.decompress] and [bz2.decompress]: the decompressed bytes, or
    [None] when the call raises. *)
Variables lzma_decompress bz2_decompress : bytes -> option bytes.

Definition decompress (data : bytes) (op_type : value) : exc bytes :=
  if is_int op_type OP_REPLACE then Ok data
  else if is_int op_type OP_REPLACE_XZ then
    match lzma_decompress data with Some d => Ok d | None => Raise LZMAError end
  else if is_int op_type OP_REPLACE_BZ then
    match bz2_decompress data with Some d => Ok d | None => Raise BZ2Error end
  else Raise (Unsupported (names_get_or_self op_type)).

(** The loop of the [OP_ZERO] branch; the exception that ends it, if any. *)
Fixpoint zero_extents (bs : value) (extents : list (value * value)) (f_out : wfile)
  : wfile * option exn :=
  match extents with
  | [] => (f_out, None)
  | (start, num) :: rest =>
      match (p ← py_mul start bs; seek_to p f_out) with
      | Raise e => (f_out, Some e)
      | Ok f1 =>
          match (z ← py_mul num bs; py_bytes z) with
          | Raise e => (f1, Some e)
          | Ok zeros => zero_extents bs rest (write zeros f1)
          end
      end
  end.

(** The loop that writes [data] out, from cursor [pos] of [data]. *)
Fixpoint write_extents (bs : value) (data : bytes) (extents : list (value * value))
    (pos : N) (f_out : wfile) : wfile * option exn :=
  match extents with
  | [] => (f_out, None)
  | (start, num) :: rest =>
      match py_mul num bs with
      | Raise e => (f_out, Some e)
      | Ok size =>
          match (p ← py_mul start bs; seek_to p f_out) with
          | Raise e => (f_out, Some e)
          | Ok f1 =>
              match size with
              | VBytes _ => (f1, Some TypeError)       (* pos + size *)
              | VInt size =>
                  write_extents bs data rest (pos + size)%N
                    (write (slice data (N.to_nat pos) (N.to_nat (pos + size))) f1)
              end
          end
      end
  end.

(** [f_in.seek(payload.data_offset + op.data_offset)] then
    [f_in.read(op.data_length)], on the payload file's bytes: the read
    returns what the file has from the offset on, up to the length asked
    for. *)
Definition read_source (f_in : bytes) (payload : Payload) (op : Operation) : exc bytes :=
  off ← py_add (payload_data_offset payload) (data_offset op);
  if (OFFSET_MAX <? off)%N then Raise OffsetTooLarge
  else
    match data_length op with
    | VInt n =>
        if (BYTES_MAX <? n)%N then Raise OverflowError
        else Ok (slice f_in (N.to_nat off) (N.to_nat off + N.to_nat n))
    | VBytes _ => Raise TypeError
    end.

(** One turn of the loop of [extract_partition], on operation [i]: the
    destination afterwards, and [None] when the loop goes on to the next
    operation. *)
Definition extract_op (f_in : bytes) (payload : Payload) (i : nat) (op : Operation)
    (f_out : wfile) : wfile * option verdict :=
  let bs := block_size payload in
  if is_int (op_type op) OP_ZERO then
    match zero_extents bs (dst_extents op) f_out with
    | (f, None) => (f, None)
    | (f, Some e) => (f, Some (Raised e))
    end
  else if incremental (op_type op) then
    (f_out, Some (Raised (IncrementalOp (names_get (op_type op)))))
  else
    match read_source f_in payload op with
    | Raise e => (f_out, Some (Raised e))
    | Ok compressed =>
        if digest_mismatch op compressed
        then (f_out, Some (ReturnFalse (HashMismatch i)))
        else
          match decompress compressed (op_type op) with
          | Raise e => (f_out, Some (ReturnFalse (DecompressFailed e)))
          | Ok data =>
              match write_extents bs data (dst_extents op) 0 f_out with
              | (f, None) => (f, None)
              | (f, Some e) => (f, Some (Raised e))
              end
          end
    end.

(** The loop of [extract_partition] from operation [i] on. *)
Fixpoint extract_ops (f_in : bytes) (payload : Payload) (i : nat)
    (ops : list Operation) (f_out : wfile) : wfile * verdict :=
  match ops with
  | [] => (f_out, ReturnTrue)
  | op :: rest =>
      match extract_op f_in payload i op f_out with
      | (f, None) => extract_ops f_in payload (S i) rest f
      | (f, Some v) => (f, v)
      end
  end.

(** [extract_partition(payload, partition, output_path)], where [f_in] is
    the content of the file at [payload.path]: the image file it leaves
    and how the call ends. *)
Definition extract_partition (f_in : bytes) (payload : Payload) (partition : Partition)
  : wfile * verdict :=
  extract_ops f_in payload 0 (operations partition) open_wb.

End Executor.

(** ** Extraction orchestrator *)

(** The order of [sorted] on [str]: by code point, which on UTF-8 is the
    order of the encodings byte by byte. *)
Definition str_le (s1 s2 : string) : Prop := String.leb s1 s2 = true.
#[global] Instance str_le_dec : RelDecision str_le.
Proof. intros s1 s2. unfold str_le. apply _. Defined.

(** The directory tree under [output_dir]: whether [mkdir] has run, and the
    image files by partition name ([name] stands for the file
    [output_dir / "name.img"]). *)
Record outdir : Type := mkOutdir {
  dir_made : bool;
  images : gmap string wfile
}.

(** How [cmd_extract] ends. *)
Inductive cmd_result : Type :=
  | AllDone                                           (* returns True *)
  | NotFound (n : string) (available : list string)   (* "Error: 'n' not found. Available: ..." *)
  | PartitionFailed (n : string) (why : failure)      (* extract_partition returned False *)
  | CmdRaised (e : exn).

Section Orchestrator.

Variables lzma_decompress bz2_decompress : bytes -> option bytes.

(** [format_size]: the text it returns (it divides as floating point), or
    the exception it raises. *)
Variable format_size : value -> exc string.

(** [{p.name: p for p in payload.partitions}]: a later partition replaces
    an earlier one of the same name. *)
Definition by_name_of (parts : list Partition) : gmap string Partition :=
  foldl (fun m p => <[name p := p]> m) ∅ parts.

(** [sorted(by_name)]. *)
Definition sorted_names (by_name : gmap string Partition) : list string :=
  merge_sort str_le (map_to_list by_name).*1.

(** The first loop of [cmd_extract]: the first requested name that is not
    a key of [by_name]. *)
Fixpoint first_missing (by_name : gmap string Partition) (names : list string)
  : option string :=
  match names with
  | [] => None
  | n :: rest =>
      match by_name !! n with
      | None => Some n
      | Some _ => first_missing by_name rest
      end
  end.

(** The second loop of [cmd_extract]. The image file of a name is the
    entry of [images] under that name, and opening it succeeds: that is the
    code's behaviour for the names that are [plain_name]; the statements
    about images are made for such names. *)
Fixpoint extract_all (f_in : bytes) (payload : Payload)
    (by_name : gmap string Partition) (names : list string) (out : outdir)
  : outdir * cmd_result :=
  match names with
  | [] => (out, AllDone)
  | n :: rest =>
      match by_name !! n with
      | None => (out, CmdRaised KeyError)      (* excluded by the first loop *)
      | Some part =>
          match format_size (psize part) with
          | Raise e => (out, CmdRaised e)
          | Ok _ =>
              let '(img, v) := extract_partition lzma_decompress bz2_decompress
                                 f_in payload part in
              let out' := mkOutdir (dir_made out) (<[n := img]> (images out)) in
              match v with
              | Raised e => (out', CmdRaised e)
              | ReturnFalse why => (out', PartitionFailed n why)
              | ReturnTrue =>
                  match format_size (VInt (N.of_nat (length (content img)))) with
                  | Raise e => (out', CmdRaised e)
                  | Ok _ => extract_all f_in payload by_name rest out'
                  end
              end
          end
      end
  end.

(** [cmd_extract(payload, names, output_dir)]: the directory afterwards and
    how the call ends. *)
Definition cmd_extract (f_in : bytes) (payload : Payload) (names : list string)
    (out : outdir) : outdir * cmd_result :=
  let by_name := by_name_of (partitions payload) in
  match first_missing by_name names with
  | Some n => (out, NotFound n (sorted_names by_name))
  | None =>
      extract_all f_in payload by_name names (mkOutdir true (images out))
  end.

(** The rows [cmd_list] prints, one per partition: name, formatted size,
    number of operations. *)
Fixpoint list_rows (parts : list Partition) : exc (list (string * string * nat)) :=
  match parts with
  | [] => Ok []
  | p :: rest =>
      s ← format_size (psize p);
      rows ← list_rows rest;
      Ok ((name p, s, length (operations p)) :: rows)
  end.

(** [cmd_list(payload)]: what it prints (path, block size, number of
    partitions, rows), or the exception it raises. *)
Definition cmd_list (payload : Payload)
  : exc (string * value * nat * list (string * string * nat)) :=
  rows ← list_rows (partitions payload);
  Ok (path payload, block_size payload, length (partitions payload), rows).

End Orchestrator.

(** ** Well-formed inputs

    Encoders for the wire format the decoder reads, after the container
    layout: they state round trips and build sample containers. *)

(** The varint of [k]: 7 bits a byte, low group first, the high bit set on
    every byte but the last. *)
Fixpoint encode_varint_groups (fuel : nat) (k : N) : bytes :=
  match fuel with
  | O => [byte_of_N k]
  | S fuel' =>
      if (k <? 128)%N then [byte_of_N k]
      else byte_of_N (128 + k mod 128)%N :: encode_varint_groups fuel' (k / 128)%N
  end.

Definition encode_varint (k : N) : bytes :=
  encode_varint_groups (N.to_nat (N.size k)) k.

(** A varint field and a length-delimited field. *)
Definition field_varint (f k : N) : bytes :=
  encode_varint (f * 8)%N ++ encode_varint k.

Definition field_bytes (f : N) (b : bytes) : bytes :=
  encode_varint (f * 8 + 2)%N ++ encode_varint (N.of_nat (length b)) ++ b.

(** An extent, an operation, a partition and a manifest as messages. *)
Definition extent_msg (e : N * N) : bytes :=
  field_varint 1 e.1 ++ field_varint 2 e.2.

Definition operation_msg (kind off len : N) (exts : list (N * N)) (digest : bytes) : bytes :=
  field_varint 1 kind ++ field_varint 2 off ++ field_varint 3 len
  ++ concat (map (fun e => field_bytes 6 (extent_msg e)) exts)
  ++ match digest with [] => [] | _ => field_bytes 8 digest end.

Definition partition_msg (nm : string) (sz : N) (ops : list bytes) : bytes :=
  field_bytes 1 (list_byte_of_string nm)
  ++ field_bytes 7 (field_varint 1 sz)
  ++ concat (map (field_bytes 8) ops).

Definition manifest_msg (bs : N) (parts : list bytes) : bytes :=
  field_varint 3 bs ++ concat (map (field_bytes 13) parts).

(** The container: magic, version 2, manifest length, signature length,
    manifest, signature block, data region. *)
Definition container (manifest signature data : bytes) : bytes :=
  PAYLOAD_MAGIC ++ be_bytes 8 2 ++ be_bytes 8 (N.of_nat (length manifest))
  ++ be_bytes 4 (N.of_nat (length signature)) ++ manifest ++ signature ++ data.

(** ** Sample inputs *)

(** A small container in the shape of the golden scenario: block size 4,
    one partition "boot" with one Replace operation that writes eight bytes
    [0xAB] to the extent (0, 2), with their digest. *)
Definition sample_data : bytes := replicate 8 xab.

Definition golden_op : Operation :=
  mkOperation (VInt 0) (VInt 0) (VInt 8) [(VInt 0, VInt 2)]
    (VBytes (SHA256.sha256 sample_data)).

Definition golden_container : bytes :=
  container
    (manifest_msg 4
       [partition_msg "boot" 8
          [operation_msg 0 0 8 [(0, 2)%N] (SHA256.sha256 sample_data)]])
    [] sample_data.

Definition golden_payload : Payload :=
  mkPayload "payload.bin" 86 (VInt 4)
    [mkPartition "boot" [golden_op] (VInt 8)].

(** The golden container with one byte of the operation's data changed. *)
Definition tampered_container : bytes := <[86 + 3 := xac]> golden_container.

(** A Replace operation without digest that reads one byte for the extent
    (0, 1), which at block size 4 is four bytes long. *)
Definition short_op : Operation :=
  mkOperation (VInt 0) (VInt 0) (VInt 1) [(VInt 0, VInt 1)] (VBytes []).

(** A buffer of two blocks of four bytes. *)
Definition two_blocks : bytes := [x01; x02; x03; x04; x05; x06; x07; x08].

(** A container whose manifest declares two partitions named "boot". *)
Definition twin_container : bytes :=
  container
    (manifest_msg 4
       [partition_msg "boot" 8
          [operation_msg 0 0 8 [(0, 2)%N] (SHA256.sha256 sample_data)];
        partition_msg "boot" 4 [operation_msg 6 0 0 [(0, 1)%N] []]])
    [] sample_data.

Definition twin_payload : Payload :=
  mkPayload "payload.bin" 112 (VInt 4)
    [mkPartition "boot" [golden_op] (VInt 8);
     mkPartition "boot" [mkOperation (VInt 6) (VInt 0) (VInt 0) [(VInt 0, VInt 1)] (VBytes [])]
       (VInt 4)].

(** A container whose only operation has the kind tag 99, which
    [OP_NAMES] does not list. *)
Definition odd_op : Operation :=
  mkOperation (VInt 99) (VInt 0) (VInt 8) [(VInt 0, VInt 2)] (VBytes []).

Definition odd_container : bytes :=
  container
    (manifest_msg 4 [partition_msg "boot" 8 [operation_msg 99 0 8 [(0, 2)%N] []]])
    [] sample_data.

Definition odd_payload : Payload :=
  mkPayload "payload.bin" 52 (VInt 4) [mkPartition "boot" [odd_op] (VInt 8)].

(** An operation of kind [kind] with no data, no extents and the digest
    [digest]. *)
Definition bare_op (kind : value) (digest : bytes) : Operation :=
  mkOperation kind (VInt 0) (VInt 0) [] (VBytes digest).

(** ** Vocabulary of the statements *)

(** The kinds with a data path: Replace, ReplaceXz, ReplaceBz. *)
Definition replace_family (v : value) : Prop :=
  v = VInt OP_REPLACE \/ v = VInt OP_REPLACE_XZ \/ v = VInt OP_REPLACE_BZ.

(** The kinds the executor has no branch for: neither Zero, nor
    incremental, nor one [decompress] handles. Zstd (14) and Lz4 (15) are
    among them, as is every tag outside [OP_NAMES] and every tag that is
    not an int. *)
Definition unimplemented (v : value) : bool :=
  negb (is_int v OP_ZERO || incremental v || is_int v OP_REPLACE
        || is_int v OP_REPLACE_XZ || is_int v OP_REPLACE_BZ).

(** Extents whose blocks are ints, as a well-formed manifest gives them. *)
Definition typed_extents (exts : list (N * N)) : list (value * value) :=
  map (fun e => (VInt e.1, VInt e.2)) exts.

(** The payload with every operation's kind replaced by [retag] of the
    operation, and all else kept. *)
Definition retag_op (retag : Operation -> value) (op : Operation) : Operation :=
  mkOperation (retag op) (data_offset op) (data_length op) (dst_extents op)
    (data_sha256 op).

Definition retag_partition (retag : Operation -> value) (p : Partition) : Partition :=
  mkPartition (name p) (retag_op retag <$> operations p) (psize p).

Definition with_kinds (retag : Operation -> value) (payload : Payload) : Payload :=
  mkPayload (path payload) (payload_data_offset payload) (block_size payload)
    (retag_partition retag <$> partitions payload).

(** The values of the manifest's fields 13, in order, and their parses. *)
Definition partition_values (fields : list (N * value)) : list value :=
  (filter (fun fv => fv.1 = 13%N) fields).*2.

Fixpoint parse_all (vs : list value) : exc (list Partition) :=
  match vs with
  | [] => Ok []
  | v :: vs' => part ← parse_partition v; parts ← parse_all vs'; Ok (part :: parts)
  end.

(** The manifest blob [load_payload] reads from a container. *)
Definition manifest_of (file : bytes) : bytes :=
  slice file 24 (24 + N.to_nat (be_value (slice file 12 20))).

(** The value of the last field 3, or [bs] when there is none. *)
Definition last_block_size (fields : list (N * value)) (bs : value) : value :=
  default bs (last (filter (fun fv => fv.1 = 3%N) fields).*2).

(** The bytes extent [e] covers, and all extents together. *)
Definition extent_bytes (bs : N) (e : N * N) : N := (e.2 * bs)%N.

Definition total_extent_bytes (bs : N) (exts : list (N * N)) : N :=
  foldr (fun e acc => (extent_bytes bs e + acc)%N) 0%N exts.

(** An extent the write loop can seek to, and one the Zero loop can also
    make the zeros for: the offset fits a file offset, the size a [bytes]
    object. *)
Definition seekable (bs : N) (e : N * N) : Prop := (e.1 * bs <= OFFSET_MAX)%N.

Definition zeroable (bs : N) (e : N * N) : Prop :=
  (e.1 * bs <= OFFSET_MAX)%N /\ (e.2 * bs <= BYTES_MAX)%N.

(** The repetition [n * s] is within the index range. *)
Definition repeatable (n : N) (s : bytes) : bool :=
  negb (INDEX_MAX <? n)%N && negb (INDEX_MAX <? N.of_nat (length s) * n)%N.

(** The cursor into the buffer when extent [i] is reached: the bytes of
    the extents before it. *)
Definition cursor_before (bs : N) (exts : list (N * N)) (i : nat) : N :=
  total_extent_bytes bs (take i exts).

(** What extent [i] is given: the next [num_blocks * bs] bytes of the
    buffer after the cursor (as many of them as the buffer has), at the
    destination offset [start_block * bs]. *)
Definition extent_span (bs : N) (data : bytes) (exts : list (N * N))
    (i : nat) (e : N * N) : nat * bytes :=
  (N.to_nat (e.1 * bs),
   take (N.to_nat (extent_bytes bs e)) (drop (N.to_nat (cursor_before bs exts i)) data)).

Definition extent_spans (bs : N) (data : bytes) (exts : list (N * N))
  : list (nat * bytes) :=
  imap (extent_span bs data exts) exts.

(** The file after a run of seek-and-write pairs. *)
Definition apply_writes (f : wfile) (spans : list (nat * bytes)) : wfile :=
  foldl (fun f pd => write pd.2 (seek pd.1 f)) f spans.

(** A codec that rejects every input: it instantiates, at concrete inputs,
    statements that hold whatever the codecs are. *)
Definition rejecting_codec : bytes -> option bytes := fun _ => None.

(** ** Encoded fields *)

(** The value a run of varint bytes stands for: the low 7 bits of each
    byte, low group first. *)
Fixpoint groups_value (bs : bytes) : N :=
  match bs with
  | [] => 0%N
  | b :: bs' => (N.land (byte_val b) 0x7F + 128 * groups_value bs')%N
  end.

(** A decoded field as the bytes a writer emits for it: an int as a varint
    field, a [bytes] value as a length-delimited field. *)
Definition encode_field (fv : N * value) : bytes :=
  match fv.2 with
  | VInt k => field_varint fv.1 k
  | VBytes b => field_bytes fv.1 b
  end.

Definition encode_fields (fields : list (N * value)) : bytes :=
  concat (encode_field <$> fields).

(** A fixed-width field: the tag with wire type [w], then [width] bytes,
    low byte first. *)
Definition field_fixed (f w : N) (width : nat) (v : N) : bytes :=
  encode_varint (f * 8 + w)%N ++ le_bytes width v.

(** ** Manifests as a writer states them *)

(** An operation as a well-formed manifest states it. *)
Record op_desc : Type := mkOpDesc {
  d_kind : N;
  d_offset : N;
  d_length : N;
  d_extents : list (N * N);
  d_digest : bytes
}.

Definition op_of (d : op_desc) : Operation :=
  mkOperation (VInt (d_kind d)) (VInt (d_offset d)) (VInt (d_length d))
    (typed_extents (d_extents d)) (VBytes (d_digest d)).

Definition op_msg_of (d : op_desc) : bytes :=
  operation_msg (d_kind d) (d_offset d) (d_length d) (d_extents d) (d_digest d).

(** A partition as a well-formed manifest states it. *)
Record part_desc : Type := mkPartDesc {
  p_name : string;
  p_size : N;
  p_ops : list op_desc
}.

Definition partition_of (p : part_desc) : Partition :=
  mkPartition (p_name p) (op_of <$> p_ops p) (VInt (p_size p)).

Definition part_msg_of (p : part_desc) : bytes :=
  partition_msg (p_name p) (p_size p) (map op_msg_of (p_ops p)).

(** The fixed header: magic, version, manifest length, signature length. *)
Definition header (version manifest_size signature_size : N) : bytes :=
  PAYLOAD_MAGIC ++ be_bytes 8 version ++ be_bytes 8 manifest_size
  ++ be_bytes 4 signature_size.

(** The field numbers each parser reads; it skips every other. *)
Definition operation_fields : list N := [1; 2; 3; 6; 8]%N.
Definition partition_fields : list N := [1; 7; 8]%N.
Definition payload_fields : list N := [3; 13]%N.

Definition only (numbers : list N) (fields : list (N * value)) : list (N * value) :=
  filter (fun fv => fv.1 ∈ numbers) fields.

(** The fields of the messages. *)
Definition extent_field (e : N * N) : N * value := (6%N, VBytes (extent_msg e)).

Definition op_fields (d : op_desc) : list (N * value) :=
  [(1%N, VInt (d_kind d)); (2%N, VInt (d_offset d)); (3%N, VInt (d_length d))]
  ++ (extent_field <$> d_extents d)
  ++ match d_digest d with [] => [] | _ => [(8%N, VBytes (d_digest d))] end.


Definition op_field (d : op_desc) : N * value := (8%N, VBytes (op_msg_of d)).

Definition part_fields (p : part_desc) : list (N * value) :=
  [(1%N, VBytes (list_byte_of_string (p_name p)));
   (7%N, VBytes (field_varint 1 (p_size p)))]
  ++ (op_field <$> p_ops p).

Definition part_field (p : part_desc) : N * value := (13%N, VBytes (part_msg_of p)).

(** The names of the partitions are text: well-formed UTF-8. *)
Definition names_valid (parts : list part_desc) : Prop :=
  Forall (fun p => utf8_valid (list_byte_of_string (p_name p)) = true) parts.

(** ** Writes and what the file holds after them *)

(** The writes of a Zero operation: for each extent its size in zero
    bytes, at its offset. *)
Definition zero_spans (bs : N) (exts : list (N * N)) : list (nat * bytes) :=
  map (fun e => (N.to_nat (e.1 * bs), replicate (N.to_nat (e.2 * bs)) x00)) exts.

(** Offset [k] lies inside the write [pd]. *)
Definition covers (k : nat) (pd : nat * bytes) : Prop :=
  pd.1 <= k < pd.1 + length pd.2.

#[global] Instance covers_dec (k : nat) (pd : nat * bytes) : Decision (covers k pd).
Proof. unfold covers. apply _. Defined.

(** The last write of a run that covers offset [k]. *)
Definition last_covering (spans : list (nat * bytes)) (k : nat) : option (nat * bytes) :=
  last (filter (covers k) spans).

(** The length of a file of [len] bytes after a run of writes. *)
Definition end_after (len : nat) (spans : list (nat * bytes)) : nat :=
  foldl (fun n pd => match pd.2 with [] => n | _ => n `max` (pd.1 + length pd.2) end)
        len spans.

(** ** A partition that runs to the end *)

Section Run.

Variables lzma_decompress bz2_decompress : bytes -> option bytes.

(** The bytes operation [d] reads from the payload file [f_in] whose data
    region starts at [base]. *)
Definition op_source (f_in : bytes) (base : N) (d : op_desc) : bytes :=
  slice f_in (N.to_nat (base + d_offset d))
    (N.to_nat (base + d_offset d) + N.to_nat (d_length d)).

(** Operation [d] goes through at block size [bs]: it is a Zero whose
    extents are within what seek and [bytes] take; or it is a Replace,
    ReplaceXz or ReplaceBz whose source read and extents are within what
    seek and read take, whose digest is absent or the digest of its source
    bytes, and whose source bytes decompress. *)
Definition op_runs (f_in : bytes) (base bs : N) (d : op_desc) : Prop :=
  (d_kind d = OP_ZERO /\ Forall (zeroable bs) (d_extents d))
  \/ (replace_family (VInt (d_kind d))
      /\ (base + d_offset d <= OFFSET_MAX)%N /\ (d_length d <= BYTES_MAX)%N
      /\ Forall (seekable bs) (d_extents d)
      /\ (d_digest d = [] \/ d_digest d = SHA256.sha256 (op_source f_in base d))
      /\ exists buf,
           decompress lzma_decompress bz2_decompress (op_source f_in base d)
             (VInt (d_kind d)) = Ok buf).

(** The writes operation [d] makes when it goes through. *)
Definition op_writes (f_in : bytes) (base bs : N) (d : op_desc) : list (nat * bytes) :=
  if (d_kind d =? OP_ZERO)%N then zero_spans bs (d_extents d)
  else
    match decompress lzma_decompress bz2_decompress (op_source f_in base d)
            (VInt (d_kind d)) with
    | Ok buf => extent_spans bs buf (d_extents d)
    | Raise _ => []
    end.

End Run.

(** ** The images a run of extractions leaves *)

(** A call that returns. *)
Definition returns {A : Type} (r : exc A) : Prop :=
  match r with Ok _ => True | Raise _ => False end.

(** A name whose image is a file of its own directly under the output
    directory: it holds no path separator and no NUL byte and, with the
    suffix [.img], is within the 255 bytes of a file name. For such names
    [output_dir / f"{name}.img"] names one file per name and, the directory
    being made, [open] creates it; these are the names for which the key
    [name] of [images] stands for the file. Under any other name the path
    is another name's file or leads into or out of the directory, or
    [open] raises, according to the name and to the directories there
    are. *)
Definition plain_name (n : string) : bool :=
  forallb (fun b => negb (bool_decide (b = x2f)) && negb (bool_decide (b = x00)))
          (list_byte_of_string n)
  && (length (list_byte_of_string n) <=? 251).

Definition plain_names (names : list string) : Prop :=
  Forall (fun n => plain_name n = true) names.

Section Outcome.

Variables lzma_decompress bz2_decompress : bytes -> option bytes.
Variable format_size : value -> exc string.

(** The image files after [extract_partition] ran for each of [names] in
    turn. *)
Definition extracted (f_in : bytes) (payload : Payload)
    (by_name : gmap string Partition) (imgs : gmap string wfile) (names : list string)
  : gmap string wfile :=
  foldl (fun m n =>
           match by_name !! n with
           | Some part =>
               <[n := (extract_partition lzma_decompress bz2_decompress
                         f_in payload part).1]> m
           | None => m
           end)
        imgs names.

(** The turn of the second loop for [n] goes on to the next name: the
    partition is there, both sizes format, and the extraction returns
    [True]. *)
Definition part_done (f_in : bytes) (payload : Payload)
    (by_name : gmap string Partition) (n : string) : Prop :=
  exists part,
    by_name !! n = Some part
    /\ returns (format_size (psize part))
    /\ (extract_partition lzma_decompress bz2_decompress f_in payload part).2
       = ReturnTrue
    /\ returns (format_size
                  (VInt (N.of_nat
                           (length (content
                                      (extract_partition lzma_decompress bz2_decompress
                                         f_in payload part).1))))).

End Outcome.

(** ** The command line *)

(** What [ap.parse_args()] makes of the command line: it prints the usage
    and exits with status 2, or ([-h]) prints the help and exits with
    status 0, or returns the arguments: [file] is the content of the file
    at [args.payload], [None] when nothing is there; [list_flag] is
    [args.list]; [names] is [args.partitions], [None] without [-p] and never
    empty with it. *)
Inductive cli : Type :=
  | UsageError
  | HelpShown
  | Parsed (file : option bytes) (p : string) (list_flag : bool)
           (names : option (list string)).

(** The names the command line asks for. *)
Definition requested (args : cli) : list string :=
  match args with
  | Parsed _ _ _ names => default [] names
  | UsageError | HelpShown => []
  end.

(** How [main] ends: [sys.exit] with a status, [sys.exit] with a message
    (printed to stderr, status 1), or the end of the function after the
    listing was printed (status 0). *)
Inductive main_error : Type :=
  | PayloadNotFound          (* "Error: <payload> not found" *)
  | Caught (e : exn).        (* "Error: <e>", from the except clause *)

Inductive main_end : Type :=
  | Exits (status : N)
  | ExitsWith (msg : main_error)
  | Listed (listing : string * value * nat * list (string * string * nat)).

(** The process's exit status. *)
Definition exit_status (r : main_end) : N :=
  match r with
  | Exits status => status
  | ExitsWith _ => 1
  | Listed _ => 0
  end.

Section Main.

Variables lzma_decompress bz2_decompress : bytes -> option bytes.
Variable format_size : value -> exc string.

(** [main()] from the line after [ap.parse_args()] on; [out] is the tree
    under [args.output]. [SystemExit] is no [Exception]: the except clause
    lets the two [sys.exit] of the try block through. *)
Definition main_body (file : option bytes) (p : string) (names : option (list string))
    (out : outdir) : outdir * main_end :=
  match file with
  | None => (out, ExitsWith PayloadNotFound)
  | Some f_in =>
      match load_payload p f_in with
      | Raise e => (out, ExitsWith (Caught e))
      | Ok payload =>
          match names with
          | Some (n :: rest) =>
              let '(out', r) := cmd_extract lzma_decompress bz2_decompress format_size
                                  f_in payload (n :: rest) out in
              match r with
              | AllDone => (out', Exits 0)
              | NotFound _ _ | PartitionFailed _ _ => (out', Exits 1)
              | CmdRaised e => (out', ExitsWith (Caught e))
              end
          | Some [] | None =>
              match cmd_list format_size payload with
              | Ok listing => (out, Listed listing)
              | Raise e => (out, ExitsWith (Caught e))
              end
          end
      end
  end.

(** [main()]: the exits of [parse_args], or the rest of the function on
    the arguments it returns; [args.list] is not read. *)
Definition main (args : cli) (out : outdir) : outdir * main_end :=
  match args with
  | UsageError => (out, Exits 2)
  | HelpShown => (out, Exits 0)
  | Parsed file p _ names => main_body file p names out
  end.

(** The image a partition is extracted to when its operations all go
    through. *)
Definition image_of (f_in : bytes) (base bs : N) (p : part_desc) : wfile :=
  apply_writes open_wb
    (concat (op_writes lzma_decompress bz2_decompress f_in base bs <$> p_ops p)).

End Main.

(** ** The downloader's byte ranges *)

(** How [download_file_multiconnection] gets to its byte ranges, or does
    not: the seek of the pre-allocation raises [ValueError] for an offset no
    [off_t] holds, which the except clause lets through; it raises [OSError]
    for a negative offset, and the function returns [False]; [total_size //
    0] raises; else the ranges are computed. Opening the file and writing
    the last byte are taken to succeed. *)
Inductive ranged : Type :=
  | SeekRefused
  | NotPreallocated
  | ZeroDivision
  | Ranges (ranges : list (Z * Z)).

(** [download_file_multiconnection] up to the ranges it computes, one per
    connection, each [(start, end)] with both ends included. *)
Definition byte_ranges (total_size num_connections : Z) : ranged :=
  let last := (total_size - 1)%Z in
  if ((last <? - 2 ^ 63) || (2 ^ 63 - 1 <? last))%Z then SeekRefused
  else if (last <? 0)%Z then NotPreallocated
  else if (num_connections =? 0)%Z then ZeroDivision
  else
    let chunk_size := (total_size `div` num_connections)%Z in
    Ranges (map (fun i : Z =>
                   ((i * chunk_size)%Z,
                    if (i =? num_connections - 1)%Z then (total_size - 1)%Z
                    else ((i + 1) * chunk_size - 1)%Z))
                (seqZ 0 num_connections)).

(** The ranges lie end to end from [lo] up to, not including, [hi]. *)
Fixpoint tiles (lo : Z) (ranges : list (Z * Z)) (hi : Z) : Prop :=
  match ranges with
  | [] => lo = hi
  | (s, e) :: rest => s = lo /\ tiles (e + 1)%Z rest hi
  end.

(** ** A sample manifest *)

(** A Replace of eight bytes to the blocks 0 and 1, without digest, and a
    Zero of block 2; the partition "boot" made of the two; its manifest at
    block size 4, and the container around it and the sample data. *)
Definition plain_op : op_desc := mkOpDesc 0 0 8 [(0, 2)%N] [].
Definition zero_op : op_desc := mkOpDesc 6 0 0 [(2, 1)%N] [].
Definition boot_desc : part_desc := mkPartDesc "boot" 12 [plain_op; zero_op].
Definition boot_manifest : bytes := manifest_msg 4 (map part_msg_of [boot_desc]).
Definition boot_container : bytes := container boot_manifest [] sample_data.

(** The payload the sample container loads to, and a size formatter that
    always returns: it instantiates, at concrete inputs, statements that
    hold whatever [format_size] is. *)
Definition boot_payload : Payload :=
  mkPayload "payload.bin" 66 (VInt 4) [partition_of boot_desc].

Definition plain_format : value -> exc string := fun _ => Ok ""%string.

(** * Properties *)

(** Unfolding the exception monad. *)
Lemma bind_Ok {A B : Type} (r : exc A) (k : A -> exc B) (b : B) :
  r ≫= k = Ok b -> exists a, r = Ok a /\ k a = Ok b.
Proof. destruct r as [a|e]; simpl; [eauto | discriminate]. Qed.

Ltac inv_bind H :=
  let a := fresh "a" in
  let Ha := fresh "Ha" in
  apply bind_Ok in H; destruct H as (a & Ha & H).

Tactic Notation "inv_bind_as" hyp(H) ident(a) ident(Ha) :=
  apply bind_Ok in H; destruct H as (a & Ha & H).

(** ** Sample runs *)

Example read_varint_300 : read_varint [xac; x02] 0 = Ok (300%N, 2).
Proof. reflexivity. Qed.

Example iter_fields_sample :
  iter_fields [x08; x96; x01; x12; x02; x68; x69]
  = ([(1%N, VInt 150); (2%N, VBytes [x68; x69])], None).
Proof. reflexivity. Qed.

(** The two standard test vectors: the empty message and "abc". *)
Example sha256_empty :
  SHA256.sha256 [] =
  [ xe3; xb0; xc4; x42; x98; xfc; x1c; x14; x9a; xfb; xf4; xc8; x99; x6f; xb9; x24;
    x27; xae; x41; xe4; x64; x9b; x93; x4c; xa4; x95; x99; x1b; x78; x52; xb8; x55 ].
Proof. vm_compute. reflexivity. Qed.

Example sha256_abc :
  SHA256.sha256 [x61; x62; x63] =
  [ xba; x78; x16; xbf; x8f; x01; xcf; xea; x41; x41; x40; xde; x5d; xae; x22; x23;
    xb0; x03; x61; xa3; x96; x17; x7a; x9c; xb4; x10; xff; x61; xf2; x00; x15; xad ].
Proof. vm_compute. reflexivity. Qed.

Example sha256_first_constants :
  take 2 SHA256.K = [0x428a2f98; 0x71374491]%N /\ length SHA256.K = 64
  /\ take 1 SHA256.H0 = [0x6a09e667]%N /\ length SHA256.H0 = 8.
Proof. vm_compute. repeat split. Qed.

(** A message of 56 bytes, which pads to two blocks. *)
Example sha256_two_blocks :
  SHA256.sha256
    (list_byte_of_string "abcdbcdecdefdefgefghfghighijhijkijkljklmklmnlmnomnopnopq")
  = [ x24; x8d; x6a; x61; xd2; x06; x38; xb8; xe5; xc0; x26; x93; x0c; x3e; x60; x39;
      xa3; x3c; xe4; x59; x64; xff; x21; x67; xf6; xec; xed; xd4; x19; xdb; x06; xc1 ].
Proof. vm_compute. reflexivity. Qed.

(** ** The wire decoder's cursor *)

Lemma read_varint_loop_advance (rest : bytes) :
  forall pos acc shift v pos',
    read_varint_loop rest pos acc shift = Ok (v, pos') ->
    pos < pos' /\ pos' <= pos + length rest.
Proof.
  induction rest as [|b rest IH]; simpl; intros pos acc shift v pos' H.
  - discriminate.
  - destruct (byte_val b <? 128)%N.
    + injection H as _ <-. lia.
    + apply IH in H. lia.
Qed.

Lemma read_varint_advance (data : bytes) (pos : nat) (v : N) (pos' : nat) :
  read_varint data pos = Ok (v, pos') -> pos < pos'.
Proof. intros H. apply read_varint_loop_advance in H. lia. Qed.

Lemma decode_field_advance (data : bytes) (pos : nat) (f : N) (v : value) (pos' : nat) :
  decode_field data pos = Ok (f, v, pos') -> pos < pos'.
Proof.
  unfold decode_field. intros H.
  inv_bind H. destruct a as [tag p1]. apply read_varint_advance in Ha.
  repeat match type of H with
         | (if ?c then _ else _) = _ => destruct c
         end; try discriminate;
    inv_bind H;
    try (destruct a as [x p2]; apply read_varint_advance in Ha0);
    injection H as _ _ <-; lia.
Qed.

Lemma iter_fields_from_bounded (data : bytes) :
  forall fuel pos, length data - pos <= fuel ->
    exists fields,
      length fields <= length data - pos /\
      (iter_fields_from fuel data pos = (fields, StopIteration) \/
       exists e, iter_fields_from fuel data pos = (fields, Stopped e)).
Proof.
  induction fuel as [|fuel IH]; intros pos Hfuel; simpl.
  - destruct (decide (pos < length data)); [lia|].
    exists []. simpl. split; [lia | by left].
  - destruct (decide (pos < length data)) as [Hlt|Hge].
    + destruct (decode_field data pos) as [[[f v] pos']|e] eqn:Hd.
      * apply decode_field_advance in Hd.
        destruct (IH pos' ltac:(lia)) as (fields & Hlen & Hend).
        exists ((f, v) :: fields). simpl. split; [lia|].
        destruct Hend as [-> | [e ->]]; [by left | right; by exists e].
      * exists []. simpl. split; [lia | right; by exists e].
    + exists []. simpl. split; [lia | by left].
Qed.

Lemma iter_fields_from_enough_fuel (data : bytes) :
  forall fuel fuel' pos,
    length data - pos <= fuel -> length data - pos <= fuel' ->
    iter_fields_from fuel data pos = iter_fields_from fuel' data pos.
Proof.
  induction fuel as [|fuel IH]; intros fuel' pos H H'.
  - destruct fuel'; simpl; destruct (decide (pos < length data)); try lia; reflexivity.
  - destruct fuel' as [|fuel'']; simpl;
      destruct (decide (pos < length data)); try lia; try reflexivity.
    destruct (decode_field data pos) as [[[f v] pos']|e] eqn:Hd; [|reflexivity].
    apply decode_field_advance in Hd.
    rewrite (IH fuel'' pos') by lia. reflexivity.
Qed.

(** C10. For every byte buffer: a decoded field moves the cursor strictly
    forward; the run of [iter_fields] within its bound of [length data] turns
    ends by itself, at the end of the buffer or with an exception, after
    yielding at most [length data] fields; and a larger bound changes
    nothing. *)
Theorem C10_iter_fields_terminates (data : bytes) :
  (forall pos f v pos', decode_field data pos = Ok (f, v, pos') -> pos < pos')
  /\ (exists fields,
        length fields <= length data /\
        (iter_fields_from (length data) data 0 = (fields, StopIteration) \/
         exists e, iter_fields_from (length data) data 0 = (fields, Stopped e)))
  /\ (forall fuel, length data <= fuel ->
        iter_fields_from fuel data 0 = iter_fields_from (length data) data 0).
Proof.
  split; [|split].
  - intros pos f v pos'. apply decode_field_advance.
  - destruct (iter_fields_from_bounded data (length data) 0 ltac:(lia))
      as (fields & Hlen & Hend).
    exists fields. split; [lia | exact Hend].
  - intros fuel Hfuel. apply iter_fields_from_enough_fuel; lia.
Qed.

(** What [iter_fields] returns is what the bounded run returns. *)
Lemma iter_fields_spec (data : bytes) :
  exists fields,
    (iter_fields_from (length data) data 0 = (fields, StopIteration)
     /\ iter_fields data = (fields, None))
    \/ (exists e, iter_fields_from (length data) data 0 = (fields, Stopped e)
        /\ iter_fields data = (fields, Some e)).
Proof.
  destruct (iter_fields_from_bounded data (length data) 0 ltac:(lia))
    as (fields & _ & [H | [e H]]); exists fields; unfold iter_fields; rewrite H; eauto.
Qed.

(** ** Truncated input *)

(** A varint whose bytes all carry the continuation bit up to the end of
    the buffer raises. *)
Lemma read_varint_loop_truncated (rest : bytes) :
  forall pos acc shift,
    Forall (fun b => (0x80 <= byte_val b)%N) rest ->
    read_varint_loop rest pos acc shift = Raise TruncatedVarint.
Proof.
  induction rest as [|b rest IH]; simpl; intros pos acc shift H; [reflexivity|].
  inversion H as [|? ? Hb Hrest]; subst.
  destruct (N.ltb_spec (byte_val b) 128); [lia|]. by apply IH.
Qed.

(** A fixed-width value with fewer than [width] bytes left raises. *)
Lemma unpack_le_truncated (width : nat) (data : bytes) (pos : nat) :
  0 < width -> length data < pos + width ->
  unpack_le width (slice data pos (pos + width)) = Raise StructError.
Proof.
  intros Hw H. unfold unpack_le, slice.
  destruct (decide _) as [Hlen|]; [|reflexivity].
  rewrite length_take, length_drop in Hlen. lia.
Qed.

(** C5. A length-delimited field that announces 5 bytes when 1 byte is left
    is yielded with the 1 byte there is, and the run ends normally: no
    exception is raised for the missing payload. *)
Theorem C5_length_delimited_truncation_passes :
  iter_fields [x0a; x05; x41] = ([(1%N, VBytes [x41])], None).
Proof. reflexivity. Qed.

(** ** The operation executor: failures before any write *)

Lemma replace_family_branch (v : value) :
  replace_family v -> is_int v OP_ZERO = false /\ incremental v = false.
Proof. intros [-> | [-> | ->]]; split; reflexivity. Qed.

(** A byte changed inside a slice is a byte changed in the buffer sliced. *)
Lemma slice_insert {A : Type} (l : list A) (a b k : nat) (x : A) :
  k < b - a -> slice (<[a + k := x]> l) a b = <[k := x]> (slice l a b).
Proof.
  intros Hk. unfold slice.
  rewrite drop_insert_ge by lia. rewrite take_insert_lt by lia.
  f_equal. lia.
Qed.

(** The source read of an operation with int offset and length, within
    what seek and read take. *)
Lemma read_source_typed (f_in : bytes) (payload : Payload) (op : Operation) (o n : N) :
  data_offset op = VInt o -> data_length op = VInt n ->
  (payload_data_offset payload + o <= OFFSET_MAX)%N -> (n <= BYTES_MAX)%N ->
  read_source f_in payload op =
  Ok (slice f_in (N.to_nat (payload_data_offset payload + o))
        (N.to_nat (payload_data_offset payload + o) + N.to_nat n)).
Proof.
  intros Ho Hn Hoff Hlen. unfold read_source. rewrite Ho, Hn.
  cbn [py_add mbind exc_bind].
  by rewrite (proj2 (N.ltb_ge _ _) Hoff), (proj2 (N.ltb_ge _ _) Hlen).
Qed.

(** The step on an operation whose source read gave [compressed] and whose
    digest check fails. *)
Lemma extract_op_digest_mismatch (lzma bz2 : bytes -> option bytes) (f_in : bytes)
    (payload : Payload) (i : nat) (op : Operation) (f_out : wfile) (compressed : bytes) :
  is_int (op_type op) OP_ZERO = false -> incremental (op_type op) = false ->
  read_source f_in payload op = Ok compressed ->
  digest_mismatch op compressed = true ->
  extract_op lzma bz2 f_in payload i op f_out
  = (f_out, Some (ReturnFalse (HashMismatch i))).
Proof.
  intros Hz Hi Hr Hd. unfold extract_op. rewrite Hz, Hi, Hr, Hd. reflexivity.
Qed.

(** The step on an operation whose digest check passes and whose
    decompression raises. *)
Lemma extract_op_decompress_fails (lzma bz2 : bytes -> option bytes) (f_in : bytes)
    (payload : Payload) (i : nat) (op : Operation) (f_out : wfile) (compressed : bytes)
    (e : exn) :
  is_int (op_type op) OP_ZERO = false -> incremental (op_type op) = false ->
  read_source f_in payload op = Ok compressed ->
  digest_mismatch op compressed = false ->
  decompress lzma bz2 compressed (op_type op) = Raise e ->
  extract_op lzma bz2 f_in payload i op f_out
  = (f_out, Some (ReturnFalse (DecompressFailed e))).
Proof.
  intros Hz Hi Hr Hd He. unfold extract_op. rewrite Hz, Hi, Hr, Hd, He. reflexivity.
Qed.

Lemma digest_mismatch_bytes (op : Operation) (compressed digest : bytes) :
  data_sha256 op = VBytes digest -> digest <> [] ->
  SHA256.sha256 compressed <> digest ->
  digest_mismatch op compressed = true.
Proof.
  intros Hd Hne Hsha. unfold digest_mismatch. rewrite Hd. simpl.
  rewrite bool_decide_eq_false_2 by exact Hne.
  rewrite bool_decide_eq_false_2 by congruence. reflexivity.
Qed.

(** The step of an operation with a data path whose digest check passes
    does not end with the hash mismatch. *)
Lemma extract_op_digest_passes (lzma bz2 : bytes -> option bytes) (f_in : bytes)
    (payload : Payload) (i : nat) (op : Operation) (f_out : wfile) (compressed : bytes) :
  read_source f_in payload op = Ok compressed ->
  digest_mismatch op compressed = false ->
  extract_op lzma bz2 f_in payload i op f_out
  <> (f_out, Some (ReturnFalse (HashMismatch i))).
Proof.
  intros Hr Hd. unfold extract_op. rewrite Hr, Hd.
  destruct (is_int (op_type op) OP_ZERO).
  { destruct (zero_extents _ _ _) as [f [e|]]; discriminate. }
  destruct (incremental (op_type op)); [discriminate|].
  destruct (decompress lzma bz2 compressed (op_type op)); [|discriminate].
  destruct (write_extents _ _ _ _ _) as [f [e|]]; discriminate.
Qed.

(** X27. A Replace, ReplaceXz or ReplaceBz operation with a non-empty
    expected digest and an int offset and length that seek and read take:
    the digest is taken over the bytes read from the payload file at
    [data_offset + op.data_offset], [op.data_length] of them; when it
    differs from the expected digest the step ends with "Hash mismatch at
    operation i", the destination untouched, whatever the codecs are (they
    are not consulted). When the expected digest is that of the bytes in
    the file and one byte of them is changed, the changed buffer differs
    from the original, and the step ends with the hash mismatch exactly
    when the two buffers differ in their SHA-256 digest. *)
Theorem X27_digest_checked_before_decompress
    (lzma bz2 : bytes -> option bytes) (f_in : bytes) (payload : Payload) (i : nat)
    (op : Operation) (f_out : wfile) (o n : N) (digest : bytes) :
  replace_family (op_type op) ->
  data_offset op = VInt o -> data_length op = VInt n ->
  (payload_data_offset payload + o <= OFFSET_MAX)%N -> (n <= BYTES_MAX)%N ->
  data_sha256 op = VBytes digest -> digest <> [] ->
  let off := N.to_nat (payload_data_offset payload + o) in
  let compressed := slice f_in off (off + N.to_nat n) in
  (SHA256.sha256 compressed <> digest ->
   extract_op lzma bz2 f_in payload i op f_out
   = (f_out, Some (ReturnFalse (HashMismatch i))))
  /\ (digest = SHA256.sha256 compressed ->
      forall (k : nat) (b' : byte),
        k < length compressed -> compressed !! k <> Some b' ->
        let f_in' := <[off + k := b']> f_in in
        let compressed' := slice f_in' off (off + N.to_nat n) in
        compressed' <> compressed
        /\ (extract_op lzma bz2 f_in' payload i op f_out
            = (f_out, Some (ReturnFalse (HashMismatch i)))
            <-> SHA256.sha256 compressed' <> SHA256.sha256 compressed)).
Proof.
  intros Hfam Ho Hn Hoff Hlen Hd Hne off compressed.
  destruct (replace_family_branch _ Hfam) as [Hz Hi].
  assert (Hstep : forall f c, read_source f payload op = Ok c ->
            SHA256.sha256 c <> digest ->
            extract_op lzma bz2 f payload i op f_out
            = (f_out, Some (ReturnFalse (HashMismatch i)))).
  { intros f c Hr Hsha. eapply extract_op_digest_mismatch; eauto.
    eapply digest_mismatch_bytes; eauto. }
  split.
  - intros Hsha. apply (Hstep f_in compressed); [|exact Hsha].
    by apply read_source_typed.
  - intros -> k b' Hk Hb f_in' compressed'.
    assert (Hc' : compressed' = <[k := b']> compressed).
    { subst compressed' f_in' compressed. apply slice_insert.
      unfold slice in Hk. rewrite length_take in Hk. lia. }
    assert (Hr' : read_source f_in' payload op = Ok compressed')
      by (by apply read_source_typed).
    split.
    + rewrite Hc'. intros Heq. apply Hb. rewrite <- Heq.
      by apply list_lookup_insert_eq.
    + split.
      * intros Hx Heq.
        apply (extract_op_digest_passes lzma bz2 f_in' payload i op f_out compressed' Hr');
          [|exact Hx].
        unfold digest_mismatch. rewrite Hd, Heq.
        rewrite (bool_decide_eq_true_2 (VBytes _ = VBytes _)) by reflexivity.
        apply andb_false_r.
      * intros Hneq. by apply (Hstep f_in' compressed').
Qed.

(** A step that ends the loop ends it with a failure. *)
Lemma extract_op_ends_badly (lzma bz2 : bytes -> option bytes) (f_in : bytes)
    (payload : Payload) (i : nat) (op : Operation) (f_out f : wfile) (v : verdict) :
  extract_op lzma bz2 f_in payload i op f_out = (f, Some v) -> v <> ReturnTrue.
Proof.
  unfold extract_op. intros H.
  repeat match type of H with
         | (if ?c then _ else _) = _ => destruct c
         | match ?x with _ => _ end = _ => destruct x
         end;
    first [discriminate H | injection H as _ <-; discriminate].
Qed.

(** The loop over a list of operations in two parts. *)
Lemma extract_ops_app (lzma bz2 : bytes -> option bytes) (f_in : bytes)
    (payload : Payload) (prior rest : list Operation) :
  forall (i : nat) (f_out f : wfile),
    extract_ops lzma bz2 f_in payload i prior f_out = (f, ReturnTrue) ->
    extract_ops lzma bz2 f_in payload i (prior ++ rest) f_out
    = extract_ops lzma bz2 f_in payload (i + length prior) rest f.
Proof.
  induction prior as [|op prior IH]; simpl; intros i f_out f H.
  - injection H as <-. f_equal. lia.
  - destruct (extract_op lzma bz2 f_in payload i op f_out) as [f1 [v|]] eqn:Hop.
    + injection H as _ ->. by apply extract_op_ends_badly in Hop.
    + rewrite (IH _ _ _ H). f_equal. lia.
Qed.

(** C9. An operation of a partition, reached after the operations before
    it ran to completion and left the destination as [f]: when its digest
    check fails, or the check passes and its decompression raises,
    [extract_partition] returns [False] with the destination exactly [f]:
    same bytes, same cursor, and no call of [write] added. *)
Theorem C9_failed_operation_writes_nothing
    (lzma bz2 : bytes -> option bytes) (f_in : bytes) (payload : Payload)
    (part : Partition) (prior rest : list Operation) (op : Operation) (f : wfile)
    (compressed : bytes) :
  operations part = prior ++ op :: rest ->
  extract_ops lzma bz2 f_in payload 0 prior open_wb = (f, ReturnTrue) ->
  is_int (op_type op) OP_ZERO = false -> incremental (op_type op) = false ->
  read_source f_in payload op = Ok compressed ->
  (digest_mismatch op compressed = true ->
   extract_partition lzma bz2 f_in payload part
   = (f, ReturnFalse (HashMismatch (length prior))))
  /\ (digest_mismatch op compressed = false ->
      forall e, decompress lzma bz2 compressed (op_type op) = Raise e ->
        extract_partition lzma bz2 f_in payload part
        = (f, ReturnFalse (DecompressFailed e))).
Proof.
  intros Hops Hprior Hz Hi Hr. unfold extract_partition. rewrite Hops.
  rewrite (extract_ops_app _ _ _ _ _ _ _ _ _ Hprior). simpl.
  split.
  - intros Hd. by rewrite (extract_op_digest_mismatch _ _ _ _ _ _ _ compressed).
  - intros Hd e He.
    by rewrite (extract_op_decompress_fails _ _ _ _ _ _ _ compressed e).
Qed.

(** The golden container loads to the golden payload, and extracts. *)
Example golden_loads : load_payload "payload.bin" golden_container = Ok golden_payload.
Proof. vm_compute. reflexivity. Qed.

Example golden_extracts :
  extract_partition rejecting_codec rejecting_codec golden_container golden_payload
    (mkPartition "boot" [golden_op] (VInt 8))
  = (mkFile sample_data 8 [(0, sample_data)], ReturnTrue).
Proof. vm_compute. reflexivity. Qed.

(** X27 at the golden operation, on the container with one data byte
    changed: the step ends with the hash mismatch. *)
Lemma X27_witness :
  extract_op rejecting_codec rejecting_codec tampered_container golden_payload 0
    golden_op open_wb
  = (open_wb, Some (ReturnFalse (HashMismatch 0))).
Proof.
  refine (proj1 (X27_digest_checked_before_decompress rejecting_codec rejecting_codec
                   tampered_container golden_payload 0 golden_op open_wb 0 8
                   (SHA256.sha256 sample_data) _ _ _ _ _ _ _) _).
  - left. reflexivity.
  - reflexivity.
  - reflexivity.
  - vm_compute. discriminate.
  - vm_compute. discriminate.
  - reflexivity.
  - vm_compute. discriminate.
  - vm_compute. discriminate.
Defined.

(** C9 at a partition of two operations on the golden container, the
    second with a digest that the data does not have: the first
    operation's eight bytes are the file. *)
Lemma C9_witness :
  extract_partition rejecting_codec rejecting_codec golden_container golden_payload
    (mkPartition "boot"
       [golden_op; mkOperation (VInt 0) (VInt 0) (VInt 8) [(VInt 4, VInt 2)] (VBytes [x00])]
       (VInt 8))
  = (mkFile sample_data 8 [(0, sample_data)], ReturnFalse (HashMismatch 1)).
Proof.
  refine (proj1 (C9_failed_operation_writes_nothing rejecting_codec rejecting_codec
                   golden_container golden_payload _ [golden_op] []
                   (mkOperation (VInt 0) (VInt 0) (VInt 8) [(VInt 4, VInt 2)] (VBytes [x00]))
                   (mkFile sample_data 8 [(0, sample_data)]) sample_data _ _ _ _ _) _).
  - reflexivity.
  - vm_compute. reflexivity.
  - reflexivity.
  - reflexivity.
  - vm_compute. reflexivity.
  - vm_compute. reflexivity.
Defined.

(** ** Unsupported kinds *)

Lemma unimplemented_branch (v : value) :
  unimplemented v = true ->
  is_int v OP_ZERO = false /\ incremental v = false /\ is_int v OP_REPLACE = false
  /\ is_int v OP_REPLACE_XZ = false /\ is_int v OP_REPLACE_BZ = false.
Proof.
  unfold unimplemented. intros H. apply negb_true_iff in H.
  repeat (apply orb_false_iff in H; destruct H as [H ?]). tauto.
Qed.

(** The step on an operation of a kind with no branch of its own, once its
    source is read. *)
Lemma extract_op_no_branch (lzma bz2 : bytes -> option bytes) (f_in : bytes)
    (payload : Payload) (i : nat) (op : Operation) (f_out : wfile) (compressed : bytes) :
  unimplemented (op_type op) = true ->
  read_source f_in payload op = Ok compressed ->
  extract_op lzma bz2 f_in payload i op f_out
  = (f_out,
     Some (ReturnFalse
             (if digest_mismatch op compressed then HashMismatch i
              else DecompressFailed (Unsupported (names_get_or_self (op_type op)))))).
Proof.
  intros H Hr.
  destruct (unimplemented_branch _ H) as (Hz & Hi & H0 & H8 & H1).
  destruct (digest_mismatch op compressed) eqn:Hd.
  - eapply extract_op_digest_mismatch; eauto.
  - eapply extract_op_decompress_fails; eauto.
    unfold decompress. rewrite H0, H8, H1. reflexivity.
Qed.

(** The step on an operation of a kind with no branch of its own,
    whatever its source read does. *)
Lemma extract_op_no_branch_read (lzma bz2 : bytes -> option bytes) (f_in : bytes)
    (payload : Payload) (i : nat) (op : Operation) (f_out : wfile) :
  unimplemented (op_type op) = true ->
  extract_op lzma bz2 f_in payload i op f_out
  = (f_out,
     Some (match read_source f_in payload op with
           | Raise e => Raised e
           | Ok compressed =>
               ReturnFalse
                 (if digest_mismatch op compressed then HashMismatch i
                  else DecompressFailed (Unsupported (names_get_or_self (op_type op))))
           end)).
Proof.
  intros H. destruct (read_source f_in payload op) as [compressed|e] eqn:Hr.
  - by apply extract_op_no_branch.
  - destruct (unimplemented_branch _ H) as (Hz & Hi & _).
    unfold extract_op. by rewrite Hz, Hi, Hr.
Qed.

(** An operation of kind Zstd whose digest does not match ends with the
    hash mismatch, whatever the codecs. *)
Lemma zstd_digest_checked_first (lzma bz2 : bytes -> option bytes) :
  extract_op lzma bz2 golden_container golden_payload 0
    (bare_op (VInt 14) (replicate 32 x00)) open_wb
  = (open_wb, Some (ReturnFalse (HashMismatch 0))).
Proof. vm_compute. reflexivity. Qed.

(** Against C4 as stated: the Zstd operation with a digest of 32 zero bytes
    fails with the hash mismatch, not with an unsupported-kind error. *)
Lemma C4_counterexample :
  extract_op rejecting_codec rejecting_codec golden_container golden_payload 0
    (bare_op (VInt 14) (replicate 32 x00)) open_wb
  = (open_wb, Some (ReturnFalse (HashMismatch 0))).
Proof. vm_compute. reflexivity. Qed.

(** C4, amended. SourceCopy, SourceBsdiff and Puffdiff raise at once, the
    error naming the kind, the destination untouched. Any other kind with
    no branch of its own (Zstd and Lz4 among them) goes through the source
    read and the digest check first: when the read raises (the offset or
    the length is not an int, or is past what seek or read take) the step
    ends with that exception; when it returns, the step ends with the hash
    mismatch when the digest check fails, and otherwise with "Unsupported"
    naming the kind (by its name in [OP_NAMES], or by the tag itself). In
    every case the destination is untouched. *)
Theorem C4_unsupported_kinds
    (lzma bz2 : bytes -> option bytes) (f_in : bytes) (payload : Payload) (i : nat)
    (op : Operation) (f_out : wfile) :
  (op_type op = VInt OP_SOURCE_COPY ->
   extract_op lzma bz2 f_in payload i op f_out
   = (f_out, Some (Raised (IncrementalOp (KName "SOURCE_COPY")))))
  /\ (op_type op = VInt OP_SOURCE_BSDIFF ->
      extract_op lzma bz2 f_in payload i op f_out
      = (f_out, Some (Raised (IncrementalOp (KName "SOURCE_BSDIFF")))))
  /\ (op_type op = VInt OP_PUFFDIFF ->
      extract_op lzma bz2 f_in payload i op f_out
      = (f_out, Some (Raised (IncrementalOp (KName "PUFFDIFF")))))
  /\ (unimplemented (op_type op) = true ->
      extract_op lzma bz2 f_in payload i op f_out
      = (f_out,
         Some (match read_source f_in payload op with
               | Raise e => Raised e
               | Ok compressed =>
                   ReturnFalse
                     (if digest_mismatch op compressed then HashMismatch i
                      else DecompressFailed
                             (Unsupported (names_get_or_self (op_type op))))
               end)))
  /\ unimplemented (VInt 14) = true /\ names_get_or_self (VInt 14) = KName "ZSTD"
  /\ unimplemented (VInt 15) = true /\ names_get_or_self (VInt 15) = KName "LZ4".
Proof.
  repeat split; try (intros H; unfold extract_op; rewrite H; reflexivity).
  intros H. by apply extract_op_no_branch_read.
Qed.

(** C4 at a Zstd operation without digest: "Unsupported: ZSTD". *)
Lemma C4_witness :
  extract_op rejecting_codec rejecting_codec golden_container golden_payload 0
    (bare_op (VInt 14) []) open_wb
  = (open_wb, Some (ReturnFalse (DecompressFailed (Unsupported (KName "ZSTD"))))).
Proof.
  pose proof (C4_unsupported_kinds rejecting_codec rejecting_codec golden_container
                golden_payload 0 (bare_op (VInt 14) []) open_wb)
    as (_ & _ & _ & H & _).
  exact (H eq_refl).
Defined.

(** ** Writing the buffer out by extents *)

Lemma apply_writes_written (spans : list (nat * bytes)) :
  forall f, written (apply_writes f spans) = written f ++ spans.
Proof.
  induction spans as [|[p d] spans IH]; intros f; simpl.
  - by rewrite app_nil_r.
  - rewrite IH. simpl. by rewrite <- app_assoc.
Qed.

Lemma apply_writes_content (spans : list (nat * bytes)) :
  forall f, content (apply_writes f spans)
            = foldl (fun c pd => write_at c pd.1 pd.2) (content f) spans.
Proof.
  induction spans as [|[p d] spans IH]; intros f; simpl; [reflexivity|].
  by rewrite IH.
Qed.

(** A byte of the file after a write: before the offset, the old byte or
    the zero of the gap; inside the written range, the byte written; after
    it, the old byte. *)
Lemma lookup_write_at (c : bytes) (pos : nat) (d : bytes) (k : nat) :
  d <> [] ->
  write_at c pos d !! k =
  if decide (k < pos) then Some (default x00 (c !! k))
  else if decide (k < pos + length d) then d !! (k - pos)
  else c !! k.
Proof.
  intros Hd. unfold write_at. destruct d as [|b d']; [done|].
  set (d := b :: d') in *.
  destruct (decide (k < pos)) as [Hlt|Hge].
  - destruct (decide (k < length c)) as [Hin|Hout].
    + rewrite lookup_app_l by (rewrite length_take; lia).
      rewrite lookup_take_lt by lia.
      destruct (lookup_lt_is_Some_2 c k Hin) as [x Hx]. by rewrite Hx.
    + rewrite lookup_app_r by (rewrite length_take; lia).
      rewrite length_take.
      rewrite lookup_app_l by (rewrite length_replicate; lia).
      rewrite lookup_replicate_2 by lia.
      by rewrite (lookup_ge_None_2 c k) by lia.
  - rewrite lookup_app_r by (rewrite length_take; lia).
    rewrite length_take.
    rewrite lookup_app_r by (rewrite length_replicate; lia).
    rewrite length_replicate.
    replace (k - pos `min` length c - (pos - length c)) with (k - pos) by lia.
    destruct (decide (k < pos + length d)) as [Hin|Hout].
    + by rewrite lookup_app_l by lia.
    + rewrite lookup_app_r by lia. rewrite lookup_drop. f_equal. lia.
Qed.

Lemma cursor_before_0 (bs : N) (exts : list (N * N)) : cursor_before bs exts 0 = 0%N.
Proof. reflexivity. Qed.

Lemma cursor_before_S (bs : N) (e : N * N) (exts : list (N * N)) (i : nat) :
  cursor_before bs (e :: exts) (S i) = (extent_bytes bs e + cursor_before bs exts i)%N.
Proof. reflexivity. Qed.

(** The seek of a turn of the loop, at an offset it takes. *)
Lemma seek_to_offset (p : N) (f : wfile) :
  (p <= OFFSET_MAX)%N -> seek_to (VInt p) f = Ok (seek (N.to_nat p) f).
Proof. intros Hp. unfold seek_to. by rewrite (proj2 (N.ltb_ge _ _) Hp). Qed.

Lemma seek_to_refused (p : N) (f : wfile) :
  (OFFSET_MAX < p)%N -> seek_to (VInt p) f = Raise OffsetTooLarge.
Proof. intros Hp. unfold seek_to. by rewrite (proj2 (N.ltb_lt _ _) Hp). Qed.

(** The loop of well-typed extents from cursor [pos], at offsets seek
    takes: it runs to its end and makes, in order, the writes of the
    extents' spans, each taken [pos] further into the buffer. *)
Lemma write_extents_from (bs : N) (data : bytes) (exts : list (N * N)) :
  Forall (seekable bs) exts ->
  forall (pos : N) (f_out : wfile),
    write_extents (VInt bs) data (typed_extents exts) pos f_out
    = (apply_writes f_out
         (imap (fun i e =>
                  (N.to_nat (e.1 * bs),
                   take (N.to_nat (extent_bytes bs e))
                        (drop (N.to_nat (pos + cursor_before bs exts i)) data)))
               exts),
       None).
Proof.
  induction 1 as [|[start num] exts Hs _ IH]; intros pos f_out; [reflexivity|].
  cbn [typed_extents map write_extents py_mul mbind exc_bind fst snd].
  rewrite (seek_to_offset _ _ Hs).
  fold (typed_extents exts). rewrite IH. rewrite imap_cons.
  cbn [apply_writes foldl fst snd]. f_equal. f_equal.
  - f_equal. unfold slice, extent_bytes. simpl.
    rewrite cursor_before_0, N.add_0_r. f_equal.
    generalize (num * bs)%N. intros sz. lia.
  - apply imap_ext. intros i e _. simpl. rewrite cursor_before_S.
    unfold extent_bytes. simpl. do 3 f_equal.
    generalize (num * bs)%N. intros sz. lia.
Qed.

Lemma write_extents_spans (bs : N) (data : bytes) (exts : list (N * N)) (f_out : wfile) :
  Forall (seekable bs) exts ->
  write_extents (VInt bs) data (typed_extents exts) 0 f_out
  = (apply_writes f_out (extent_spans bs data exts), None).
Proof. intros Hs. by rewrite write_extents_from. Qed.

(** The spans, end to end, are the buffer cut at the total extent size. *)
Lemma extent_spans_concat_from (bs : N) (data : bytes) (exts : list (N * N)) :
  forall pos : N,
    concat (imap (fun i e =>
                    (N.to_nat (e.1 * bs),
                     take (N.to_nat (extent_bytes bs e))
                          (drop (N.to_nat (pos + cursor_before bs exts i)) data)))
                 exts).*2
    = take (N.to_nat (total_extent_bytes bs exts)) (drop (N.to_nat pos) data).
Proof.
  induction exts as [|e exts IH]; intros pos; [by rewrite take_0|].
  rewrite imap_cons. cbn [fmap list_fmap concat snd].
  rewrite cursor_before_0, N.add_0_r.
  erewrite imap_ext; [rewrite (IH (pos + extent_bytes bs e)%N)|].
  - cbn [total_extent_bytes foldr]. fold (total_extent_bytes bs exts).
    rewrite (N2Nat.inj_add (extent_bytes bs e)), <- take_take_drop, drop_drop.
    do 3 f_equal. lia.
  - intros i e' _. simpl. rewrite cursor_before_S. do 3 f_equal. lia.
Qed.

Lemma extent_spans_concat (bs : N) (data : bytes) (exts : list (N * N)) :
  concat (extent_spans bs data exts).*2
  = take (N.to_nat (total_extent_bytes bs exts)) data.
Proof. apply (extent_spans_concat_from bs data exts 0). Qed.

(** The step on an operation with a data path and int blocks at offsets
    seek takes, once its digest check and decompression pass: the writes of
    the extents' spans, and on to the next operation. *)
Lemma extract_op_writes (lzma bz2 : bytes -> option bytes) (f_in : bytes)
    (payload : Payload) (i : nat) (op : Operation) (f_out : wfile) (bs : N)
    (exts : list (N * N)) (compressed data : bytes) :
  replace_family (op_type op) ->
  block_size payload = VInt bs ->
  dst_extents op = typed_extents exts ->
  Forall (seekable bs) exts ->
  read_source f_in payload op = Ok compressed ->
  digest_mismatch op compressed = false ->
  decompress lzma bz2 compressed (op_type op) = Ok data ->
  extract_op lzma bz2 f_in payload i op f_out
  = (apply_writes f_out (extent_spans bs data exts), None).
Proof.
  intros Hfam Hbs Hexts Hseek Hr Hd Hdec.
  destruct (replace_family_branch _ Hfam) as [Hz Hi].
  unfold extract_op. rewrite Hz, Hi, Hr, Hd, Hdec, Hbs, Hexts.
  by rewrite write_extents_spans.
Qed.

(** C2. The write loop on a buffer [data] and extents with int blocks, at
    offsets [start_block * bs] that seek takes (up to [2^63 - 1]), runs to
    its end; the calls of [write] it adds are, in the extents' order, one
    per extent: at offset [start_block * bs], the bytes of [data] from the
    cursor (the sizes of the extents before) on, [num_blocks * bs] of them
    when the buffer has that many left; and the file is those writes applied
    in that order; a Replace, ReplaceXz or ReplaceBz operation whose source
    read, digest check and decompression pass makes exactly these writes
    with its decompressed buffer. With the extents (0,1) and (2,1) and a buffer of two
    blocks, the first block of the buffer lands in block 0 of the file, the
    second in block 2, and block 1 keeps what the file had there (zeros
    where the file was shorter): no write covers it. *)
Theorem C2_extents_partition_buffer (bs : N) (exts : list (N * N)) (data : bytes)
    (f_out : wfile) :
  (Forall (seekable bs) exts ->
   exists f,
     write_extents (VInt bs) data (typed_extents exts) 0 f_out = (f, None)
     /\ written f = written f_out ++ extent_spans bs data exts
     /\ content f = foldl (fun c pd => write_at c pd.1 pd.2) (content f_out)
                      (extent_spans bs data exts))
  /\ (forall i e,
        exts !! i = Some e ->
        (cursor_before bs exts i + extent_bytes bs e <= N.of_nat (length data))%N ->
        exists s,
          extent_spans bs data exts !! i = Some (N.to_nat (e.1 * bs), s)
          /\ s = slice data (N.to_nat (cursor_before bs exts i))
                   (N.to_nat (cursor_before bs exts i) + N.to_nat (extent_bytes bs e))
          /\ length s = N.to_nat (extent_bytes bs e))
  /\ (forall (lzma bz2 : bytes -> option bytes) f_in payload i op compressed,
        replace_family (op_type op) ->
        block_size payload = VInt bs ->
        dst_extents op = typed_extents exts ->
        Forall (seekable bs) exts ->
        read_source f_in payload op = Ok compressed ->
        digest_mismatch op compressed = false ->
        decompress lzma bz2 compressed (op_type op) = Ok data ->
        extract_op lzma bz2 f_in payload i op f_out
        = (apply_writes f_out (extent_spans bs data exts), None))
  /\ ((0 < bs)%N -> (2 * bs <= OFFSET_MAX)%N -> length data = 2 * N.to_nat bs ->
      exists f,
        write_extents (VInt bs) data (typed_extents [(0, 1); (2, 1)]%N) 0 f_out = (f, None)
        /\ written f = written f_out
                       ++ [(0, take (N.to_nat bs) data);
                           (2 * N.to_nat bs, drop (N.to_nat bs) data)]
        /\ forall k, k < N.to_nat bs ->
             content f !! k = data !! k
             /\ content f !! (2 * N.to_nat bs + k) = data !! (N.to_nat bs + k)
             /\ content f !! (N.to_nat bs + k)
                = Some (default x00 (content f_out !! (N.to_nat bs + k)))).
Proof.
  split; [|split; [|split]].
  - intros Hseek. eexists. split; [by apply write_extents_spans|].
    split; [apply apply_writes_written | apply apply_writes_content].
  - intros i e Hi Hfit. eexists. split; [|split].
    + unfold extent_spans. rewrite list_lookup_imap, Hi. reflexivity.
    + unfold slice. f_equal. lia.
    + rewrite length_take, length_drop.
      generalize dependent (extent_bytes bs e). generalize (cursor_before bs exts i).
      intros cur sz Hfit. lia.
  - intros lzma bz2 f_in payload i op compressed. apply extract_op_writes.
  - intros Hbs Hmax Hlen. eexists. split.
    { apply write_extents_spans. unfold seekable.
      repeat constructor; cbn [fst]; [rewrite N.mul_0_l; apply N.le_0_l | exact Hmax]. }
    assert (Hspans : extent_spans bs data [(0, 1); (2, 1)]%N
                     = [(0, take (N.to_nat bs) data);
                        (2 * N.to_nat bs, drop (N.to_nat bs) data)]).
    { unfold extent_spans, extent_span, cursor_before.
      cbn [imap take total_extent_bytes foldr fst snd compose].
      unfold extent_bytes. cbn [fst snd].
      rewrite !N.mul_1_l, N.mul_0_l, !N.add_0_r, drop_0.
      replace (N.to_nat (2 * bs)) with (2 * N.to_nat bs) by lia.
      rewrite (take_ge (drop _ _)) by (rewrite length_drop; lia).
      reflexivity. }
    split; [rewrite apply_writes_written; by rewrite Hspans|].
    intros k Hk. rewrite apply_writes_content, Hspans. simpl.
    assert (Hd1 : take (N.to_nat bs) data <> []).
    { intros H. apply (f_equal length) in H. rewrite length_take in H. simpl in H. lia. }
    assert (Hd2 : drop (N.to_nat bs) data <> []).
    { intros H. apply (f_equal length) in H. rewrite length_drop in H. simpl in H. lia. }
    assert (Hl1 : length (take (N.to_nat bs) data) = N.to_nat bs)
      by (rewrite length_take; lia).
    assert (Hl2 : length (drop (N.to_nat bs) data) = N.to_nat bs)
      by (rewrite length_drop; lia).
    repeat split.
    + rewrite lookup_write_at by done. rewrite decide_True by lia.
      rewrite lookup_write_at by done. rewrite decide_False by lia.
      rewrite decide_True by lia. rewrite lookup_take_lt by lia.
      simpl. destruct (lookup_lt_is_Some_2 data k ltac:(lia)) as [x Hx].
      rewrite Nat.sub_0_r, Hx. reflexivity.
    + rewrite lookup_write_at by done. rewrite decide_False by lia.
      rewrite decide_True by lia. rewrite lookup_drop. f_equal. lia.
    + rewrite lookup_write_at by done. rewrite decide_True by lia.
      rewrite lookup_write_at by done. rewrite decide_False by lia.
      rewrite decide_False by lia. reflexivity.
Qed.

(** C2 at block size 4, on an empty file: block 0 and block 2 are written,
    the gap between them reads as zeros. *)
Lemma C2_witness :
  exists f,
    write_extents (VInt 4) two_blocks (typed_extents [(0, 1); (2, 1)]%N) 0 open_wb
    = (f, None)
    /\ written f = [(0, [x01; x02; x03; x04]); (8, [x05; x06; x07; x08])]
    /\ forall k, k < 4 ->
         content f !! k = two_blocks !! k
         /\ content f !! (8 + k) = two_blocks !! (4 + k)
         /\ content f !! (4 + k) = Some (default x00 (@nil byte !! (4 + k))).
Proof.
  refine (proj2 (proj2 (proj2 (C2_extents_partition_buffer 4 [] two_blocks open_wb)))
            eq_refl _ eq_refl).
  vm_compute. discriminate.
Defined.

(** ** The buffer's length is not checked *)

(** A Replace operation whose buffer has one byte for an extent of four
    completes, and [extract_partition] returns [True], whatever the
    codecs. *)
Lemma short_buffer_accepted (lzma bz2 : bytes -> option bytes) :
  extract_partition lzma bz2 golden_container golden_payload
    (mkPartition "boot" [short_op] (VInt 4))
  = (mkFile [xab] 1 [(0, [xab])], ReturnTrue).
Proof. vm_compute. reflexivity. Qed.

(** Against C3 as stated: the operation completes, with a buffer of one
    byte and extents of four bytes in total. *)
Lemma C3_counterexample :
  extract_partition rejecting_codec rejecting_codec golden_container golden_payload
    (mkPartition "boot" [short_op] (VInt 4))
  = (mkFile [xab] 1 [(0, [xab])], ReturnTrue)
  /\ read_source golden_container golden_payload short_op = Ok [xab]
  /\ total_extent_bytes 4 [(0, 1)%N] = 4%N.
Proof. vm_compute. repeat split. Qed.

(** C3, amended. With an int block size and int blocks, at offsets seek
    takes (up to [2^63 - 1]), a Replace, ReplaceXz or ReplaceBz operation
    whose source read, digest check and decompression pass completes
    whatever the length of the decompressed buffer: the step goes on to the
    next operation, having made one write per extent, and the bytes
    written, end to end, are the buffer cut at the total extent size: all
    of a shorter buffer, and the head of a longer one. *)
Theorem C3_buffer_length_not_checked
    (lzma bz2 : bytes -> option bytes) (f_in : bytes) (payload : Payload) (i : nat)
    (op : Operation) (f_out : wfile) (bs : N) (exts : list (N * N))
    (compressed data : bytes) :
  replace_family (op_type op) ->
  block_size payload = VInt bs ->
  dst_extents op = typed_extents exts ->
  Forall (seekable bs) exts ->
  read_source f_in payload op = Ok compressed ->
  digest_mismatch op compressed = false ->
  decompress lzma bz2 compressed (op_type op) = Ok data ->
  exists f,
    extract_op lzma bz2 f_in payload i op f_out = (f, None)
    /\ written f = written f_out ++ extent_spans bs data exts
    /\ concat (extent_spans bs data exts).*2
       = take (N.to_nat (total_extent_bytes bs exts)) data.
Proof.
  intros Hfam Hbs Hexts Hseek Hr Hd Hdec.
  exists (apply_writes f_out (extent_spans bs data exts)). split; [|split].
  - by eapply extract_op_writes.
  - apply apply_writes_written.
  - apply extent_spans_concat.
Qed.

(** C3 at the short operation: one byte written for an extent of four. *)
Lemma C3_witness :
  exists f,
    extract_op rejecting_codec rejecting_codec golden_container golden_payload 0
      short_op open_wb = (f, None)
    /\ written f = [] ++ extent_spans 4 [xab] [(0, 1)%N]
    /\ concat (extent_spans 4 [xab] [(0, 1)%N]).*2 = take 4 [xab].
Proof.
  refine (C3_buffer_length_not_checked rejecting_codec rejecting_codec golden_container
            golden_payload 0 short_op open_wb 4 [(0, 1)%N] [xab] [xab] _ _ _ _ _ _ _).
  - left. reflexivity.
  - reflexivity.
  - reflexivity.
  - constructor; [vm_compute; discriminate | constructor].
  - vm_compute. reflexivity.
  - reflexivity.
  - reflexivity.
Defined.

(** ** Partition names *)

(** Against C6 as stated: a container that declares two partitions with
    the same name loads, and the payload has both. *)
Lemma C6_counterexample :
  load_payload "payload.bin" twin_container = Ok twin_payload
  /\ name <$> partitions twin_payload = ["boot"; "boot"]%string.
Proof. vm_compute. split; reflexivity. Qed.

Lemma by_name_of_snoc (parts : list Partition) (p : Partition) :
  by_name_of (parts ++ [p]) = <[name p := p]> (by_name_of parts).
Proof. unfold by_name_of. by rewrite foldl_app. Qed.

(** The dict [by_name] maps a name to the last partition that has it. *)
Lemma by_name_of_lookup (parts : list Partition) (n : string) :
  by_name_of parts !! n = last (filter (fun p => name p = n) parts).
Proof.
  induction parts as [|p parts IH] using rev_ind; [reflexivity|].
  rewrite by_name_of_snoc, filter_app.
  destruct (decide (name p = n)) as [Heq|Hne].
  - rewrite filter_cons_True, filter_nil by done.
    rewrite last_snoc. subst n. apply lookup_insert_eq.
  - rewrite filter_cons_False, filter_nil, app_nil_r by done.
    by rewrite lookup_insert_ne.
Qed.

Lemma by_name_of_None (parts : list Partition) (n : string) :
  by_name_of parts !! n = None <-> n ∉ (name <$> parts).
Proof.
  rewrite by_name_of_lookup, last_None. split.
  - intros Hnil Hin. apply list_elem_of_fmap in Hin as (p & -> & Hp).
    by apply (filter_nil_not_elem_of _ _ p Hnil).
  - intros Hnot. destruct (filter _ parts) as [|p l] eqn:Hf; [reflexivity|].
    assert (Hp : p ∈ filter (fun p => name p = n) parts) by (rewrite Hf; left).
    apply list_elem_of_filter in Hp as [<- Hp]. destruct Hnot.
    by apply list_elem_of_fmap_2.
Qed.

(** The manifest loop, as a function of the fields: the block size is the
    last field 3, the partitions are the parses of the fields 13. *)
Lemma payload_loop (fields : list (N * value)) :
  forall p0 : Payload,
    for_each payload_body fields p0
    = parts ← parse_all (partition_values fields);
      Ok (mkPayload (path p0) (payload_data_offset p0)
            (last_block_size fields (block_size p0)) (partitions p0 ++ parts)).
Proof.
  unfold partition_values, last_block_size.
  induction fields as [|[f v] fields IH]; intros p0.
  - simpl. rewrite app_nil_r. by destruct p0.
  - cbn [for_each payload_body].
    destruct (N.eqb_spec f 3) as [->|H3].
    + cbn [mbind exc_bind]. rewrite IH. cbn [path payload_data_offset block_size partitions].
      rewrite (filter_cons_False (fun fv => fv.1 = 13%N)) by (simpl; discriminate).
      rewrite (filter_cons_True (fun fv => fv.1 = 3%N)) by done.
      destruct (parse_all _) as [parts|e]; [|reflexivity].
      cbn [mbind exc_bind]. do 2 f_equal.
      cbn [fmap list_fmap snd].
      destruct (filter (fun fv => fv.1 = 3%N) fields).*2 as [|x l] eqn:Hl; [reflexivity|].
      rewrite last_cons_cons. destruct (last (x :: l)) eqn:E; [reflexivity|].
      apply last_None in E. discriminate.
    + rewrite (filter_cons_False (fun fv => fv.1 = 3%N)) by done.
      destruct (N.eqb_spec f 13) as [->|H13].
      * rewrite (filter_cons_True (fun fv => fv.1 = 13%N)) by done.
        cbn [fmap list_fmap snd parse_all].
        destruct (parse_partition v) as [part|e]; [|reflexivity].
        cbn [mbind exc_bind]. rewrite IH.
        cbn [path payload_data_offset block_size partitions].
        destruct (parse_all _) as [parts|e]; [|reflexivity].
        cbn [mbind exc_bind]. by rewrite <- app_assoc.
      * rewrite (filter_cons_False (fun fv => fv.1 = 13%N)) by done.
        cbn [mbind exc_bind]. apply IH.
Qed.

(** The partitions of a loaded payload are the parses of the manifest's
    fields 13. *)
Lemma load_payload_partitions (p : string) (file : bytes) (payload : Payload) :
  load_payload p file = Ok payload ->
  parse_all (partition_values (iter_fields (manifest_of file)).1)
  = Ok (partitions payload).
Proof.
  unfold load_payload, manifest_of. intros H.
  destruct (decide _) as [_|]; [|discriminate].
  inv_bind_as H version Hversion. destruct (version =? 2)%N; [|discriminate].
  inv_bind_as H msize Hmsize. inv_bind_as H ssize Hssize.
  unfold unpack_be in Hmsize. destruct (decide _) in Hmsize; [|discriminate].
  injection Hmsize as <-.
  unfold for_fields in H. destruct (iter_fields _) as [fields ending].
  inv_bind_as H p1 Hloop. rewrite payload_loop in Hloop.
  inv_bind_as Hloop parts Hparts.
  cbn [fst]. rewrite Hparts. injection Hloop as <-.
  destruct ending; [discriminate|]. injection H as <-. reflexivity.
Qed.

(** C6, amended. Loading does not compare partition names: the manifest
    loop keeps one partition per field 13, in the manifest's order, whatever
    their names, and fails only when one of them fails to parse, so the
    partitions of a loaded payload are the parses of the manifest's fields
    13; the dict [cmd_extract] looks names up in maps a name to the last
    partition that has it, and knows a name exactly when some partition has
    it. *)
Theorem C6_duplicate_names_load (fields : list (N * value)) (p0 : Payload)
    (parts : list Partition) (n : string) :
  for_each payload_body fields p0
  = (ps ← parse_all (partition_values fields);
     Ok (mkPayload (path p0) (payload_data_offset p0)
           (last_block_size fields (block_size p0)) (partitions p0 ++ ps)))
  /\ (forall p file payload,
        load_payload p file = Ok payload ->
        parse_all (partition_values (iter_fields (manifest_of file)).1)
        = Ok (partitions payload))
  /\ by_name_of parts !! n = last (filter (fun p => name p = n) parts)
  /\ (by_name_of parts !! n = None <-> n ∉ (name <$> parts)).
Proof.
  split; [apply payload_loop|].
  split; [apply load_payload_partitions|].
  split; [apply by_name_of_lookup | apply by_name_of_None].
Qed.

(** C6 at the container with two partitions "boot": both are loaded, and
    the name resolves to the second. *)
Lemma C6_witness :
  parse_all (partition_values (iter_fields (manifest_of twin_container)).1)
  = Ok (partitions twin_payload)
  /\ by_name_of (partitions twin_payload) !! "boot"%string
     = last (filter (fun p => name p = "boot"%string) (partitions twin_payload)).
Proof.
  pose proof (C6_duplicate_names_load [] twin_payload (partitions twin_payload)
                "boot"%string) as (_ & Hload & Hlast & _).
  split; [|exact Hlast].
  apply (Hload "payload.bin"%string). vm_compute. reflexivity.
Defined.

(** ** Requested names are checked before anything is extracted *)

Lemma first_missing_Some (by_name : gmap string Partition) (names : list string)
    (x : string) :
  first_missing by_name names = Some x -> x ∈ names /\ by_name !! x = None.
Proof.
  induction names as [|n names IH]; simpl; [discriminate|].
  destruct (by_name !! n) eqn:Hn.
  - intros H. destruct (IH H). split; [by right | done].
  - intros [= <-]. split; [by left | done].
Qed.

Lemma first_missing_exists (by_name : gmap string Partition) (names : list string)
    (n : string) :
  n ∈ names -> by_name !! n = None -> exists x, first_missing by_name names = Some x.
Proof.
  induction names as [|n' names IH]; intros Hin Hn.
  - by apply elem_of_nil in Hin.
  - simpl. destruct (by_name !! n') eqn:Hn'; [|by eexists].
    apply elem_of_cons in Hin as [->|Hin]; [congruence | by apply IH].
Qed.

#[global] Instance str_le_total : Total str_le.
Proof. intros s1 s2. apply String.leb_total. Qed.

(** The names in the error message are the names the payload has, sorted. *)
Lemma sorted_names_elem (parts : list Partition) (x : string) :
  x ∈ sorted_names (by_name_of parts) <-> x ∈ name <$> parts.
Proof.
  unfold sorted_names. rewrite merge_sort_Permutation.
  rewrite list_elem_of_fmap. split.
  - intros ([k p] & -> & Hkp). apply elem_of_map_to_list in Hkp. simpl.
    destruct (decide (k ∈ name <$> parts)) as [|Hnot]; [done|].
    apply by_name_of_None in Hnot. congruence.
  - intros Hin. destruct (by_name_of parts !! x) as [p|] eqn:Hx.
    + exists (x, p). split; [done | by apply elem_of_map_to_list].
    + by apply by_name_of_None in Hx.
Qed.

(** C7. When a requested name is the name of no partition, [cmd_extract]
    returns [False] from its first loop: the directory tree is as it was (no
    [mkdir], no image file opened, no partition extracted, not even for the
    requested names that exist), and the error names a requested name that
    is absent together with the sorted list of the names the payload
    has. *)
Theorem C7_unknown_name_extracts_nothing
    (lzma bz2 : bytes -> option bytes) (format_size : value -> exc string)
    (f_in : bytes) (payload : Payload) (names : list string) (out : outdir)
    (n : string) :
  n ∈ names -> n ∉ (name <$> partitions payload) ->
  exists m,
    cmd_extract lzma bz2 format_size f_in payload names out
    = (out, NotFound m (sorted_names (by_name_of (partitions payload))))
    /\ m ∈ names /\ (m ∉ name <$> partitions payload)
    /\ Sorted str_le (sorted_names (by_name_of (partitions payload)))
    /\ forall x, x ∈ sorted_names (by_name_of (partitions payload))
                 <-> x ∈ name <$> partitions payload.
Proof.
  intros Hin Hnot. apply by_name_of_None in Hnot.
  destruct (first_missing_exists _ _ _ Hin Hnot) as [m Hm].
  exists m. unfold cmd_extract. rewrite Hm.
  apply first_missing_Some in Hm as [Hm1 Hm2].
  split; [reflexivity|]. split; [exact Hm1|].
  split; [by apply by_name_of_None|].
  split; [apply Sorted_merge_sort, _ | apply sorted_names_elem].
Qed.

(** C7 at the golden payload, asked for "boot" and "recovery". *)
Lemma C7_witness :
  exists m,
    cmd_extract rejecting_codec rejecting_codec (fun _ => Ok ""%string)
      golden_container golden_payload ["boot"; "recovery"]%string (mkOutdir false ∅)
    = (mkOutdir false ∅,
       NotFound m (sorted_names (by_name_of (partitions golden_payload))))
    /\ m ∈ ["boot"; "recovery"]%string /\ (m ∉ name <$> partitions golden_payload)
    /\ Sorted str_le (sorted_names (by_name_of (partitions golden_payload)))
    /\ forall x, x ∈ sorted_names (by_name_of (partitions golden_payload))
                 <-> x ∈ name <$> partitions golden_payload.
Proof.
  apply (C7_unknown_name_extracts_nothing _ _ _ _ _ _ _ "recovery"%string).
  - right. left.
  - simpl. intros H. apply list_elem_of_singleton in H. discriminate.
Defined.

Example unknown_name_run :
  cmd_extract rejecting_codec rejecting_codec (fun _ => Ok ""%string)
    golden_container golden_payload ["boot"; "recovery"]%string (mkOutdir false ∅)
  = (mkOutdir false ∅, NotFound "recovery" ["boot"%string]).
Proof. vm_compute. reflexivity. Qed.

(** ** Varint round trip *)

Lemma byte_val_of_N (n : N) : byte_val (byte_of_N n) = (n mod 256)%N.
Proof.
  unfold byte_val, byte_of_N.
  destruct (Byte.of_N (n mod 256)) as [b|] eqn:E.
  - by apply Byte.to_of_N.
  - apply Byte.of_N_None_iff in E.
    pose proof (N.mod_upper_bound n 256 ltac:(lia)). lia.
Qed.

Lemma lor_shiftl_disjoint (acc x shift : N) :
  (acc < 2 ^ shift)%N -> N.lor acc (N.shiftl x shift) = (acc + x * 2 ^ shift)%N.
Proof.
  intros Hacc. rewrite N.shiftl_mul_pow2.
  assert (Hland : N.land acc (x * 2 ^ shift) = 0%N).
  { apply N.bits_inj. intros i. rewrite N.land_spec, N.bits_0.
    destruct (N.lt_ge_cases i shift) as [Hlt|Hge].
    - rewrite N.mul_pow2_bits_low by exact Hlt. apply andb_false_r.
    - rewrite <- (N.mod_small acc (2 ^ shift)) by exact Hacc.
      by rewrite N.mod_pow2_bits_high. }
  rewrite <- N.lxor_lor by exact Hland.
  symmetry. by apply N.add_nocarry_lxor.
Qed.

Lemma land_127 (x : N) : N.land x 0x7F = (x mod 128)%N.
Proof. change 0x7F%N with (N.ones 7). by rewrite N.land_ones. Qed.

(** Reading back the groups of [k], from an accumulator that holds the
    groups read so far. *)
Lemma read_varint_loop_encode (fuel : nat) :
  forall (k acc shift : N) (rest : bytes) (pos : nat),
    (k < 2 ^ (7 * N.of_nat (S fuel)))%N -> (acc < 2 ^ shift)%N ->
    read_varint_loop (encode_varint_groups fuel k ++ rest) pos acc shift
    = Ok ((acc + k * 2 ^ shift)%N, pos + length (encode_varint_groups fuel k)).
Proof.
  assert (Hlast : forall k acc shift rest pos,
             (k < 128)%N -> (acc < 2 ^ shift)%N ->
             read_varint_loop ([byte_of_N k] ++ rest) pos acc shift
             = Ok ((acc + k * 2 ^ shift)%N, pos + 1)).
  { intros k acc shift rest pos Hk Hacc. simpl.
    rewrite byte_val_of_N, N.mod_small by lia.
    rewrite land_127, N.mod_small by lia.
    destruct (N.ltb_spec k 128); [|lia].
    rewrite lor_shiftl_disjoint by exact Hacc. do 2 f_equal. lia. }
  induction fuel as [|fuel IH]; intros k acc shift rest pos Hk Hacc.
  - apply Hlast; [|exact Hacc]. exact Hk.
  - cbn [encode_varint_groups]. destruct (N.ltb_spec k 128) as [Hsmall|Hbig].
    + by apply Hlast.
    + pose proof (N.mod_upper_bound k 128 ltac:(lia)) as Hmod.
      pose proof (N.div_mod k 128 ltac:(lia)) as Hdm.
      cbn [app read_varint_loop length].
      set (r := (k mod 128)%N) in *. set (q := (k / 128)%N) in *. clearbody r q.
      rewrite byte_val_of_N, (N.mod_small (128 + r)) by lia.
      rewrite land_127.
      replace ((128 + r) mod 128)%N with r
        by (rewrite N.Div0.add_mod, N.Div0.mod_same, N.add_0_l, N.Div0.mod_mod;
            symmetry; by apply N.mod_small).
      destruct (N.ltb_spec (128 + r) 128); [lia|].
      rewrite lor_shiftl_disjoint by exact Hacc.
      assert (Hpow : (2 ^ (shift + 7) = 2 ^ shift * 128)%N)
        by (rewrite N.pow_add_r; reflexivity).
      replace (7 * N.of_nat (S (S fuel)))%N with (7 + 7 * N.of_nat (S fuel))%N in Hk by lia.
      rewrite N.pow_add_r in Hk. change (2 ^ 7)%N with 128%N in Hk.
      rewrite IH.
      * f_equal. f_equal; [|lia]. rewrite Hpow, Hdm. ring.
      * lia.
      * rewrite Hpow. nia.
Qed.

(** Round trip: [read_varint] reads [encode_varint k] back as [k], wherever
    it stands in the buffer. *)
Lemma read_varint_encode (pre rest : bytes) (k : N) :
  read_varint (pre ++ encode_varint k ++ rest) (length pre)
  = Ok (k, length pre + length (encode_varint k)).
Proof.
  unfold read_varint, encode_varint. rewrite drop_app_length.
  rewrite read_varint_loop_encode.
  - f_equal. f_equal. lia.
  - eapply N.lt_le_trans; [apply N.size_gt|].
    apply N.pow_le_mono_r; lia.
  - simpl. lia.
Qed.

Lemma encode_varint_nonempty (k : N) : 0 < length (encode_varint k).
Proof.
  unfold encode_varint. destruct (N.to_nat (N.size k)); simpl;
    [|destruct (k <? 128)%N]; simpl; lia.
Qed.

(** Round trip of a varint field, wherever it stands in the buffer. *)
Lemma decode_field_varint (pre rest : bytes) (f k : N) :
  decode_field (pre ++ field_varint f k ++ rest) (length pre)
  = Ok (f, VInt k, length pre + length (field_varint f k)).
Proof.
  unfold decode_field, field_varint.
  rewrite <- (app_assoc (encode_varint (f * 8))), read_varint_encode.
  cbn [mbind exc_bind].
  assert (Hwire : N.land (f * 8) 7 = 0%N).
  { change 7%N with (N.ones 3). rewrite N.land_ones. apply N.Div0.mod_mul. }
  assert (Hnum : N.shiftr (f * 8) 3 = f).
  { rewrite N.shiftr_div_pow2. apply N.div_mul. discriminate. }
  rewrite Hwire, Hnum. cbn [N.eqb].
  rewrite (app_assoc pre), <- length_app, read_varint_encode.
  cbn [mbind exc_bind]. rewrite !length_app. do 2 f_equal. lia.
Qed.

Lemma iter_fields_from_at_end (fuel : nat) (data : bytes) (pos : nat) :
  length data <= pos -> iter_fields_from fuel data pos = ([], StopIteration).
Proof. intros H. destruct fuel; simpl; by rewrite decide_False by lia. Qed.

(** A message of one varint field decodes to that field. *)
Lemma iter_fields_single_varint (f k : N) :
  iter_fields (field_varint f k) = ([(f, VInt k)], None).
Proof.
  pose proof (decode_field_varint [] [] f k) as Hd.
  rewrite app_nil_r in Hd. simpl in Hd.
  assert (Hlen : 0 < length (field_varint f k)).
  { unfold field_varint. rewrite length_app.
    pose proof (encode_varint_nonempty k). lia. }
  unfold iter_fields. destruct (length (field_varint f k)) as [|n] eqn:E; [lia|].
  cbn [iter_fields_from]. rewrite E, decide_True by lia. rewrite Hd.
  rewrite iter_fields_from_at_end by lia. reflexivity.
Qed.

(** ** Unknown kinds are kept until they are executed *)

Lemma list_rows_retag (format_size : value -> exc string) (retag : Operation -> value)
    (parts : list Partition) :
  list_rows format_size (retag_partition retag <$> parts) = list_rows format_size parts.
Proof.
  induction parts as [|p parts IH]; [reflexivity|].
  cbn [fmap list_fmap list_rows retag_partition psize name operations].
  fold (fmap (M := list) (retag_partition retag) parts).
  rewrite IH, length_fmap. reflexivity.
Qed.

(** An operation of a kind the executor has no branch for ends the loop
    with a failure and leaves the destination as it was. *)
Lemma extract_op_unimplemented (lzma bz2 : bytes -> option bytes) (f_in : bytes)
    (payload : Payload) (i : nat) (op : Operation) (f_out : wfile) :
  unimplemented (op_type op) = true ->
  exists v, extract_op lzma bz2 f_in payload i op f_out = (f_out, Some v)
            /\ v <> ReturnTrue.
Proof.
  intros H. destruct (read_source f_in payload op) as [compressed|e] eqn:Hr.
  - eexists. split; [by apply extract_op_no_branch|]. discriminate.
  - destruct (unimplemented_branch _ H) as (Hz & Hi & _).
    exists (Raised e). split; [|discriminate].
    unfold extract_op. by rewrite Hz, Hi, Hr.
Qed.

(** C8. Parsing keeps the kind tag as it is, whatever its value: the
    operation message that carries the tag [k] parses to an operation of
    kind [k], and the parse loop stores any field 1 without looking at it
    and goes on with the fields after it.
    Listing does not depend on the kinds: it prints the same for a payload
    and for that payload with its operations' kinds replaced at will.
    Executing an operation of a kind with no branch ends the extraction
    with a failure and writes nothing. So the container whose operation has
    the unlisted tag 99 loads, lists, and fails only when extracted, with
    "Unsupported: 99". *)
Theorem C8_unknown_kind_is_kept
    (lzma bz2 : bytes -> option bytes) (format_size : value -> exc string)
    (k : N) (retag : Operation -> value) (payload : Payload) (f_in : bytes)
    (i : nat) (op : Operation) (f_out : wfile) :
  parse_operation (VBytes (field_varint 1 k))
  = Ok (mkOperation (VInt k) (VInt 0) (VInt 0) [] (VBytes []))
  /\ (forall op0 v fields,
        for_each operation_body ((1%N, v) :: fields) op0
        = for_each operation_body fields
            (mkOperation v (data_offset op0) (data_length op0) (dst_extents op0)
               (data_sha256 op0)))
  /\ cmd_list format_size (with_kinds retag payload) = cmd_list format_size payload
  /\ (unimplemented (op_type op) = true ->
      exists v, extract_op lzma bz2 f_in payload i op f_out = (f_out, Some v)
                /\ v <> ReturnTrue)
  /\ OP_NAMES 99 = None /\ unimplemented (VInt 99) = true
  /\ load_payload "payload.bin" odd_container = Ok odd_payload
  /\ (forall s, format_size (VInt 8) = Ok s ->
        cmd_list format_size odd_payload
        = Ok ("payload.bin"%string, VInt 4, 1, [("boot"%string, s, 1)]))
  /\ extract_partition lzma bz2 odd_container odd_payload
       (mkPartition "boot" [odd_op] (VInt 8))
     = (open_wb, ReturnFalse (DecompressFailed (Unsupported (KRaw (VInt 99))))).
Proof.
  split.
  { unfold parse_operation, for_fields. by rewrite iter_fields_single_varint. }
  split; [reflexivity|].
  split.
  { unfold cmd_list, with_kinds. cbn [partitions path block_size].
    by rewrite list_rows_retag, length_fmap. }
  split; [apply extract_op_unimplemented|].
  split; [reflexivity|]. split; [reflexivity|].
  split; [vm_compute; reflexivity|].
  split.
  { intros s Hs. unfold cmd_list, odd_payload. cbn [partitions list_rows psize].
    rewrite Hs. reflexivity. }
  vm_compute. reflexivity.
Qed.

(** C8 at the kind tag 99 and the container that carries it. *)
Lemma C8_witness :
  parse_operation (VBytes (field_varint 1 99))
  = Ok (mkOperation (VInt 99) (VInt 0) (VInt 0) [] (VBytes []))
  /\ (exists v, extract_op rejecting_codec rejecting_codec odd_container odd_payload 0
                  odd_op open_wb = (open_wb, Some v)
                /\ v <> ReturnTrue).
Proof.
  pose proof (C8_unknown_kind_is_kept rejecting_codec rejecting_codec
                (fun _ => Ok ""%string) 99 (fun _ => VInt 0) odd_payload odd_container
                0 odd_op open_wb) as (Hparse & _ & _ & Hexec & _).
  split; [exact Hparse | exact (Hexec eq_refl)].
Defined.

(** * Round trips, rejected inputs and whole runs *)

(** ** The wire decoder on encoded fields *)

(** The value of a varint is the 7-bit groups of the bytes consumed. *)
Lemma read_varint_loop_value (rest : bytes) :
  forall (pos : nat) (acc shift v : N) (pos' : nat),
    (acc < 2 ^ shift)%N ->
    read_varint_loop rest pos acc shift = Ok (v, pos') ->
    v = (acc + 2 ^ shift * groups_value (take (pos' - pos) rest))%N.
Proof.
  induction rest as [|b rest IH]; intros pos acc shift v pos' Hacc H; [discriminate|].
  cbn [read_varint_loop] in H.
  rewrite lor_shiftl_disjoint in H by exact Hacc.
  assert (Hg : (N.land (byte_val b) 0x7F < 128)%N).
  { rewrite land_127. by apply N.mod_upper_bound. }
  destruct (byte_val b <? 128)%N.
  - injection H as <- <-. replace (S pos - pos) with 1 by lia.
    rewrite firstn_cons, take_0. cbn [groups_value].
    generalize (2 ^ shift)%N. intros P. ring.
  - pose proof (read_varint_loop_advance _ _ _ _ _ _ H) as [Hlt _].
    apply IH in H.
    + replace (pos' - pos) with (S (pos' - S pos)) by lia.
      rewrite firstn_cons. cbn [groups_value]. rewrite H, N.pow_add_r.
      change (2 ^ 7)%N with 128%N. generalize (2 ^ shift)%N. intros P. ring.
    + rewrite N.pow_add_r. change (2 ^ 7)%N with 128%N.
      generalize dependent (N.land (byte_val b) 0x7F). intros g _ Hg. nia.
Qed.

Lemma read_varint_loop_Ok_inv (rest : bytes) :
  forall (pos : nat) (acc shift v : N) (pos' : nat),
    read_varint_loop rest pos acc shift = Ok (v, pos') ->
    exists n, pos' = pos + S n
      /\ (exists b, rest !! n = Some b /\ (byte_val b < 0x80)%N)
      /\ forall j, j < n -> exists b, rest !! j = Some b /\ (0x80 <= byte_val b)%N.
Proof.
  induction rest as [|b rest IH]; intros pos acc shift v pos' H; [discriminate|].
  cbn [read_varint_loop] in H.
  destruct (N.ltb_spec (byte_val b) 128) as [Hlt|Hge].
  - injection H as _ <-. exists 0. split; [lia|]. split; [by exists b|].
    intros j Hj. lia.
  - apply IH in H as (n & -> & Hterm & Hcont).
    exists (S n). split; [lia|]. split; [exact Hterm|].
    intros [|j] Hj; [by exists b | apply Hcont; lia].
Qed.

Lemma read_varint_loop_Raise_inv (rest : bytes) :
  forall (pos : nat) (acc shift : N) (e : exn),
    read_varint_loop rest pos acc shift = Raise e ->
    e = TruncatedVarint /\ Forall (fun b => (0x80 <= byte_val b)%N) rest.
Proof.
  induction rest as [|b rest IH]; intros pos acc shift e H.
  - injection H as <-. split; [reflexivity | constructor].
  - cbn [read_varint_loop] in H.
    destruct (N.ltb_spec (byte_val b) 128) as [Hlt|Hge]; [discriminate|].
    apply IH in H as [-> Hall]. split; [reflexivity | by constructor].
Qed.

(** X1. [read_varint] reads back what a writer emits: wherever the varint
    of [k] stands in a buffer, whatever comes before and after it, decoding
    at its first byte returns [k] and the cursor just past its last byte.
    There is no bound on [k]. *)
Theorem X1_read_varint_round_trip (pre rest : bytes) (k : N) :
  read_varint (pre ++ encode_varint k ++ rest) (length pre)
  = Ok (k, length pre + length (encode_varint k)).
Proof. apply read_varint_encode. Qed.

(** X2. [read_varint] raises exactly when no byte from the cursor on has
    its high bit clear: the buffer ends inside the varint, or the cursor is
    at the end or past it. It raises nothing but "Truncated varint". When it
    returns, the cursor has moved forward and is still within the buffer,
    the last byte read has its high bit clear, and every byte read before
    it has it set. *)
Theorem X2_read_varint_raises_iff (data : bytes) (pos : nat) :
  (read_varint data pos = Raise TruncatedVarint
   <-> Forall (fun b => (0x80 <= byte_val b)%N) (drop pos data))
  /\ (forall e, read_varint data pos = Raise e -> e = TruncatedVarint)
  /\ (forall v pos',
        read_varint data pos = Ok (v, pos') ->
        pos < pos' <= length data
        /\ (exists b, data !! (pos' - 1) = Some b /\ (byte_val b < 0x80)%N)
        /\ forall j, pos <= j < pos' - 1 ->
             exists b, data !! j = Some b /\ (0x80 <= byte_val b)%N).
Proof.
  unfold read_varint. split; [split|split].
  - intros H. by apply read_varint_loop_Raise_inv in H as [_ H].
  - apply read_varint_loop_truncated.
  - intros e H. by apply read_varint_loop_Raise_inv in H as [H _].
  - intros v pos' H.
    apply read_varint_loop_Ok_inv in H as (n & -> & (b & Hb & Hlt) & Hcont).
    rewrite lookup_drop in Hb.
    split; [|split].
    + apply lookup_lt_Some in Hb. lia.
    + exists b. split; [|exact Hlt]. rewrite <- Hb. f_equal. lia.
    + intros j Hj. destruct (Hcont (j - pos) ltac:(lia)) as (c & Hc & Hge).
      rewrite lookup_drop in Hc. exists c. split; [|exact Hge].
      rewrite <- Hc. f_equal. lia.
Qed.

(** X3. The value [read_varint] returns is made of the low seven bits of
    each byte it read, the first byte lowest: nothing is cut at 64 bits,
    and a varint of any length is taken. *)
Theorem X3_read_varint_value (data : bytes) (pos : nat) (v : N) (pos' : nat) :
  read_varint data pos = Ok (v, pos') ->
  v = groups_value (slice data pos pos').
Proof.
  unfold read_varint, slice. intros H.
  apply read_varint_loop_value in H; [|simpl; lia].
  rewrite H. simpl. by destruct (groups_value _).
Qed.

(** X3 at the two bytes 0x96 0x01, the varint of 150. *)
Lemma X3_witness : 150%N = groups_value (slice [x96; x01] 0 2).
Proof. exact (X3_read_varint_value [x96; x01] 0 150 2 eq_refl). Defined.

(** A tag splits into its field number and wire type. *)
Lemma tag_split (f w : N) :
  (w < 8)%N -> N.shiftr (f * 8 + w) 3 = f /\ N.land (f * 8 + w) 7 = w.
Proof.
  intros Hw. split.
  - rewrite N.shiftr_div_pow2. change (2 ^ 3)%N with 8%N.
    rewrite N.div_add_l by discriminate. rewrite N.div_small by exact Hw. lia.
  - change 7%N with (N.ones 3). rewrite N.land_ones. change (2 ^ 3)%N with 8%N.
    rewrite N.add_comm, N.Div0.mod_add. by apply N.mod_small.
Qed.

(** The cursor a decoder starts from does not matter beyond the bytes from
    it on: a prefix shifts every cursor and nothing else. *)
Lemma read_varint_loop_shift (rest : bytes) (a : nat) :
  forall (pos : nat) (acc shift : N),
    read_varint_loop rest (a + pos) acc shift
    = '(v, p) ← read_varint_loop rest pos acc shift; Ok (v, a + p).
Proof.
  induction rest as [|b rest IH]; intros pos acc shift; [reflexivity|].
  cbn [read_varint_loop]. destruct (byte_val b <? 128)%N.
  - cbn. f_equal. f_equal. lia.
  - rewrite <- IH. f_equal. lia.
Qed.

Lemma read_varint_shift (pre data : bytes) (pos : nat) :
  read_varint (pre ++ data) (length pre + pos)
  = '(v, p) ← read_varint data pos; Ok (v, length pre + p).
Proof.
  unfold read_varint. rewrite drop_app_add. apply read_varint_loop_shift.
Qed.

Lemma slice_shift {A : Type} (pre data : list A) (a b : nat) :
  slice (pre ++ data) (length pre + a) (length pre + b) = slice data a b.
Proof. unfold slice. rewrite drop_app_add. f_equal. lia. Qed.

Lemma decode_field_shift (pre data : bytes) (pos : nat) :
  decode_field (pre ++ data) (length pre + pos)
  = '(f, v, p) ← decode_field data pos; Ok (f, v, length pre + p).
Proof.
  unfold decode_field. rewrite read_varint_shift.
  destruct (read_varint data pos) as [[tag p]|e]; [|reflexivity]. cbn [mbind exc_bind].
  destruct (N.land tag 7 =? 0)%N.
  { rewrite read_varint_shift. by destruct (read_varint data p) as [[v p']|e]. }
  destruct (N.land tag 7 =? 2)%N.
  { rewrite read_varint_shift. destruct (read_varint data p) as [[len p']|e]; [|reflexivity].
    cbn [mbind exc_bind]. rewrite <- Nat.add_assoc, slice_shift. repeat f_equal; lia. }
  destruct (N.land tag 7 =? 1)%N.
  { rewrite <- Nat.add_assoc, slice_shift.
    destruct (unpack_le 8 _); cbn [mbind exc_bind]; [|reflexivity]. repeat f_equal; lia. }
  destruct (N.land tag 7 =? 5)%N.
  { rewrite <- Nat.add_assoc, slice_shift.
    destruct (unpack_le 4 _); cbn [mbind exc_bind]; [|reflexivity]. repeat f_equal; lia. }
  reflexivity.
Qed.

Lemma iter_fields_from_shift (pre data : bytes) :
  forall (fuel pos : nat),
    iter_fields_from fuel (pre ++ data) (length pre + pos)
    = iter_fields_from fuel data pos.
Proof.
  induction fuel as [|fuel IH]; intros pos; cbn [iter_fields_from];
    rewrite length_app; destruct (decide (pos < length data)).
  - by rewrite decide_True by lia.
  - by rewrite decide_False by lia.
  - rewrite decide_True by lia. rewrite decode_field_shift.
    destruct (decode_field data pos) as [[[f v] p]|e]; [|reflexivity].
    cbn [mbind exc_bind]. by rewrite IH.
  - by rewrite decide_False by lia.
Qed.

(** Decoding a length-delimited field, wherever it stands. *)
Lemma decode_field_bytes (pre rest : bytes) (f : N) (b : bytes) :
  decode_field (pre ++ field_bytes f b ++ rest) (length pre)
  = Ok (f, VBytes b, length pre + length (field_bytes f b)).
Proof.
  unfold decode_field, field_bytes.
  rewrite <- !app_assoc, read_varint_encode.
  cbn [mbind exc_bind].
  destruct (tag_split f 2 ltac:(lia)) as [-> ->]. cbn [N.eqb Pos.eqb].
  rewrite (app_assoc pre), <- length_app, read_varint_encode.
  cbn [mbind exc_bind]. rewrite Nat2N.id.
  rewrite (app_assoc (pre ++ _)), <- length_app.
  unfold slice. rewrite drop_app_length.
  replace (length ((pre ++ encode_varint (f * 8 + 2)) ++ encode_varint (N.of_nat (length b)))
           + length b
           - length ((pre ++ encode_varint (f * 8 + 2)) ++ encode_varint (N.of_nat (length b))))
    with (length b) by lia.
  rewrite take_app_length. rewrite !length_app. do 2 f_equal. lia.
Qed.

Lemma decode_field_encoded (pre rest : bytes) (fv : N * value) :
  decode_field (pre ++ encode_field fv ++ rest) (length pre)
  = Ok (fv.1, fv.2, length pre + length (encode_field fv)).
Proof.
  destruct fv as [f [k|b]]; unfold encode_field; cbn [fst snd].
  - apply decode_field_varint.
  - apply decode_field_bytes.
Qed.

Lemma encode_field_nonempty (fv : N * value) : 0 < length (encode_field fv).
Proof.
  destruct fv as [f [k|b]]; unfold encode_field, field_varint, field_bytes; cbn [fst snd];
    rewrite !length_app; pose proof (encode_varint_nonempty (f * 8));
    pose proof (encode_varint_nonempty (f * 8 + 2)); lia.
Qed.

(** A buffer that starts with encoded fields decodes to those fields, then
    goes on as the rest of the buffer decodes by itself. *)
Lemma iter_fields_from_encoded (fields : list (N * value)) (tail : bytes) :
  forall (pre : bytes) (fuel : nat),
    iter_fields_from (length fields + fuel) (pre ++ encode_fields fields ++ tail)
      (length pre)
    = ((fields ++ (iter_fields_from fuel tail 0).1), (iter_fields_from fuel tail 0).2).
Proof.
  induction fields as [|fv fields IH]; intros pre fuel.
  - cbn [encode_fields fmap list_fmap concat length app].
    rewrite <- (iter_fields_from_shift pre tail fuel 0), Nat.add_0_r.
    change (0 + fuel) with fuel.
    by destruct (iter_fields_from fuel (pre ++ tail) (length pre)).
  - cbn [encode_fields fmap list_fmap concat length Nat.add iter_fields_from].
    fold (encode_fields fields). rewrite <- app_assoc.
    pose proof (encode_field_nonempty fv).
    rewrite decide_True by (rewrite !length_app; lia).
    rewrite decode_field_encoded. destruct fv as [f v]. cbn [fst snd].
    rewrite (app_assoc pre), <- length_app, IH.
    reflexivity.
Qed.

Lemma encode_fields_length (fields : list (N * value)) :
  length fields <= length (encode_fields fields).
Proof.
  induction fields as [|fv fields IH]; [simpl; lia|].
  cbn [encode_fields fmap list_fmap concat]. fold (encode_fields fields).
  rewrite length_app. pose proof (encode_field_nonempty fv). simpl. lia.
Qed.

Lemma iter_fields_ending (data : bytes) :
  iter_fields data
  = ((iter_fields_from (length data) data 0).1,
     match (iter_fields_from (length data) data 0).2 with
     | Stopped e => Some e
     | _ => None
     end).
Proof. unfold iter_fields. by destruct (iter_fields_from _ _ _) as [fs [|e|]]. Qed.

(** A run that ends by itself is the same with more fuel. *)
Lemma iter_fields_from_more_fuel (data : bytes) :
  forall (fuel fuel' pos : nat),
    (iter_fields_from fuel data pos).2 <> Exhausted -> fuel <= fuel' ->
    iter_fields_from fuel' data pos = iter_fields_from fuel data pos.
Proof.
  induction fuel as [|fuel IH]; intros fuel' pos Hend Hle.
  - cbn [iter_fields_from] in *. destruct (decide (pos < length data)); [done|].
    by rewrite iter_fields_from_at_end by lia.
  - destruct fuel' as [|fuel']; [lia|]. cbn [iter_fields_from] in *.
    destruct (decide (pos < length data)); [|reflexivity].
    destruct (decode_field data pos) as [[[f v] p]|e]; [|reflexivity].
    rewrite (IH fuel' p); [reflexivity| |lia].
    by destruct (iter_fields_from fuel data p).
Qed.

Lemma iter_fields_encoded (fields : list (N * value)) (tail : bytes) :
  iter_fields (encode_fields fields ++ tail)
  = (fields ++ (iter_fields tail).1, (iter_fields tail).2).
Proof.
  rewrite !iter_fields_ending.
  pose proof (encode_fields_length fields) as Hlen.
  pose proof (iter_fields_from_encoded fields tail [] (length tail)) as H.
  cbn [app length] in H.
  destruct (iter_fields_from_bounded tail (length tail) 0 ltac:(lia))
    as (fs & _ & Hend).
  rewrite (iter_fields_from_more_fuel _ (length fields + length tail)).
  - rewrite H. reflexivity.
  - rewrite H. cbn [snd]. by destruct Hend as [-> | [e ->]].
  - rewrite length_app. lia.
Qed.

(** X4. [iter_fields] yields the fields of an encoded sequence in their
    order, with their numbers and values, and ends without error. On such a
    sequence followed by more bytes it yields the sequence's fields and then
    goes on as it does on those bytes alone: the same further fields, the
    same ending. *)
Theorem X4_iter_fields_round_trip (fields : list (N * value)) (tail : bytes) :
  iter_fields (encode_fields fields) = (fields, None)
  /\ iter_fields (encode_fields fields ++ tail)
     = (fields ++ (iter_fields tail).1, (iter_fields tail).2).
Proof.
  split; [|apply iter_fields_encoded].
  rewrite <- (app_nil_r (encode_fields fields)), iter_fields_encoded.
  by rewrite app_nil_r.
Qed.

(** Fixed-width values, low byte first. *)
Lemma le_bytes_length (width : nat) : forall v, length (le_bytes width v) = width.
Proof. induction width as [|w IH]; intros v; simpl; [reflexivity | by rewrite IH]. Qed.

Lemma le_value_le_bytes (width : nat) :
  forall v, le_value (le_bytes width v) = (v mod 2 ^ (8 * N.of_nat width))%N.
Proof.
  induction width as [|w IH]; intros v.
  - simpl. by rewrite N.mod_1_r.
  - cbn [le_bytes le_value]. rewrite byte_val_of_N, IH.
    replace (8 * N.of_nat (S w))%N with (8 + 8 * N.of_nat w)%N by lia.
    rewrite N.pow_add_r. change (2 ^ 8)%N with 256%N.
    by rewrite N.Div0.mod_mul_r.
Qed.

(** The turn of the decoder at a tag, once the tag is read. *)
Lemma decode_field_at_tag (pre rest : bytes) (f w : N) :
  (w < 8)%N ->
  decode_field (pre ++ encode_varint (f * 8 + w) ++ rest) (length pre)
  = let data := pre ++ encode_varint (f * 8 + w) ++ rest in
    let pos := length pre + length (encode_varint (f * 8 + w)) in
    if (w =? 0)%N then '(v, pos) ← read_varint data pos; Ok (f, VInt v, pos)
    else if (w =? 2)%N then
      '(len, pos) ← read_varint data pos;
      Ok (f, VBytes (slice data pos (pos + N.to_nat len)), pos + N.to_nat len)
    else if (w =? 1)%N then
      v ← unpack_le 8 (slice data pos (pos + 8)); Ok (f, VInt v, pos + 8)
    else if (w =? 5)%N then
      v ← unpack_le 4 (slice data pos (pos + 4)); Ok (f, VInt v, pos + 4)
    else Raise (UnknownWireType w).
Proof.
  intros Hw. unfold decode_field. rewrite read_varint_encode. cbn [mbind exc_bind].
  by destruct (tag_split f w Hw) as [-> ->].
Qed.

Lemma decode_field_fixed (pre rest : bytes) (f w : N) (width : nat) (v : N) :
  (w = 1%N /\ width = 8) \/ (w = 5%N /\ width = 4) ->
  decode_field (pre ++ field_fixed f w width v ++ rest) (length pre)
  = Ok (f, VInt (v mod 2 ^ (8 * N.of_nat width)),
        length pre + length (field_fixed f w width v)).
Proof.
  intros Hw. unfold field_fixed. rewrite <- app_assoc.
  rewrite decode_field_at_tag by (destruct Hw as [[-> _]|[-> _]]; lia).
  cbv zeta.
  assert (Hslice : slice (pre ++ encode_varint (f * 8 + w) ++ le_bytes width v ++ rest)
                     (length pre + length (encode_varint (f * 8 + w)))
                     (length pre + length (encode_varint (f * 8 + w)) + width)
                   = le_bytes width v).
  { unfold slice. rewrite app_assoc, <- length_app, drop_app_length.
    replace (length (pre ++ encode_varint (f * 8 + w)) + width
             - length (pre ++ encode_varint (f * 8 + w))) with width by lia.
    rewrite <- (le_bytes_length width v) at 1. apply take_app_length. }
  destruct Hw as [[-> ->]|[-> ->]]; cbn [N.eqb Pos.eqb]; rewrite Hslice;
    unfold unpack_le; rewrite decide_True by apply le_bytes_length;
    cbn [mbind exc_bind]; rewrite le_value_le_bytes, length_app, le_bytes_length;
    do 2 f_equal; lia.
Qed.

Lemma decode_field_fixed_short (pre short : bytes) (f w : N) (width : nat) :
  (w = 1%N /\ width = 8) \/ (w = 5%N /\ width = 4) ->
  length short < width ->
  decode_field (pre ++ encode_varint (f * 8 + w) ++ short) (length pre)
  = Raise StructError.
Proof.
  intros Hw Hshort.
  rewrite decode_field_at_tag by (destruct Hw as [[-> _]|[-> _]]; lia).
  cbv zeta.
  destruct Hw as [[-> ->]|[-> ->]]; cbn [N.eqb Pos.eqb];
    rewrite unpack_le_truncated; try reflexivity; try lia;
    rewrite !length_app; lia.
Qed.

(** X5. The fixed-width wire types: after a tag of wire type 1 the decoder
    takes eight bytes, after one of wire type 5 four bytes, low byte first,
    as an int, and moves the cursor past them; when fewer bytes follow the
    tag, [struct.unpack] raises. *)
Theorem X5_fixed_width_fields (pre rest : bytes) (f v : N) :
  decode_field (pre ++ field_fixed f 1 8 v ++ rest) (length pre)
  = Ok (f, VInt (v mod 2 ^ 64), length pre + length (field_fixed f 1 8 v))
  /\ decode_field (pre ++ field_fixed f 5 4 v ++ rest) (length pre)
     = Ok (f, VInt (v mod 2 ^ 32), length pre + length (field_fixed f 5 4 v))
  /\ (length rest < 8 ->
      decode_field (pre ++ encode_varint (f * 8 + 1) ++ rest) (length pre)
      = Raise StructError)
  /\ (length rest < 4 ->
      decode_field (pre ++ encode_varint (f * 8 + 5) ++ rest) (length pre)
      = Raise StructError).
Proof.
  split; [|split; [|split]].
  - apply (decode_field_fixed pre rest f 1 8 v). by left.
  - apply (decode_field_fixed pre rest f 5 4 v). by right.
  - apply decode_field_fixed_short. by left.
  - apply decode_field_fixed_short. by right.
Qed.

Lemma iter_fields_bad_tag (rest : bytes) (f w : N) :
  In w [3; 4; 6; 7]%N ->
  iter_fields (encode_varint (f * 8 + w) ++ rest) = ([], Some (UnknownWireType w)).
Proof.
  intros Hw.
  pose proof (decode_field_at_tag [] rest f w) as Hd.
  cbn [app length] in Hd.
  assert (Hraise : decode_field (encode_varint (f * 8 + w) ++ rest) 0
                   = Raise (UnknownWireType w)).
  { simpl in Hw. destruct Hw as [<-|[<-|[<-|[<-|[]]]]]; by rewrite Hd. }
  unfold iter_fields.
  pose proof (encode_varint_nonempty (f * 8 + w)).
  destruct (length (encode_varint (f * 8 + w) ++ rest)) as [|n] eqn:E.
  { rewrite length_app in E. lia. }
  cbn [iter_fields_from]. rewrite E, decide_True by lia. by rewrite Hraise.
Qed.

(** X6. A tag whose wire type is 3, 4, 6 or 7 ends the iteration with
    "Unknown wire type", whatever follows the tag; the fields before it
    have been yielded. *)
Theorem X6_unknown_wire_type (fields : list (N * value)) (rest : bytes) (f w : N) :
  In w [3; 4; 6; 7]%N ->
  iter_fields (encode_fields fields ++ encode_varint (f * 8 + w) ++ rest)
  = (fields, Some (UnknownWireType w)).
Proof.
  intros Hw. rewrite iter_fields_encoded, iter_fields_bad_tag by exact Hw.
  cbn [fst snd]. by rewrite app_nil_r.
Qed.

(** X6 at a field followed by a tag of wire type 3. *)
Lemma X6_witness :
  iter_fields (encode_fields [(1%N, VInt 5)] ++ encode_varint (2 * 8 + 3) ++ [x00])
  = ([(1%N, VInt 5)], Some (UnknownWireType 3)).
Proof.
  apply (X6_unknown_wire_type [(1%N, VInt 5)] [x00] 2 3). left. reflexivity.
Defined.

(** ** The manifest builder on encoded manifests *)

Lemma encode_fields_app (a b : list (N * value)) :
  encode_fields (a ++ b) = encode_fields a ++ encode_fields b.
Proof. unfold encode_fields. by rewrite fmap_app, concat_app. Qed.

Lemma encode_fields_cons (fv : N * value) (fields : list (N * value)) :
  encode_fields (fv :: fields) = encode_field fv ++ encode_fields fields.
Proof. reflexivity. Qed.

Lemma encode_fields_map {A : Type} (g : A -> N * value) (h : A -> bytes) (l : list A) :
  (forall x, encode_field (g x) = h x) ->
  encode_fields (g <$> l) = concat (map h l).
Proof.
  intros Hg. induction l as [|x l IH]; [reflexivity|].
  rewrite fmap_cons, encode_fields_cons, Hg, IH. reflexivity.
Qed.

Lemma for_each_app {S : Type} (body : S -> N * value -> exc S)
    (a b : list (N * value)) :
  forall s, for_each body (a ++ b) s = s' ← for_each body a s; for_each body b s'.
Proof.
  induction a as [|fv a IH]; intros s; [reflexivity|].
  cbn [app for_each]. destruct (body s fv) as [s1|e]; [|reflexivity].
  cbn [mbind exc_bind]. apply IH.
Qed.

(** Parsing an encoded message is running the loop body over its fields. *)
Lemma for_fields_encoded {S : Type} (body : S -> N * value -> exc S)
    (fields : list (N * value)) (s : S) :
  for_fields (VBytes (encode_fields fields)) body s = for_each body fields s.
Proof.
  unfold for_fields.
  rewrite <- (app_nil_r (encode_fields fields)), iter_fields_encoded.
  cbn [fst snd]. rewrite app_nil_r.
  by destruct (for_each body fields s).
Qed.

Lemma op_msg_fields (d : op_desc) : op_msg_of d = encode_fields (op_fields d).
Proof.
  unfold op_msg_of, operation_msg, op_fields.
  rewrite !encode_fields_app.
  rewrite (encode_fields_map extent_field (fun e => field_bytes 6 (extent_msg e)))
    by done.
  replace (encode_fields match d_digest d with
                         | [] => []
                         | _ :: _ => [(8%N, VBytes (d_digest d))]
                         end)
    with (match d_digest d with [] => [] | _ => field_bytes 8 (d_digest d) end).
  - cbn [encode_fields fmap list_fmap concat encode_field fst snd].
    by rewrite app_nil_r, <- !app_assoc.
  - destruct (d_digest d); [reflexivity|].
    cbn [encode_field fst snd encode_fields fmap list_fmap concat].
    by rewrite app_nil_r.
Qed.

Lemma extent_msg_parses (e : N * N) :
  for_fields (VBytes (extent_msg e)) extent_body (VInt 0, VInt 0)
  = Ok (VInt e.1, VInt e.2).
Proof.
  replace (extent_msg e) with (encode_fields [(1%N, VInt e.1); (2%N, VInt e.2)]).
  - by rewrite for_fields_encoded.
  - unfold extent_msg, encode_fields. cbn. by rewrite app_nil_r.
Qed.

Lemma operation_body_extent (op : Operation) (e : N * N) :
  operation_body op (extent_field e)
  = Ok (mkOperation (op_type op) (data_offset op) (data_length op)
          (dst_extents op ++ [(VInt e.1, VInt e.2)]) (data_sha256 op)).
Proof.
  unfold extent_field. cbn [operation_body N.eqb Pos.eqb].
  by rewrite extent_msg_parses.
Qed.

Lemma for_each_extents (exts : list (N * N)) (rest : list (N * value)) :
  forall op,
    for_each operation_body ((extent_field <$> exts) ++ rest) op
    = for_each operation_body rest
        (mkOperation (op_type op) (data_offset op) (data_length op)
           (dst_extents op ++ typed_extents exts) (data_sha256 op)).
Proof.
  induction exts as [|e exts IH]; intros op.
  - cbn. rewrite app_nil_r. by destruct op.
  - rewrite fmap_cons. cbn [app for_each].
    rewrite operation_body_extent. cbn [mbind exc_bind]. rewrite IH.
    cbn [op_type data_offset data_length dst_extents data_sha256 typed_extents map].
    by rewrite <- app_assoc.
Qed.

Lemma parse_operation_encoded (d : op_desc) :
  parse_operation (VBytes (op_msg_of d)) = Ok (op_of d).
Proof.
  unfold parse_operation. rewrite op_msg_fields, for_fields_encoded.
  unfold op_fields. cbn [app for_each operation_body N.eqb Pos.eqb mbind exc_bind].
  rewrite for_each_extents. unfold op_of.
  cbn [new_operation op_type data_offset data_length dst_extents data_sha256 app].
  by destruct (d_digest d).
Qed.

(** X7. [parse_operation] reads back an operation message: kind, data
    offset, data length, the extents in their order, and the digest; a
    message without digest field leaves the digest the empty bytes of a new
    [Operation]. *)
Theorem X7_parse_operation_round_trip (d : op_desc) :
  parse_operation (VBytes (op_msg_of d)) = Ok (op_of d).
Proof. apply parse_operation_encoded. Qed.

Lemma part_msg_fields (p : part_desc) : part_msg_of p = encode_fields (part_fields p).
Proof.
  unfold part_msg_of, partition_msg, part_fields.
  rewrite encode_fields_app.
  rewrite (encode_fields_map op_field (fun d => field_bytes 8 (op_msg_of d))) by done.
  cbn [encode_fields fmap list_fmap concat encode_field fst snd].
  rewrite app_nil_r, <- !app_assoc. do 2 f_equal.
  by rewrite map_map.
Qed.

Lemma partition_body_op (part : Partition) (d : op_desc) :
  partition_body part (op_field d)
  = Ok (mkPartition (name part) (operations part ++ [op_of d]) (psize part)).
Proof.
  unfold op_field. cbn [partition_body N.eqb Pos.eqb].
  by rewrite parse_operation_encoded.
Qed.

Lemma for_each_ops (ops : list op_desc) :
  forall part,
    for_each partition_body (op_field <$> ops) part
    = Ok (mkPartition (name part) (operations part ++ (op_of <$> ops)) (psize part)).
Proof.
  induction ops as [|d ops IH]; intros part.
  - cbn. rewrite app_nil_r. by destruct part.
  - rewrite !fmap_cons. cbn [for_each]. rewrite partition_body_op.
    cbn [mbind exc_bind]. rewrite IH. cbn [name operations psize].
    by rewrite <- app_assoc.
Qed.

Lemma parse_partition_encoded (p : part_desc) :
  utf8_valid (list_byte_of_string (p_name p)) = true ->
  parse_partition (VBytes (part_msg_of p)) = Ok (partition_of p).
Proof.
  intros Hname. unfold parse_partition.
  rewrite part_msg_fields, for_fields_encoded. unfold part_fields.
  cbn [app for_each partition_body N.eqb Pos.eqb decode]. rewrite Hname.
  cbn [mbind exc_bind]. rewrite string_of_list_byte_of_string.
  replace (field_varint 1 (p_size p)) with (encode_fields [(1%N, VInt (p_size p))])
    by (unfold encode_fields; cbn; by rewrite app_nil_r).
  rewrite for_fields_encoded. cbn [for_each info_body N.eqb Pos.eqb mbind exc_bind].
  rewrite for_each_ops. reflexivity.
Qed.

(** X8. [parse_partition] reads back a partition message whose name is
    well-formed UTF-8: the name, the size from the nested partition info,
    and the operations in their order. *)
Theorem X8_parse_partition_round_trip (p : part_desc) :
  utf8_valid (list_byte_of_string (p_name p)) = true ->
  parse_partition (VBytes (part_msg_of p)) = Ok (partition_of p).
Proof. apply parse_partition_encoded. Qed.

(** X8 at the sample partition. *)
Lemma X8_witness :
  parse_partition (VBytes (part_msg_of boot_desc)) = Ok (partition_of boot_desc).
Proof. apply (X8_parse_partition_round_trip boot_desc). reflexivity. Defined.

(** ** The container header *)

Lemma be_bytes_length (width : nat) (v : N) : length (be_bytes width v) = width.
Proof. unfold be_bytes. by rewrite length_rev, le_bytes_length. Qed.

Lemma be_value_be_bytes (width : nat) (v : N) :
  be_value (be_bytes width v) = (v mod 2 ^ (8 * N.of_nat width))%N.
Proof. unfold be_value, be_bytes. by rewrite rev_involutive, le_value_le_bytes. Qed.

Lemma slice_middle {A : Type} (pre x rest : list A) (a b : nat) :
  a = length pre -> b = length pre + length x ->
  slice (pre ++ x ++ rest) a b = x.
Proof.
  intros -> ->. unfold slice. rewrite drop_app_length.
  replace (length pre + length x - length pre) with (length x) by lia.
  apply take_app_length.
Qed.

(** Loading a file that starts with a header: the version is checked, and
    the manifest is as many of the bytes after the header as the header
    declares, or as there are. *)
Lemma load_payload_header (p : string) (version m s : N) (body : bytes) :
  load_payload p (header version m s ++ body)
  = if (version mod 2 ^ 64 =? 2)%N then
      for_fields (VBytes (take (N.to_nat (m mod 2 ^ 64)) body)) payload_body
        (mkPayload p (24 + m mod 2 ^ 64 + s mod 2 ^ 32)%N (VInt BLOCK_SIZE) [])
    else Raise (UnsupportedVersion (version mod 2 ^ 64)).
Proof.
  set (file := header version m s ++ body).
  assert (H0 : slice file 0 4 = PAYLOAD_MAGIC).
  { subst file. unfold header. rewrite <- !app_assoc.
    by apply (slice_middle [] PAYLOAD_MAGIC). }
  assert (H4 : slice file 4 12 = be_bytes 8 version).
  { subst file. unfold header. rewrite <- !app_assoc.
    apply (slice_middle PAYLOAD_MAGIC); [reflexivity | by rewrite be_bytes_length]. }
  assert (H12 : slice file 12 20 = be_bytes 8 m).
  { subst file. unfold header. rewrite <- !app_assoc. rewrite (app_assoc PAYLOAD_MAGIC).
    apply slice_middle; by rewrite length_app, !be_bytes_length. }
  assert (H20 : slice file 20 24 = be_bytes 4 s).
  { subst file. unfold header. rewrite <- !app_assoc. rewrite (app_assoc PAYLOAD_MAGIC).
    rewrite (app_assoc (PAYLOAD_MAGIC ++ _)).
    apply slice_middle; by rewrite !length_app, !be_bytes_length. }
  assert (H24 : forall n, slice file 24 (24 + n) = take n body).
  { intros n. subst file. unfold slice.
    replace (24 + n - 24) with n by lia.
    assert (Hh : length (header version m s) = 24)
      by (unfold header; by rewrite !length_app, !be_bytes_length).
    by rewrite <- Hh, drop_app_length. }
  unfold load_payload. rewrite H0, H4, H12, H20.
  rewrite decide_True by reflexivity.
  unfold unpack_be. rewrite !decide_True by apply be_bytes_length.
  cbn [mbind exc_bind]. rewrite !be_value_be_bytes.
  change (8 * N.of_nat 8)%N with 64%N. change (8 * N.of_nat 4)%N with 32%N.
  by rewrite H24.
Qed.

Lemma payload_body_part (payload : Payload) (p : part_desc) :
  utf8_valid (list_byte_of_string (p_name p)) = true ->
  payload_body payload (part_field p)
  = Ok (mkPayload (path payload) (payload_data_offset payload) (block_size payload)
          (partitions payload ++ [partition_of p])).
Proof.
  intros Hname. unfold part_field. cbn [payload_body N.eqb Pos.eqb].
  by rewrite parse_partition_encoded.
Qed.

Lemma for_each_parts (parts : list part_desc) :
  names_valid parts ->
  forall payload,
    for_each payload_body (part_field <$> parts) payload
    = Ok (mkPayload (path payload) (payload_data_offset payload) (block_size payload)
            (partitions payload ++ (partition_of <$> parts))).
Proof.
  induction 1 as [|p parts Hp Hparts IH]; intros payload.
  - cbn. rewrite app_nil_r. by destruct payload.
  - rewrite !fmap_cons. cbn [for_each]. rewrite payload_body_part by exact Hp.
    cbn [mbind exc_bind]. rewrite IH.
    cbn [path payload_data_offset block_size partitions].
    by rewrite <- app_assoc.
Qed.

Lemma manifest_msg_fields (bs : N) (parts : list part_desc) :
  manifest_msg bs (map part_msg_of parts)
  = encode_fields ((3%N, VInt bs) :: (part_field <$> parts)).
Proof.
  unfold manifest_msg. rewrite encode_fields_cons.
  rewrite (encode_fields_map part_field (fun p => field_bytes 13 (part_msg_of p)))
    by done.
  by rewrite map_map.
Qed.

Lemma container_header (manifest signature data : bytes) :
  container manifest signature data
  = header 2 (N.of_nat (length manifest)) (N.of_nat (length signature))
    ++ manifest ++ signature ++ data.
Proof. unfold container, header. by rewrite <- !app_assoc. Qed.

(** Loading a container whose header tells the truth. *)
Lemma load_payload_container (p : string) (manifest signature data : bytes) :
  (N.of_nat (length manifest) < 2 ^ 64)%N ->
  (N.of_nat (length signature) < 2 ^ 32)%N ->
  load_payload p (container manifest signature data)
  = for_fields (VBytes manifest) payload_body
      (mkPayload p (24 + N.of_nat (length manifest) + N.of_nat (length signature))%N
         (VInt BLOCK_SIZE) []).
Proof.
  intros Hm Hs. rewrite container_header, load_payload_header.
  change (2 mod 2 ^ 64 =? 2)%N with true. cbv iota.
  rewrite !N.mod_small by assumption.
  by rewrite Nat2N.id, take_app_length.
Qed.

(** X9. [load_payload] reads back a container: the block size and the
    partitions of the manifest, in their order, and as data offset the
    length of the header (24) plus the manifest's and the signature's,
    whatever the signature block and the data region hold. *)
Theorem X9_load_payload_round_trip (p : string) (bs : N) (parts : list part_desc)
    (signature data : bytes) :
  names_valid parts ->
  let manifest := manifest_msg bs (map part_msg_of parts) in
  (N.of_nat (length manifest) < 2 ^ 64)%N ->
  (N.of_nat (length signature) < 2 ^ 32)%N ->
  load_payload p (container manifest signature data)
  = Ok (mkPayload p
          (24 + N.of_nat (length manifest) + N.of_nat (length signature))%N
          (VInt bs) (partition_of <$> parts)).
Proof.
  intros Hnames manifest Hm Hs.
  rewrite load_payload_container by assumption.
  subst manifest. rewrite manifest_msg_fields, for_fields_encoded.
  cbn [for_each payload_body N.eqb Pos.eqb mbind exc_bind].
  by rewrite for_each_parts.
Qed.

(** X9 at the sample container. *)
Lemma X9_witness :
  load_payload "payload.bin" (container boot_manifest [] sample_data)
  = Ok (mkPayload "payload.bin"
          (24 + N.of_nat (length boot_manifest) + N.of_nat (length (@nil byte)))%N
          (VInt 4) (partition_of <$> [boot_desc])).
Proof.
  apply (X9_load_payload_round_trip "payload.bin" 4 [boot_desc] [] sample_data).
  - repeat constructor.
  - vm_compute. reflexivity.
  - vm_compute. reflexivity.
Defined.

(** The bytes an operation reads from a container are the bytes of the data
    region at the operation's own offset. *)
Lemma container_data_slice (manifest signature data : bytes) (o n : nat) :
  slice (container manifest signature data)
    (24 + length manifest + length signature + o)
    (24 + length manifest + length signature + o + n)
  = slice data o (o + n).
Proof.
  rewrite container_header, !app_assoc.
  assert (Hlen : length ((header 2 (N.of_nat (length manifest))
                            (N.of_nat (length signature)) ++ manifest) ++ signature)
                 = 24 + length manifest + length signature).
  { rewrite !length_app. unfold header.
    by rewrite !length_app, !be_bytes_length. }
  rewrite <- Hlen, <- Nat.add_assoc. apply slice_shift.
Qed.

(** X10. An operation's offset counts from the start of the data region.
    On a container, for an operation with int offset [o] and length [n]:
    when the offset in the file is one seek takes (up to [2^63 - 1]) and
    the length one read takes (up to [2^63 - 34]), the bytes
    [extract_partition] reads are the bytes [o .. o+n) of the data region
    (fewer when the region ends before), whatever the manifest and the
    signature are; past the first limit the seek raises [ValueError], and
    past the second the read raises [OverflowError]. *)
Theorem X10_source_read_is_data_region (p : string) (manifest signature data : bytes)
    (bs : value) (parts : list Partition) (op : Operation) (o n : N) :
  data_offset op = VInt o -> data_length op = VInt n ->
  let base := (24 + N.of_nat (length manifest) + N.of_nat (length signature))%N in
  let payload := mkPayload p base bs parts in
  ((base + o <= OFFSET_MAX)%N -> (n <= BYTES_MAX)%N ->
   read_source (container manifest signature data) payload op
   = Ok (slice data (N.to_nat o) (N.to_nat o + N.to_nat n)))
  /\ ((OFFSET_MAX < base + o)%N ->
      read_source (container manifest signature data) payload op
      = Raise OffsetTooLarge)
  /\ ((base + o <= OFFSET_MAX)%N -> (BYTES_MAX < n)%N ->
      read_source (container manifest signature data) payload op
      = Raise OverflowError).
Proof.
  intros Ho Hn base payload. split; [|split].
  - intros Hoff Hlen. rewrite (read_source_typed _ _ _ o n) by assumption.
    cbn [payload_data_offset payload]. f_equal.
    rewrite <- (container_data_slice manifest signature data). f_equal; lia.
  - intros Hoff. unfold read_source. rewrite Ho. cbn [py_add mbind exc_bind].
    cbn [payload_data_offset payload]. by rewrite (proj2 (N.ltb_lt _ _) Hoff).
  - intros Hoff Hlen. unfold read_source. rewrite Ho, Hn. cbn [py_add mbind exc_bind].
    cbn [payload_data_offset payload].
    by rewrite (proj2 (N.ltb_ge _ _) Hoff), (proj2 (N.ltb_lt _ _) Hlen).
Qed.

(** X10 at the Replace operation of the sample container. *)
Lemma X10_witness :
  read_source (container boot_manifest [] sample_data)
    (mkPayload "payload.bin"
       (24 + N.of_nat (length boot_manifest) + N.of_nat (length (@nil byte)))%N
       (VInt 4) []) (op_of plain_op)
  = Ok (slice sample_data (N.to_nat 0) (N.to_nat 0 + N.to_nat 8)).
Proof.
  refine (proj1 (X10_source_read_is_data_region "payload.bin" boot_manifest []
                   sample_data (VInt 4) [] (op_of plain_op) 0 8 eq_refl eq_refl) _ _).
  - vm_compute. discriminate.
  - vm_compute. discriminate.
Defined.

(** ** What loading rejects, and what it never looks at *)

Lemma slice_0 {A : Type} (l : list A) (n : nat) : slice l 0 n = take n l.
Proof. unfold slice. by rewrite drop_0, Nat.sub_0_r. Qed.

Lemma slice_length {A : Type} (l : list A) (a b : nat) :
  length (slice l a b) = (b - a) `min` (length l - a).
Proof. unfold slice. by rewrite length_take, length_drop. Qed.

Lemma unpack_be_exact (width : nat) (b : bytes) :
  length b = width -> unpack_be width b = Ok (be_value b).
Proof. intros H. unfold unpack_be. by rewrite decide_True. Qed.

Lemma unpack_be_short (width : nat) (b : bytes) :
  length b <> width -> unpack_be width b = Raise StructError.
Proof. intros H. unfold unpack_be. by rewrite decide_False. Qed.

(** X11. What [load_payload] rejects, in the order it checks: a file that
    does not start with the magic (shorter than four bytes included) raises
    "Invalid magic" with the bytes read; with the magic, a file too short
    for the version raises [struct.error]; a version other than 2 raises
    "Unsupported version"; with version 2, a file that ends inside the two
    size fields raises [struct.error]. *)
Theorem X11_load_payload_rejects (p : string) (file : bytes) :
  (take 4 file <> PAYLOAD_MAGIC ->
   load_payload p file = Raise (InvalidMagic (take 4 file)))
  /\ (take 4 file = PAYLOAD_MAGIC -> length file < 12 ->
      load_payload p file = Raise StructError)
  /\ (take 4 file = PAYLOAD_MAGIC -> 12 <= length file ->
      be_value (slice file 4 12) <> 2%N ->
      load_payload p file = Raise (UnsupportedVersion (be_value (slice file 4 12))))
  /\ (take 4 file = PAYLOAD_MAGIC -> be_value (slice file 4 12) = 2%N ->
      12 <= length file < 24 ->
      load_payload p file = Raise StructError).
Proof.
  unfold load_payload. rewrite slice_0.
  split; [|split; [|split]].
  - intros Hm. by rewrite decide_False.
  - intros Hm Hlen. rewrite decide_True by exact Hm.
    rewrite (unpack_be_short 8 (slice file 4 12)); [reflexivity|].
    rewrite slice_length. lia.
  - intros Hm Hlen Hv. rewrite decide_True by exact Hm.
    rewrite (unpack_be_exact 8 (slice file 4 12)) by (rewrite slice_length; lia).
    cbn [mbind exc_bind]. by apply N.eqb_neq in Hv as ->.
  - intros Hm Hv Hlen. rewrite decide_True by exact Hm.
    rewrite (unpack_be_exact 8 (slice file 4 12)) by (rewrite slice_length; lia).
    cbn [mbind exc_bind]. rewrite Hv. cbn [N.eqb Pos.eqb].
    destruct (decide (length file < 20)).
    + rewrite (unpack_be_short 8 (slice file 12 20)); [reflexivity|].
      rewrite slice_length. lia.
    + rewrite (unpack_be_exact 8 (slice file 12 20)) by (rewrite slice_length; lia).
      cbn [mbind exc_bind].
      rewrite (unpack_be_short 4 (slice file 20 24)); [reflexivity|].
      rewrite slice_length. lia.
Qed.

Lemma load_payload_Ok_inv (p : string) (file : bytes) (payload : Payload) :
  load_payload p file = Ok payload ->
  take 4 file = PAYLOAD_MAGIC /\ 24 <= length file
  /\ be_value (slice file 4 12) = 2%N
  /\ for_fields (VBytes (manifest_of file)) payload_body
       (mkPayload p (24 + be_value (slice file 12 20) + be_value (slice file 20 24))%N
          (VInt BLOCK_SIZE) [])
     = Ok payload.
Proof.
  unfold load_payload, manifest_of. rewrite slice_0. intros H.
  destruct (decide _) as [Hm|]; [|discriminate].
  inv_bind_as H version Hversion.
  destruct (N.eqb_spec version 2) as [->|]; [|discriminate].
  inv_bind_as H msize Hmsize. inv_bind_as H ssize Hssize.
  unfold unpack_be in *.
  destruct (decide _) in Hversion; [|discriminate].
  destruct (decide _) in Hmsize; [|discriminate].
  destruct (decide (length (slice file 20 24) = 4)) as [H4|] in Hssize; [|discriminate].
  injection Hversion as Hv. injection Hmsize as <-. injection Hssize as <-.
  rewrite slice_length in H4.
  repeat split; try done. lia.
Qed.

(** X12. A payload [load_payload] returns comes from a file of at least
    24 bytes that starts with the magic and has version 2; its path is the
    one given, its data offset is 24 plus the two sizes of the header, and
    its block size is the value of the manifest's last field 3, or 4096
    when the manifest has none. *)
Theorem X12_loaded_payload_header (p : string) (file : bytes) (payload : Payload) :
  load_payload p file = Ok payload ->
  take 4 file = PAYLOAD_MAGIC /\ 24 <= length file
  /\ be_value (slice file 4 12) = 2%N
  /\ path payload = p
  /\ payload_data_offset payload
     = (24 + be_value (slice file 12 20) + be_value (slice file 20 24))%N
  /\ block_size payload
     = last_block_size (iter_fields (manifest_of file)).1 (VInt BLOCK_SIZE).
Proof.
  intros H. apply load_payload_Ok_inv in H as (Hm & Hlen & Hv & H).
  split; [exact Hm|]. split; [exact Hlen|]. split; [exact Hv|].
  unfold for_fields in H. destruct (iter_fields (manifest_of file)) as [fields ending].
  inv_bind_as H p1 Hloop. rewrite payload_loop in Hloop.
  inv_bind_as Hloop parts Hparts. injection Hloop as <-.
  destruct ending; [discriminate|]. injection H as <-. done.
Qed.

(** X12 at the sample container and the payload it loads to. *)
Lemma X12_witness :
  take 4 boot_container = PAYLOAD_MAGIC /\ 24 <= length boot_container
  /\ be_value (slice boot_container 4 12) = 2%N
  /\ path boot_payload = "payload.bin"%string
  /\ payload_data_offset boot_payload
     = (24 + be_value (slice boot_container 12 20)
        + be_value (slice boot_container 20 24))%N
  /\ block_size boot_payload
     = last_block_size (iter_fields (manifest_of boot_container)).1 (VInt BLOCK_SIZE).
Proof.
  apply (X12_loaded_payload_header "payload.bin" boot_container boot_payload).
  vm_compute. reflexivity.
Defined.

Lemma slice_take_app {A : Type} (l tail : list A) (n a b : nat) :
  b <= n -> n <= length l -> slice (take n l ++ tail) a b = slice l a b.
Proof.
  intros Hb Hn. unfold slice.
  destruct (decide (a <= b)) as [Hab|Hab].
  - rewrite !take_drop_commute. f_equal.
    rewrite take_app_le by (rewrite length_take; lia).
    rewrite take_take. f_equal. lia.
  - replace (b - a) with 0 by lia. by rewrite !take_0.
Qed.

(** X13. [load_payload] never looks past the manifest: replacing whatever
    follows it (signature block and data region) by any bytes gives the
    same result, error or payload. *)
Theorem X13_signature_and_data_not_read (p : string) (file tail : bytes) :
  24 + N.to_nat (be_value (slice file 12 20)) <= length file ->
  load_payload p (take (24 + N.to_nat (be_value (slice file 12 20))) file ++ tail)
  = load_payload p file.
Proof.
  intros Hlen. set (n := 24 + N.to_nat (be_value (slice file 12 20))) in *.
  unfold load_payload.
  rewrite (slice_take_app file tail n 0 4), (slice_take_app file tail n 4 12),
    (slice_take_app file tail n 12 20), (slice_take_app file tail n 20 24) by lia.
  destruct (decide _); [|reflexivity].
  destruct (unpack_be 8 (slice file 4 12)) as [version|?]; [|reflexivity].
  cbn [mbind exc_bind]. destruct (version =? 2)%N; [|reflexivity].
  destruct (decide (length (slice file 12 20) = 8)) as [H8|H8].
  - rewrite !(unpack_be_exact 8 (slice file 12 20)) by exact H8.
    cbn [mbind exc_bind].
    destruct (unpack_be 4 (slice file 20 24)) as [ssize|?]; [|reflexivity].
    cbn [mbind exc_bind].
    by rewrite (slice_take_app file tail n) by (subst n; lia).
  - by rewrite !(unpack_be_short 8 (slice file 12 20)) by exact H8.
Qed.

(** X13 at the sample container with its data region replaced by one byte. *)
Lemma X13_witness :
  load_payload "payload.bin"
    (take (24 + N.to_nat (be_value (slice boot_container 12 20))) boot_container
     ++ [xff])
  = load_payload "payload.bin" boot_container.
Proof.
  apply (X13_signature_and_data_not_read "payload.bin" boot_container [xff]).
  vm_compute. lia.
Defined.

(** X14. The manifest's length is not checked against the file: a
    container that ends with its manifest, or before the length its header
    announces, loads as the complete one does, for an announced length that
    [f.read] takes (up to [2^63 - 34], memory permitting); only the data
    offset follows the announced length. *)
Theorem X14_short_manifest_loads (p : string) (bs m s : N) (parts : list part_desc) :
  names_valid parts ->
  let manifest := manifest_msg bs (map part_msg_of parts) in
  (N.of_nat (length manifest) <= m <= BYTES_MAX)%N ->
  load_payload p (header 2 m s ++ manifest)
  = Ok (mkPayload p (24 + m + s mod 2 ^ 32)%N (VInt bs) (partition_of <$> parts)).
Proof.
  intros Hnames manifest Hm. rewrite load_payload_header.
  change (2 mod 2 ^ 64 =? 2)%N with true. cbv iota.
  assert (Hmax : (BYTES_MAX < 2 ^ 64)%N) by reflexivity.
  rewrite N.mod_small by lia. rewrite take_ge by lia.
  subst manifest. rewrite manifest_msg_fields, for_fields_encoded.
  cbn [for_each payload_body N.eqb Pos.eqb mbind exc_bind].
  by rewrite for_each_parts.
Qed.

(** X14 at the sample manifest under a header that announces 1000 bytes
    of manifest. *)
Lemma X14_witness :
  load_payload "payload.bin" (header 2 1000 7 ++ boot_manifest)
  = Ok (mkPayload "payload.bin" (24 + 1000 + 7 mod 2 ^ 32)%N (VInt 4)
          (partition_of <$> [boot_desc])).
Proof.
  apply (X14_short_manifest_loads "payload.bin" 4 1000 7 [boot_desc]).
  - repeat constructor.
  - vm_compute. split; discriminate.
Defined.

(** ** Fields the parsers do not read *)

Lemma for_each_only {S : Type} (body : S -> N * value -> exc S) (numbers : list N)
    (fields : list (N * value)) :
  (forall s fv, fv.1 ∉ numbers -> body s fv = Ok s) ->
  forall s, for_each body (only numbers fields) s = for_each body fields s.
Proof.
  intros Hskip. unfold only.
  induction fields as [|fv fields IH]; intros s; [reflexivity|].
  destruct (decide (fv.1 ∈ numbers)) as [Hin|Hout].
  - rewrite filter_cons_True by exact Hin. cbn [for_each].
    destruct (body s fv); [|reflexivity]. apply IH.
  - rewrite filter_cons_False by exact Hout. cbn [for_each].
    rewrite Hskip by exact Hout. apply IH.
Qed.

Ltac skip_field H :=
  repeat match goal with
         | |- context [(?f =? ?k)%N] =>
             destruct (N.eqb_spec f k) as [->|?];
             [exfalso; apply H; set_solver|]
         end;
  reflexivity.

(** X15. The parsers skip the fields they do not read: an operation
    message parses as it does with only its fields 1, 2, 3, 6, 8 kept, a
    partition message as with only 1, 7, 8, and the manifest as with only 3
    and 13, errors included. *)
Theorem X15_unread_fields_are_skipped (fields : list (N * value)) :
  parse_operation (VBytes (encode_fields fields))
  = parse_operation (VBytes (encode_fields (only operation_fields fields)))
  /\ parse_partition (VBytes (encode_fields fields))
     = parse_partition (VBytes (encode_fields (only partition_fields fields)))
  /\ (forall payload,
        for_fields (VBytes (encode_fields fields)) payload_body payload
        = for_fields (VBytes (encode_fields (only payload_fields fields)))
            payload_body payload).
Proof.
  unfold parse_operation, parse_partition. rewrite !for_fields_encoded.
  split; [|split; [|intros payload; rewrite !for_fields_encoded]];
    symmetry; apply for_each_only; intros s [f v] H; cbn [fst] in H;
    unfold operation_body, partition_body, payload_body,
      operation_fields, partition_fields, payload_fields in *;
    skip_field H.
Qed.

(** ** The Zero operation *)

Lemma py_bytes_zeros (n : N) :
  (n <= BYTES_MAX)%N -> py_bytes (VInt n) = Ok (replicate (N.to_nat n) x00).
Proof. intros Hn. unfold py_bytes. by rewrite (proj2 (N.ltb_ge _ _) Hn). Qed.

Lemma zero_extents_spans (bs : N) (exts : list (N * N)) :
  Forall (zeroable bs) exts ->
  forall f_out : wfile,
    zero_extents (VInt bs) (typed_extents exts) f_out
    = (apply_writes f_out (zero_spans bs exts), None).
Proof.
  induction 1 as [|[start num] exts [Hs Hz] _ IH]; intros f_out; [reflexivity|].
  cbn [typed_extents map zero_extents py_mul mbind exc_bind fst snd] in *.
  rewrite (seek_to_offset _ _ Hs), (py_bytes_zeros _ Hz).
  fold (typed_extents exts). rewrite IH. reflexivity.
Qed.

Lemma extract_op_zero (lzma bz2 : bytes -> option bytes) (f_in : bytes)
    (payload : Payload) (i : nat) (op : Operation) (f_out : wfile) (bs : N)
    (exts : list (N * N)) :
  op_type op = VInt OP_ZERO ->
  block_size payload = VInt bs ->
  dst_extents op = typed_extents exts ->
  Forall (zeroable bs) exts ->
  extract_op lzma bz2 f_in payload i op f_out
  = (apply_writes f_out (zero_spans bs exts), None).
Proof.
  intros Hk Hbs Hexts Hz. unfold extract_op. rewrite Hk, Hbs, Hexts.
  cbn [is_int]. change (OP_ZERO =? OP_ZERO)%N with true. cbv iota.
  by rewrite zero_extents_spans.
Qed.

(** X16. A Zero operation with int blocks, at offsets seek takes (up to
    [2^63 - 1]) and sizes [bytes] takes (up to [2^63 - 34]), completes
    without looking at the payload file, its data offset, data length or
    digest: for each extent, in order, it seeks to [start_block * bs] and
    writes [num_blocks * bs] zero bytes, and the loop goes on to the next
    operation. *)
Theorem X16_zero_operation (lzma bz2 : bytes -> option bytes) (f_in : bytes)
    (payload : Payload) (i : nat) (op : Operation) (f_out : wfile) (bs : N)
    (exts : list (N * N)) :
  op_type op = VInt OP_ZERO ->
  block_size payload = VInt bs ->
  dst_extents op = typed_extents exts ->
  Forall (zeroable bs) exts ->
  extract_op lzma bz2 f_in payload i op f_out
  = (apply_writes f_out (zero_spans bs exts), None)
  /\ written (apply_writes f_out (zero_spans bs exts))
     = written f_out ++ zero_spans bs exts
  /\ Forall (fun pd => Forall (fun b => b = x00) pd.2) (zero_spans bs exts).
Proof.
  intros Hk Hbs Hexts Hz. split; [by apply extract_op_zero|].
  split; [apply apply_writes_written|].
  unfold zero_spans. apply Forall_map, Forall_forall. intros e _. cbn [snd].
  apply Forall_replicate. reflexivity.
Qed.

(** X16 at the Zero operation of the sample partition, on an empty file. *)
Lemma X16_witness :
  extract_op rejecting_codec rejecting_codec [] boot_payload 1 (op_of zero_op) open_wb
  = (apply_writes open_wb (zero_spans 4 [(2, 1)%N]), None)
  /\ written (apply_writes open_wb (zero_spans 4 [(2, 1)%N]))
     = written open_wb ++ zero_spans 4 [(2, 1)%N]
  /\ Forall (fun pd => Forall (fun b => b = x00) pd.2) (zero_spans 4 [(2, 1)%N]).
Proof.
  apply (X16_zero_operation rejecting_codec rejecting_codec [] boot_payload 1
           (op_of zero_op) open_wb 4 [(2, 1)%N]); try reflexivity.
  constructor; [|constructor]. split; vm_compute; discriminate.
Defined.

(** ** What the file holds after a run of writes *)

Lemma length_write_at (c : bytes) (pos : nat) (d : bytes) :
  length (write_at c pos d)
  = match d with [] => length c | _ => length c `max` (pos + length d) end.
Proof.
  unfold write_at. destruct d as [|b d']; [reflexivity|].
  rewrite !length_app, length_take, length_replicate, length_drop. lia.
Qed.

Lemma apply_writes_snoc (f : wfile) (spans : list (nat * bytes)) (pd : nat * bytes) :
  apply_writes f (spans ++ [pd]) = write pd.2 (seek pd.1 (apply_writes f spans)).
Proof. unfold apply_writes. by rewrite foldl_app. Qed.

Lemma end_after_snoc (len : nat) (spans : list (nat * bytes)) (pd : nat * bytes) :
  end_after len (spans ++ [pd])
  = match pd.2 with
    | [] => end_after len spans
    | _ => end_after len spans `max` (pd.1 + length pd.2)
    end.
Proof. unfold end_after. by rewrite foldl_app. Qed.

Lemma end_after_ge (spans : list (nat * bytes)) (len : nat) :
  len <= end_after len spans.
Proof.
  induction spans as [|pd spans IH] using rev_ind; [simpl; lia|].
  rewrite end_after_snoc. destruct pd.2; lia.
Qed.

Lemma last_covering_snoc (spans : list (nat * bytes)) (pd : nat * bytes) (k : nat) :
  last_covering (spans ++ [pd]) k
  = if decide (covers k pd) then Some pd else last_covering spans k.
Proof.
  unfold last_covering. rewrite filter_app.
  destruct (decide (covers k pd)) as [H|H].
  - rewrite (filter_cons_True _ _ _ H), filter_nil. by rewrite last_snoc.
  - rewrite (filter_cons_False _ _ _ H), filter_nil. by rewrite app_nil_r.
Qed.

Lemma last_covering_covers (spans : list (nat * bytes)) (k : nat) (pd : nat * bytes) :
  last_covering spans k = Some pd -> pd ∈ spans /\ covers k pd.
Proof.
  unfold last_covering. intros H. apply last_Some in H as [l' H].
  assert (Hin : pd ∈ filter (covers k) spans) by (rewrite H; set_solver).
  apply list_elem_of_filter in Hin as [? ?]. done.
Qed.

(** The file after a run of writes: its length, and byte [k]: the byte
    the last write covering [k] put there; where no write covers [k], the
    byte the file had, or the zero of a gap, or nothing past the end. *)
Lemma apply_writes_lookup (f : wfile) (spans : list (nat * bytes)) (k : nat) :
  length (content (apply_writes f spans)) = end_after (length (content f)) spans
  /\ content (apply_writes f spans) !! k
     = match last_covering spans k with
       | Some pd => pd.2 !! (k - pd.1)
       | None =>
           if decide (k < end_after (length (content f)) spans)
           then Some (default x00 (content f !! k))
           else None
       end.
Proof.
  induction spans as [|[pos d] spans [IHlen IH]] using rev_ind.
  - split; [reflexivity|]. cbn. destruct (decide _) as [Hk|Hk].
    + destruct (lookup_lt_is_Some_2 (content f) k Hk) as [x Hx]. by rewrite Hx.
    + apply lookup_ge_None_2. lia.
  - rewrite apply_writes_snoc, end_after_snoc, last_covering_snoc.
    cbn [write seek content cursor fst snd]. split.
    + rewrite length_write_at, IHlen. reflexivity.
    + pose proof (end_after_ge spans (length (content f))) as Hge.
      destruct d as [|b d'].
      { cbn [write_at]. rewrite decide_False by (unfold covers; simpl; lia).
        exact IH. }
      set (d := b :: d') in *.
      rewrite lookup_write_at by done.
      destruct (decide (k < pos)) as [Hlt|Hnlt].
      * rewrite decide_False by (unfold covers; cbn [fst snd]; lia). rewrite IH.
        destruct (last_covering spans k) as [[p' d0]|] eqn:Hlast.
        -- apply last_covering_covers in Hlast as [_ Hc].
           unfold covers in Hc. cbn [fst snd] in *.
           destruct (lookup_lt_is_Some_2 d0 (k - p') ltac:(lia)) as [x Hx].
           by rewrite Hx.
        -- rewrite (decide_True (P := k < _ `max` _)) by (subst d; simpl; lia).
           destruct (decide (k < end_after _ spans)) as [Hin|Hout]; [reflexivity|].
           cbn. by rewrite (lookup_ge_None_2 (content f) k) by lia.
      * destruct (decide (k < pos + length d)) as [Hin|Hout].
        -- by rewrite decide_True by (unfold covers; cbn [fst snd]; lia).
        -- rewrite decide_False by (unfold covers; cbn [fst snd]; lia). rewrite IH.
           destruct (last_covering spans k); [reflexivity|].
           destruct (decide (k < end_after _ spans)) as [H1|H1].
           ++ by rewrite decide_True by lia.
           ++ rewrite decide_False; [reflexivity|]. subst d. simpl in *. lia.
Qed.

(** X17. The image after the write loop of an operation with int blocks
    at offsets seek takes: its length is the furthest end of a non-empty
    write, or the length it had; byte [k] is what the last extent covering
    [k] wrote there, so where extents overlap the later one wins; a byte no
    extent covers is the one the file had, or a zero where the file was
    shorter. The same holds of the Zero loop at offsets seek takes and
    sizes [bytes] takes, whose covered bytes are zero. *)
Theorem X17_last_write_wins (bs : N) (data : bytes) (exts : list (N * N))
    (f_out : wfile) (k : nat) :
  let spans := extent_spans bs data exts in
  let f := (write_extents (VInt bs) data (typed_extents exts) 0 f_out).1 in
  let zeros := zero_spans bs exts in
  let fz := (zero_extents (VInt bs) (typed_extents exts) f_out).1 in
  (Forall (seekable bs) exts ->
   length (content f) = end_after (length (content f_out)) spans
   /\ content f !! k
      = match last_covering spans k with
        | Some pd => pd.2 !! (k - pd.1)
        | None =>
            if decide (k < end_after (length (content f_out)) spans)
            then Some (default x00 (content f_out !! k))
            else None
        end)
  /\ (Forall (zeroable bs) exts ->
      length (content fz) = end_after (length (content f_out)) zeros
      /\ content fz !! k
         = match last_covering zeros k with
           | Some _ => Some x00
           | None =>
               if decide (k < end_after (length (content f_out)) zeros)
               then Some (default x00 (content f_out !! k))
               else None
           end).
Proof.
  cbv zeta. split.
  { intros Hs. rewrite write_extents_spans by exact Hs. cbn [fst].
    apply apply_writes_lookup. }
  intros Hz. rewrite zero_extents_spans by exact Hz. cbn [fst].
  destruct (apply_writes_lookup f_out (zero_spans bs exts) k) as [Hlen Hk].
  split; [exact Hlen|]. rewrite Hk.
  destruct (last_covering (zero_spans bs exts) k) as [[p d]|] eqn:Hlast; [|reflexivity].
  apply last_covering_covers in Hlast as [Hin Hc].
  unfold zero_spans in Hin. apply list_elem_of_fmap in Hin as [e [Heq _]].
  injection Heq as -> ->. unfold covers in Hc. cbn [fst snd] in *.
  rewrite length_replicate in Hc. apply lookup_replicate_2. lia.
Qed.

(** ** A partition whose operations all go through *)

Lemma extract_op_runs (lzma bz2 : bytes -> option bytes) (f_in : bytes)
    (payload : Payload) (bs : N) (i : nat) (d : op_desc) (f_out : wfile) :
  block_size payload = VInt bs ->
  op_runs lzma bz2 f_in (payload_data_offset payload) bs d ->
  extract_op lzma bz2 f_in payload i (op_of d) f_out
  = (apply_writes f_out (op_writes lzma bz2 f_in (payload_data_offset payload) bs d),
     None).
Proof.
  intros Hbs [[Hz Hzero] | (Hfam & Hoff & Hlen & Hseek & Hdig & buf & Hbuf)];
    unfold op_writes.
  - rewrite Hz. change (OP_ZERO =? OP_ZERO)%N with true. cbv iota.
    apply extract_op_zero; [|exact Hbs|reflexivity|exact Hzero].
    unfold op_of. cbn [op_type]. by rewrite Hz.
  - assert (Hnz : (d_kind d =? OP_ZERO)%N = false).
    { destruct Hfam as [H | [H | H]]; injection H as ->; reflexivity. }
    rewrite Hnz, Hbuf.
    apply (extract_op_writes lzma bz2 f_in payload i (op_of d) f_out bs (d_extents d)
             (op_source f_in (payload_data_offset payload) d) buf);
      try done.
    + by apply (read_source_typed f_in payload (op_of d) (d_offset d) (d_length d)).
    + unfold digest_mismatch, op_of. cbn [data_sha256 truthy].
      destruct Hdig as [-> | ->].
      * by rewrite bool_decide_eq_true_2.
      * rewrite (bool_decide_eq_true_2 (VBytes _ = VBytes _)) by reflexivity.
        apply andb_false_r.
Qed.

Lemma extract_ops_run (lzma bz2 : bytes -> option bytes) (f_in : bytes)
    (payload : Payload) (bs : N) (ops : list op_desc) :
  block_size payload = VInt bs ->
  Forall (op_runs lzma bz2 f_in (payload_data_offset payload) bs) ops ->
  forall (i : nat) (f_out : wfile),
    extract_ops lzma bz2 f_in payload i (op_of <$> ops) f_out
    = (apply_writes f_out
         (concat (op_writes lzma bz2 f_in (payload_data_offset payload) bs <$> ops)),
       ReturnTrue).
Proof.
  intros Hbs Hall. induction Hall as [|d ops Hd _ IH]; intros i f_out; [reflexivity|].
  rewrite fmap_cons. cbn [extract_ops]. rewrite (extract_op_runs _ _ _ _ bs) by done.
  rewrite IH. rewrite fmap_cons. cbn [concat].
  unfold apply_writes. by rewrite foldl_app.
Qed.

(** X18. A partition whose operations all go through (each a Zero, or a
    Replace, ReplaceXz or ReplaceBz with no digest or the right one and data
    that decompresses, all with offsets and sizes within what seek, read
    and [bytes] take) is extracted to the end: [extract_partition] returns
    [True], the writes made are those of the operations, in order, and the
    cursor is left after the last write. *)
Theorem X18_partition_runs (lzma bz2 : bytes -> option bytes) (f_in : bytes)
    (payload : Payload) (bs : N) (p : part_desc) :
  block_size payload = VInt bs ->
  Forall (op_runs lzma bz2 f_in (payload_data_offset payload) bs) (p_ops p) ->
  exists f,
    extract_partition lzma bz2 f_in payload (partition_of p) = (f, ReturnTrue)
    /\ written f
       = concat (op_writes lzma bz2 f_in (payload_data_offset payload) bs <$> p_ops p)
    /\ cursor f
       = default 0 ((fun pd => pd.1 + length pd.2) <$> last (written f)).
Proof.
  intros Hbs Hall. eexists. split; [|split].
  - unfold extract_partition, partition_of. cbn [operations].
    by apply (extract_ops_run _ _ _ _ bs).
  - by rewrite apply_writes_written.
  - rewrite apply_writes_written. cbn [written open_wb app].
    generalize (concat (op_writes lzma bz2 f_in (payload_data_offset payload) bs
                          <$> p_ops p)).
    intros spans. induction spans as [|pd spans _] using rev_ind; [reflexivity|].
    rewrite apply_writes_snoc, last_snoc. reflexivity.
Qed.

(** X18 at the sample partition. *)
Lemma X18_witness :
  exists f,
    extract_partition rejecting_codec rejecting_codec boot_container boot_payload
      (partition_of boot_desc) = (f, ReturnTrue)
    /\ written f
       = concat (op_writes rejecting_codec rejecting_codec boot_container
                   (payload_data_offset boot_payload) 4 <$> p_ops boot_desc)
    /\ cursor f = default 0 ((fun pd => pd.1 + length pd.2) <$> last (written f)).
Proof.
  apply (X18_partition_runs rejecting_codec rejecting_codec boot_container
           boot_payload 4 boot_desc).
  - reflexivity.
  - constructor; [|constructor; [|constructor]].
    + right. split; [left; reflexivity|].
      split; [vm_compute; discriminate|]. split; [vm_compute; discriminate|].
      split; [constructor; [vm_compute; discriminate | constructor]|].
      split; [left; reflexivity|]. eexists. reflexivity.
    + left. split; [reflexivity|].
      constructor; [split; vm_compute; discriminate | constructor].
Defined.

(** ** The extraction loop over the requested names *)

Section OutcomeFacts.

Context (lzma bz2 : bytes -> option bytes) (format_size : value -> exc string).
Context (f_in : bytes) (payload : Payload) (by_name : gmap string Partition).

Lemma first_missing_None (names : list string) :
  Forall (fun n => is_Some (by_name !! n)) names ->
  first_missing by_name names = None.
Proof.
  induction 1 as [|n names [part Hn] _ IH]; [reflexivity|].
  cbn [first_missing]. by rewrite Hn.
Qed.

Lemma extracted_snoc (imgs : gmap string wfile) (names : list string) (n : string) :
  extracted lzma bz2 f_in payload by_name imgs (names ++ [n])
  = match by_name !! n with
    | Some part =>
        <[n := (extract_partition lzma bz2 f_in payload part).1]>
          (extracted lzma bz2 f_in payload by_name imgs names)
    | None => extracted lzma bz2 f_in payload by_name imgs names
    end.
Proof. unfold extracted. by rewrite foldl_app. Qed.

(** The turns that go on leave their images and hand over to the rest. *)
Lemma extract_all_done (pre rest : list string) :
  Forall (part_done lzma bz2 format_size f_in payload by_name) pre ->
  forall out,
    extract_all lzma bz2 format_size f_in payload by_name (pre ++ rest) out
    = extract_all lzma bz2 format_size f_in payload by_name rest
        (mkOutdir (dir_made out)
           (extracted lzma bz2 f_in payload by_name (images out) pre)).
Proof.
  induction 1 as [|n pre (part & Hn & Hs1 & Hv & Hs2) _ IH]; intros out.
  - by destruct out.
  - cbn [app extract_all]. rewrite Hn.
    destruct (format_size (psize part)); [|done].
    destruct (extract_partition lzma bz2 f_in payload part) as [img v] eqn:Hx.
    cbn [fst snd] in *. subst v.
    destruct (format_size (VInt (N.of_nat (length (content img))))); [|done].
    rewrite IH. cbn [dir_made images]. unfold extracted at 2. cbn [foldl].
    by rewrite Hn, Hx.
Qed.

(** Whatever the loop does, an image it leaves was there before or is
    that of a requested name, and then what [extract_partition] left. *)
Lemma extract_all_images (names : list string) :
  forall out n img,
    images (extract_all lzma bz2 format_size f_in payload by_name names out).1 !! n
    = Some img ->
    images out !! n = Some img
    \/ (n ∈ names
        /\ exists part, by_name !! n = Some part
                        /\ img = (extract_partition lzma bz2 f_in payload part).1).
Proof.
  induction names as [|m names IH]; intros out n img; [by left|].
  cbn [extract_all].
  destruct (by_name !! m) as [part|] eqn:Hm; [|by left].
  destruct (format_size (psize part)); [|by left].
  destruct (extract_partition lzma bz2 f_in payload part) as [im v] eqn:Hx.
  assert (Hins : forall img',
             <[m := im]> (images out) !! n = Some img' ->
             images out !! n = Some img'
             \/ (n ∈ m :: names
                 /\ exists part0, by_name !! n = Some part0
                      /\ img' = (extract_partition lzma bz2 f_in payload part0).1)).
  { intros img' H. destruct (decide (m = n)) as [->|Hne].
    - rewrite lookup_insert_eq in H. injection H as <-. right.
      split; [set_solver|]. exists part. by rewrite Hx.
    - rewrite lookup_insert_ne in H by done. by left. }
  destruct v as [|why|e]; cbn [fst images]; try apply Hins.
  destruct (format_size (VInt (N.of_nat (length (content im))))); [|apply Hins].
  intros H. apply IH in H as [H | (Hin & part0 & Hp & ->)].
  - cbn [images] in H. by apply Hins.
  - right. split; [set_solver|]. by exists part0.
Qed.

(** The loop leaves alone every image that is not of a requested name. *)
Lemma extract_all_frame (names : list string) (n : string) :
  n ∉ names ->
  forall out,
    images (extract_all lzma bz2 format_size f_in payload by_name names out).1 !! n
    = images out !! n.
Proof.
  induction names as [|m names IH]; intros Hn out; [reflexivity|].
  apply not_elem_of_cons in Hn as [Hne Hn].
  cbn [extract_all].
  destruct (by_name !! m) as [part|]; [|reflexivity].
  destruct (format_size (psize part)); [|reflexivity].
  destruct (extract_partition lzma bz2 f_in payload part) as [im v].
  assert (Hins : <[m := im]> (images out) !! n = images out !! n)
    by (by rewrite lookup_insert_ne).
  destruct v as [|why|e]; cbn [fst images]; try exact Hins.
  destruct (format_size (VInt (N.of_nat (length (content im))))); [|exact Hins].
  rewrite (IH Hn). exact Hins.
Qed.

End OutcomeFacts.

(** X19. For requested names that are plain file names (no path
    separator, no NUL byte, at most 251 bytes), [cmd_extract] touches no
    image but those of the requested names: however it ends, the image file
    of a plain name found afterwards was there before unchanged, or belongs
    to a requested name and is what [extract_partition] left for the
    partition of that name; an image of a name not requested is as it
    was. *)
Theorem X19_cmd_extract_touches_requested_only
    (lzma bz2 : bytes -> option bytes) (format_size : value -> exc string)
    (f_in : bytes) (payload : Payload) (names : list string) (out : outdir)
    (n : string) :
  plain_names names -> plain_name n = true ->
  let after := (cmd_extract lzma bz2 format_size f_in payload names out).1 in
  (forall img,
      images after !! n = Some img ->
      images out !! n = Some img
      \/ (n ∈ names
          /\ exists part,
               by_name_of (partitions payload) !! n = Some part
               /\ img = (extract_partition lzma bz2 f_in payload part).1))
  /\ (n ∉ names -> images after !! n = images out !! n).
Proof.
  intros _ _. cbv zeta. unfold cmd_extract.
  destruct (first_missing _ names) as [m|] eqn:Hfm; cbn [fst].
  { split; [by left | done]. }
  split.
  - intros img H. by apply extract_all_images in H.
  - intros Hn. by rewrite extract_all_frame.
Qed.

(** X19 at the sample payload, asked for "boot" in a directory that has
    an image "recovery": that image is as it was. *)
Lemma X19_witness :
  images (cmd_extract rejecting_codec rejecting_codec plain_format boot_container
            boot_payload ["boot"%string]
            (mkOutdir false (<["recovery"%string := open_wb]> ∅))).1
    !! "recovery"%string
  = images (mkOutdir false (<["recovery"%string := open_wb]> ∅)) !! "recovery"%string.
Proof.
  refine (proj2 (X19_cmd_extract_touches_requested_only rejecting_codec rejecting_codec
                   plain_format boot_container boot_payload ["boot"%string]
                   (mkOutdir false (<["recovery"%string := open_wb]> ∅))
                   "recovery"%string _ _) _).
  - constructor; [reflexivity | constructor].
  - reflexivity.
  - intros H. apply elem_of_cons in H as [H | H]; [discriminate|].
    by apply elem_of_nil in H.
Defined.

(** X20. For requested names that are plain file names, [cmd_extract]
    extracts them in order and stops at the first failure. When each turn
    goes through it returns [True] with
    the directory made and the images of all the names. When the
    extraction of a name returns [False] it returns [False]: the images of
    the names before it and the partial image of the failed one are left,
    and no later name is started. *)
Theorem X20_cmd_extract_runs_in_order
    (lzma bz2 : bytes -> option bytes) (format_size : value -> exc string)
    (f_in : bytes) (payload : Payload) (out : outdir) :
  let by_name := by_name_of (partitions payload) in
  let done := part_done lzma bz2 format_size f_in payload by_name in
  (forall names,
      plain_names names ->
      Forall done names ->
      cmd_extract lzma bz2 format_size f_in payload names out
      = (mkOutdir true (extracted lzma bz2 f_in payload by_name (images out) names),
         AllDone))
  /\ (forall pre n post part why,
        plain_names (pre ++ n :: post) ->
        Forall done pre ->
        by_name !! n = Some part ->
        returns (format_size (psize part)) ->
        (extract_partition lzma bz2 f_in payload part).2 = ReturnFalse why ->
        Forall (fun m => is_Some (by_name !! m)) post ->
        cmd_extract lzma bz2 format_size f_in payload (pre ++ n :: post) out
        = (mkOutdir true
             (extracted lzma bz2 f_in payload by_name (images out) (pre ++ [n])),
           PartitionFailed n why)).
Proof.
  cbv zeta. split.
  - intros names _ Hall. unfold cmd_extract.
    rewrite first_missing_None
      by (eapply Forall_impl; [exact Hall|]; intros n (part & -> & _); by eexists).
    rewrite <- (app_nil_r names) at 1.
    rewrite (extract_all_done lzma bz2 format_size f_in payload _ names []) by done.
    reflexivity.
  - intros pre n post part why _ Hpre Hn Hs Hv Hpost. unfold cmd_extract.
    rewrite first_missing_None.
    2:{ apply Forall_app. split.
        - eapply Forall_impl; [exact Hpre|]. intros m (part' & -> & _). by eexists.
        - constructor; [by eexists | exact Hpost]. }
    rewrite (extract_all_done lzma bz2 format_size f_in payload _ pre (n :: post))
      by done.
    cbn [extract_all dir_made images]. rewrite Hn.
    destruct (format_size (psize part)); [|done].
    destruct (extract_partition lzma bz2 f_in payload part) as [img v] eqn:Hx.
    cbn [snd] in Hv. subst v. rewrite extracted_snoc, Hn, Hx. reflexivity.
Qed.

(** X20 at the sample payload, asked for "boot": the directory is made
    and holds the image. *)
Lemma X20_witness :
  cmd_extract rejecting_codec rejecting_codec plain_format boot_container boot_payload
    ["boot"%string] (mkOutdir false ∅)
  = (mkOutdir true
       (extracted rejecting_codec rejecting_codec boot_container boot_payload
          (by_name_of (partitions boot_payload)) ∅ ["boot"%string]),
     AllDone).
Proof.
  apply (proj1 (X20_cmd_extract_runs_in_order rejecting_codec rejecting_codec
                  plain_format boot_container boot_payload (mkOutdir false ∅))
           ["boot"%string]).
  { constructor; [reflexivity | constructor]. }
  constructor; [|constructor].
  exists (partition_of boot_desc). split; [vm_compute; reflexivity|].
  split; [exact I|]. split; [vm_compute; reflexivity | exact I].
Defined.

(** ** Listing *)

Lemma list_rows_all (format_size : value -> exc string) (parts : list Partition) :
  Forall (fun p => returns (format_size (psize p))) parts ->
  exists rows,
    list_rows format_size parts = Ok rows
    /\ rows.*1.*1 = name <$> parts
    /\ rows.*2 = (fun p => length (operations p)) <$> parts
    /\ Forall2 (fun r p => format_size (psize p) = Ok r.1.2) rows parts.
Proof.
  induction 1 as [|p parts Hp _ (rows & Hrows & Hn & Hc & Hs)].
  - exists []. repeat split. constructor.
  - cbn [list_rows]. destruct (format_size (psize p)) as [s|] eqn:Hfs; [|done].
    rewrite Hrows. cbn [mbind exc_bind].
    exists ((name p, s, length (operations p)) :: rows).
    rewrite !fmap_cons, Hn, Hc. repeat split. by constructor.
Qed.

Lemma list_rows_raises (format_size : value -> exc string)
    (pre : list Partition) (p : Partition) (post : list Partition) (e : exn) :
  Forall (fun p => returns (format_size (psize p))) pre ->
  format_size (psize p) = Raise e ->
  list_rows format_size (pre ++ p :: post) = Raise e.
Proof.
  intros Hpre He. induction Hpre as [|q pre Hq _ IH]; cbn [app list_rows].
  - by rewrite He.
  - destruct (format_size (psize q)); [|done]. by rewrite IH.
Qed.

(** X21. [cmd_list] prints one row per partition, in the manifest's order
    and duplicates included, with the partition's name, formatted size and
    number of operations, whenever [format_size] returns for every size;
    the first size it raises on ends the listing with that exception. *)
Theorem X21_cmd_list_rows (format_size : value -> exc string) (payload : Payload) :
  (Forall (fun p => returns (format_size (psize p))) (partitions payload) ->
   exists rows,
     cmd_list format_size payload
     = Ok (path payload, block_size payload, length (partitions payload), rows)
     /\ rows.*1.*1 = name <$> partitions payload
     /\ rows.*2 = (fun p => length (operations p)) <$> partitions payload
     /\ Forall2 (fun r p => format_size (psize p) = Ok r.1.2) rows (partitions payload))
  /\ (forall pre p post e,
        partitions payload = pre ++ p :: post ->
        Forall (fun p => returns (format_size (psize p))) pre ->
        format_size (psize p) = Raise e ->
        cmd_list format_size payload = Raise e).
Proof.
  unfold cmd_list. split.
  - intros Hall. destruct (list_rows_all _ _ Hall) as (rows & -> & H).
    by exists rows.
  - intros pre p post e -> Hpre He. by rewrite (list_rows_raises _ pre p post e).
Qed.

(** ** Wire types are not checked against the fields *)

Lemma repeat_bytes_repeatable (n : N) (s : bytes) :
  repeat_bytes n s
  = if repeatable n s then Ok (VBytes (concat (replicate (N.to_nat n) s)))
    else Raise OverflowError.
Proof.
  unfold repeat_bytes, repeatable.
  destruct (INDEX_MAX <? n)%N; [reflexivity|].
  by destruct (INDEX_MAX <? N.of_nat (length s) * n)%N.
Qed.

(** The first turn of either loop under a [bytes] block size: the
    repetition [start_block * bs] raises when it is out of range, and the
    seek raises on what it gives. *)
Lemma zero_extents_bytes_block (s : bytes) (e : N * N) (exts : list (N * N))
    (f_out : wfile) :
  zero_extents (VBytes s) (typed_extents (e :: exts)) f_out
  = (f_out, Some (if repeatable e.1 s then TypeError else OverflowError)).
Proof.
  destruct e as [start num]. cbn [typed_extents map zero_extents py_mul fst snd].
  rewrite repeat_bytes_repeatable. by destruct (repeatable start s).
Qed.

Lemma write_extents_bytes_block (s data : bytes) (e : N * N) (exts : list (N * N))
    (pos : N) (f_out : wfile) :
  write_extents (VBytes s) data (typed_extents (e :: exts)) pos f_out
  = (f_out,
     Some (if repeatable e.2 s && repeatable e.1 s then TypeError else OverflowError)).
Proof.
  destruct e as [start num]. cbn [typed_extents map write_extents py_mul fst snd].
  rewrite !repeat_bytes_repeatable.
  destruct (repeatable num s); [|reflexivity].
  by destruct (repeatable start s).
Qed.

(** X22. The wire type of the block size field is not checked: a
    length-delimited field 3 is stored as [bytes], and loading succeeds.
    With such a block size, an operation with at least one int extent
    raises before any write: a Zero operation at once, a Replace, ReplaceXz
    or ReplaceBz after its source read, digest check and decompression
    passed. The exception is the [TypeError] of the first seek; it is the
    [OverflowError] of the repetition [start_block * bs] (in the write
    loop, of [num_blocks * bs] first) where the count or the length of the
    result is past [2^63 - 1]. *)
Theorem X22_block_size_of_bytes (lzma bz2 : bytes -> option bytes) (f_in : bytes)
    (payload : Payload) (i : nat) (op : Operation) (f_out : wfile)
    (s : bytes) (e : N * N) (exts : list (N * N)) :
  block_size payload = VBytes s ->
  dst_extents op = typed_extents (e :: exts) ->
  (forall p0,
      for_fields (VBytes (field_bytes 3 s)) payload_body p0
      = Ok (mkPayload (path p0) (payload_data_offset p0) (VBytes s) (partitions p0)))
  /\ (op_type op = VInt OP_ZERO ->
      extract_op lzma bz2 f_in payload i op f_out
      = (f_out,
         Some (Raised (if repeatable e.1 s then TypeError else OverflowError))))
  /\ (forall compressed data,
        replace_family (op_type op) ->
        read_source f_in payload op = Ok compressed ->
        digest_mismatch op compressed = false ->
        decompress lzma bz2 compressed (op_type op) = Ok data ->
        extract_op lzma bz2 f_in payload i op f_out
        = (f_out,
           Some (Raised (if repeatable e.2 s && repeatable e.1 s
                         then TypeError else OverflowError)))).
Proof.
  intros Hbs Hexts. split; [|split].
  - intros p0. change (field_bytes 3 s) with (encode_field (3%N, VBytes s)).
    rewrite <- (app_nil_r (encode_field _)).
    change (encode_field (3%N, VBytes s) ++ []) with (encode_fields [(3%N, VBytes s)]).
    by rewrite for_fields_encoded.
  - intros Hk. unfold extract_op. rewrite Hk, Hbs, Hexts.
    cbn [is_int]. change (OP_ZERO =? OP_ZERO)%N with true. cbv iota.
    by rewrite zero_extents_bytes_block.
  - intros compressed data Hfam Hr Hd Hdec.
    destruct (replace_family_branch _ Hfam) as [Hz Hi].
    unfold extract_op. rewrite Hz, Hi, Hr, Hd, Hdec, Hbs, Hexts.
    by rewrite write_extents_bytes_block.
Qed.

(** X22 at the block size [b'\x04'] and the sample Zero operation: the
    repetition is in range, and the seek raises [TypeError]. *)
Lemma X22_witness :
  extract_op rejecting_codec rejecting_codec []
    (mkPayload "payload.bin" 66 (VBytes [x04]) []) 0 (op_of zero_op) open_wb
  = (open_wb, Some (Raised TypeError)).
Proof.
  exact (proj1 (proj2 (X22_block_size_of_bytes rejecting_codec rejecting_codec []
                         (mkPayload "payload.bin" 66 (VBytes [x04]) []) 0
                         (op_of zero_op) open_wb [x04] (2, 1)%N [] eq_refl eq_refl))
           eq_refl).
Defined.

(** ** A name that is not text *)

Lemma parse_partition_bad_name (p : part_desc) :
  utf8_valid (list_byte_of_string (p_name p)) = false ->
  parse_partition (VBytes (part_msg_of p)) = Raise UnicodeDecodeError.
Proof.
  intros Hname. unfold parse_partition.
  rewrite part_msg_fields, for_fields_encoded.
  unfold part_fields. cbn [app for_each partition_body N.eqb Pos.eqb decode].
  by rewrite Hname.
Qed.

Lemma payload_body_bad_part (payload : Payload) (p : part_desc) :
  utf8_valid (list_byte_of_string (p_name p)) = false ->
  payload_body payload (part_field p) = Raise UnicodeDecodeError.
Proof.
  intros Hname. unfold part_field. cbn [payload_body N.eqb Pos.eqb].
  by rewrite parse_partition_bad_name.
Qed.

(** X23. A partition name that is not well-formed UTF-8 fails the whole
    load with [UnicodeDecodeError], wherever the partition stands in the
    manifest: the partitions before it are not returned. *)
Theorem X23_bad_name_fails_the_load (path : string) (bs : N)
    (pre : list part_desc) (p : part_desc) (post : list part_desc)
    (signature data : bytes) :
  names_valid pre ->
  utf8_valid (list_byte_of_string (p_name p)) = false ->
  let manifest := manifest_msg bs (map part_msg_of (pre ++ p :: post)) in
  (N.of_nat (length manifest) < 2 ^ 64)%N ->
  (N.of_nat (length signature) < 2 ^ 32)%N ->
  load_payload path (container manifest signature data) = Raise UnicodeDecodeError.
Proof.
  intros Hpre Hname manifest Hm Hs. rewrite load_payload_container by done.
  subst manifest. rewrite manifest_msg_fields, for_fields_encoded.
  cbn [for_each payload_body N.eqb Pos.eqb mbind exc_bind].
  rewrite fmap_app, for_each_app, for_each_parts by done.
  cbn [mbind exc_bind]. rewrite fmap_cons. cbn [for_each].
  by rewrite payload_body_bad_part.
Qed.

(** X23 at the sample manifest with a second partition named by the
    single byte 0xFF. *)
Lemma X23_witness :
  load_payload "payload.bin"
    (container
       (manifest_msg 4
          (map part_msg_of
             ([boot_desc] ++ mkPartDesc (string_of_list_byte [xff]) 0 [] :: [])))
       [] sample_data)
  = Raise UnicodeDecodeError.
Proof.
  apply (X23_bad_name_fails_the_load "payload.bin" 4 [boot_desc]
           (mkPartDesc (string_of_list_byte [xff]) 0 []) [] [] sample_data).
  - repeat constructor.
  - reflexivity.
  - vm_compute. reflexivity.
  - vm_compute. reflexivity.
Defined.

(** ** The command line *)

Lemma extract_partition_runs (lzma bz2 : bytes -> option bytes) (f_in : bytes)
    (payload : Payload) (bs : N) (p : part_desc) :
  block_size payload = VInt bs ->
  Forall (op_runs lzma bz2 f_in (payload_data_offset payload) bs) (p_ops p) ->
  extract_partition lzma bz2 f_in payload (partition_of p)
  = (image_of lzma bz2 f_in (payload_data_offset payload) bs p, ReturnTrue).
Proof.
  intros Hbs Hall. unfold extract_partition, partition_of, image_of. cbn [operations].
  by apply (extract_ops_run _ _ _ _ bs).
Qed.

Lemma cmd_extract_all_done (lzma bz2 : bytes -> option bytes)
    (format_size : value -> exc string) (f_in : bytes) (payload : Payload)
    (names : list string) (out : outdir) :
  Forall (part_done lzma bz2 format_size f_in payload (by_name_of (partitions payload)))
    names ->
  cmd_extract lzma bz2 format_size f_in payload names out
  = (mkOutdir true
       (extracted lzma bz2 f_in payload (by_name_of (partitions payload))
          (images out) names),
     AllDone).
Proof.
  intros Hall. unfold cmd_extract.
  rewrite first_missing_None
    by (eapply Forall_impl; [exact Hall|]; intros n (part & -> & _); by eexists).
  rewrite <- (app_nil_r names) at 1.
  rewrite (extract_all_done lzma bz2 format_size f_in payload _ names []) by done.
  reflexivity.
Qed.

(** The rest of [main] once [parse_args] has returned. *)
Lemma main_body_status (lzma bz2 : bytes -> option bytes)
    (format_size : value -> exc string) (file : option bytes) (p : string)
    (names : option (list string)) (out : outdir) :
  let r := main_body lzma bz2 format_size file p names out in
  (exit_status r.2 = 0%N \/ exit_status r.2 = 1%N)
  /\ (exit_status r.2 = 0%N <->
      exists f_in payload,
        file = Some f_in /\ load_payload p f_in = Ok payload
        /\ match default [] names with
           | [] => returns (cmd_list format_size payload)
           | ns => (cmd_extract lzma bz2 format_size f_in payload ns out).2 = AllDone
           end)
  /\ (r.1 <> out ->
      exists f_in payload,
        file = Some f_in /\ load_payload p f_in = Ok payload
        /\ default [] names <> []
        /\ first_missing (by_name_of (partitions payload)) (default [] names) = None).
Proof.
  cbv zeta. unfold main_body.
  destruct file as [f_in|].
  2:{ cbn. split; [by right|]. split; [|done].
      split; [discriminate|]. intros (f & pl & Hf & _). discriminate. }
  destruct (load_payload p f_in) as [payload|e] eqn:Hload.
  2:{ cbn. split; [by right|]. split; [|done].
      split; [discriminate|]. intros (f & pl & [= <-] & Hl & _). congruence. }
  assert (Hlist :
            let r := match cmd_list format_size payload with
                     | Ok listing => (out, Listed listing)
                     | Raise e => (out, ExitsWith (Caught e))
                     end in
            (exit_status r.2 = 0%N \/ exit_status r.2 = 1%N)
            /\ (exit_status r.2 = 0%N <-> returns (cmd_list format_size payload))
            /\ r.1 = out).
  { cbv zeta. destruct (cmd_list format_size payload); cbn.
    - split; [by left|]. done.
    - split; [by right|]. split; [|done]. split; [discriminate | intros []]. }
  assert (Hnone : forall b : Prop,
             (b <-> returns (cmd_list format_size payload)) ->
             b <-> exists f_in0 payload0,
                     Some f_in = Some f_in0 /\ load_payload p f_in0 = Ok payload0
                     /\ returns (cmd_list format_size payload0)).
  { intros b ->. split.
    - intros H. by exists f_in, payload.
    - intros (f & pl & [= <-] & Hl & H). congruence. }
  destruct names as [[|n rest]|]; cbn [default].
  1,3: destruct Hlist as (H1 & H2 & H3); split; [exact H1|]; split;
         [by apply Hnone | by rewrite H3].
  clear Hlist Hnone.
  destruct (cmd_extract lzma bz2 format_size f_in payload (n :: rest) out)
    as [out' r] eqn:Hx.
  assert (Hout : out' <> out ->
                 first_missing (by_name_of (partitions payload)) (n :: rest) = None).
  { intros Hne. unfold cmd_extract in Hx.
    destruct (first_missing _ (n :: rest)); [|done].
    injection Hx as <- _. done. }
  assert (Hiff : (exists f_in0 payload0,
                     Some f_in = Some f_in0 /\ load_payload p f_in0 = Ok payload0
                     /\ (cmd_extract lzma bz2 format_size f_in0 payload0 (n :: rest) out).2
                        = AllDone)
                 <-> r = AllDone).
  { split.
    - intros (f & pl & [= <-] & Hl & H). rewrite Hload in Hl. injection Hl as <-.
      by rewrite Hx in H.
    - intros ->. exists f_in, payload. by rewrite Hx. }
  rewrite Hiff.
  assert (Hdir : out' <> out ->
                 exists f_in0 payload0,
                   Some f_in = Some f_in0 /\ load_payload p f_in0 = Ok payload0
                   /\ n :: rest <> []
                   /\ first_missing (by_name_of (partitions payload0)) (n :: rest) = None).
  { intros Hne. exists f_in, payload. repeat split; try done. by apply Hout. }
  destruct r; cbn [fst snd exit_status]; (split; [auto|]); (split; [|exact Hdir]);
    split; intros H; try done; try discriminate.
Qed.


(** X24. [main] ends with exit status 0, 1 or 2, for requested names that
    are plain file names. The status is 2 exactly when [parse_args] refuses
    the command line. It is 0 exactly when [parse_args] shows the help, or
    returns arguments such that the payload file is there and loads and,
    with names given, the extraction returns [True], or, with none, the
    listing raises nothing. The output directory is touched only when the
    file loaded and every requested name is a partition: a usage error, the
    help, a missing file, a load error, a listing and an unknown name all
    leave it as it was. *)
Theorem X24_main_exit_status (lzma bz2 : bytes -> option bytes)
    (format_size : value -> exc string) (args : cli) (out : outdir) :
  plain_names (requested args) ->
  let r := main lzma bz2 format_size args out in
  (exit_status r.2 = 0%N \/ exit_status r.2 = 1%N \/ exit_status r.2 = 2%N)
  /\ (exit_status r.2 = 2%N <-> args = UsageError)
  /\ (exit_status r.2 = 0%N <->
      args = HelpShown
      \/ exists f_in p flag names payload,
           args = Parsed (Some f_in) p flag names
           /\ load_payload p f_in = Ok payload
           /\ match default [] names with
              | [] => returns (cmd_list format_size payload)
              | ns => (cmd_extract lzma bz2 format_size f_in payload ns out).2 = AllDone
              end)
  /\ (r.1 <> out ->
      exists f_in p flag names payload,
        args = Parsed (Some f_in) p flag names
        /\ load_payload p f_in = Ok payload
        /\ default [] names <> []
        /\ first_missing (by_name_of (partitions payload)) (default [] names) = None).
Proof.
  intros _. cbv zeta. destruct args as [| |file p flag names]; cbn [main fst snd].
  - cbn. split; [by right; right|]. split; [done|]. split; [|done].
    split; [discriminate|]. intros [H | (? & ? & ? & ? & ? & H & _)]; discriminate.
  - cbn. split; [by left|]. split; [split; discriminate|]. split; [|done].
    split; [by left | done].
  - destruct (main_body_status lzma bz2 format_size file p names out)
      as (Hst & H0 & Hdir).
    split; [destruct Hst as [H | H]; [by left | by right; left]|].
    split.
    { split; [|discriminate]. intros H2. destruct Hst as [H | H]; rewrite H in H2;
        discriminate. }
    split.
    + rewrite H0. split.
      * intros (f_in & payload & -> & Hl & H). right.
        by exists f_in, p, flag, names, payload.
      * intros [H | (f_in & p' & flag' & names' & payload & [= -> <- _ <-] & Hl & H)];
          [discriminate|].
        by exists f_in, payload.
    + intros Hne. destruct (Hdir Hne) as (f_in & payload & -> & Hl & Hn & Hfm).
      by exists f_in, p, flag, names, payload.
Qed.

(** X24 at the sample container, asked for "boot": the status is 0. *)
Lemma X24_witness :
  exit_status (main rejecting_codec rejecting_codec plain_format
                 (Parsed (Some boot_container) "payload.bin" false
                    (Some ["boot"%string]))
                 (mkOutdir false ∅)).2 = 0%N.
Proof.
  refine (proj2 (proj1 (proj2 (proj2
            (X24_main_exit_status rejecting_codec rejecting_codec plain_format
               (Parsed (Some boot_container) "payload.bin" false
                  (Some ["boot"%string]))
               (mkOutdir false ∅) _)))) _).
  - constructor; [reflexivity | constructor].
  - right. exists boot_container, "payload.bin"%string, false,
      (Some ["boot"%string]), boot_payload.
    split; [reflexivity|]. split; vm_compute; reflexivity.
Defined.

(** X25. From the command line to the images: when the payload loads with
    an int block size and every requested name is a plain file name and
    names a partition whose operations all go through and whose sizes
    format, [main] exits with status 0, the output directory is made, the
    image of each requested name is the writes of its operations applied to
    an empty file, and the image of no other plain name is touched. *)
Theorem X25_main_extracts (lzma bz2 : bytes -> option bytes)
    (format_size : value -> exc string) (f_in : bytes) (p : string)
    (flag : bool) (payload : Payload) (bs : N) (n : string) (rest : list string)
    (out : outdir) :
  plain_names (n :: rest) ->
  load_payload p f_in = Ok payload ->
  block_size payload = VInt bs ->
  Forall (fun m =>
            exists d,
              by_name_of (partitions payload) !! m = Some (partition_of d)
              /\ Forall (op_runs lzma bz2 f_in (payload_data_offset payload) bs) (p_ops d)
              /\ returns (format_size (VInt (p_size d)))
              /\ returns (format_size
                            (VInt (N.of_nat
                                     (length (content
                                                (image_of lzma bz2 f_in
                                                   (payload_data_offset payload) bs d)))))))
         (n :: rest) ->
  exists after,
    main lzma bz2 format_size (Parsed (Some f_in) p flag (Some (n :: rest))) out
    = (after, Exits 0)
    /\ dir_made after = true
    /\ (forall m,
          plain_name m = true -> m ∉ n :: rest -> images after !! m = images out !! m)
    /\ (forall m,
          m ∈ n :: rest ->
          exists d,
            by_name_of (partitions payload) !! m = Some (partition_of d)
            /\ images after !! m
               = Some (image_of lzma bz2 f_in (payload_data_offset payload) bs d)).
Proof.
  intros _ Hload Hbs Hall.
  assert (Hdone : Forall (part_done lzma bz2 format_size f_in payload
                            (by_name_of (partitions payload))) (n :: rest)).
  { eapply Forall_impl; [exact Hall|]. intros m (d & Hm & Hops & Hs1 & Hs2).
    exists (partition_of d). rewrite (extract_partition_runs _ _ _ _ bs) by done.
    done. }
  unfold main, main_body. rewrite Hload, cmd_extract_all_done by exact Hdone.
  eexists. split; [reflexivity|]. split; [reflexivity|]. cbn [images].
  clear Hdone. generalize (n :: rest) Hall. intros names Hnames.
  induction names as [|k names IH] using rev_ind.
  - split; [done|]. intros m Hin. by apply elem_of_nil in Hin.
  - apply Forall_app in Hnames as [Hnames Hk]. apply Forall_cons_1 in Hk as [Hk _].
    destruct Hk as (d & Hm & Hops & _). destruct (IH Hnames) as [IH1 IH2].
    rewrite extracted_snoc, Hm.
    rewrite (extract_partition_runs _ _ _ _ bs) by done. cbn [fst].
    split.
    + intros m Hplain Hnot. apply not_elem_of_app in Hnot as [Hn1 Hn2].
      apply not_elem_of_cons in Hn2 as [Hne _].
      rewrite lookup_insert_ne by done. by apply IH1.
    + intros m Hin. destruct (decide (k = m)) as [->|Hne].
      * exists d. by rewrite lookup_insert_eq.
      * rewrite lookup_insert_ne by done. apply IH2.
        apply elem_of_app in Hin as [Hin | Hin]; [exact Hin|].
        apply elem_of_cons in Hin as [-> | Hin]; [done|].
        by apply elem_of_nil in Hin.
Qed.

(** X25 at the sample container, asked for "boot". *)
Lemma X25_witness :
  exists after,
    main rejecting_codec rejecting_codec plain_format
      (Parsed (Some boot_container) "payload.bin" false (Some ["boot"%string]))
      (mkOutdir false ∅)
    = (after, Exits 0)
    /\ dir_made after = true.
Proof.
  destruct (X25_main_extracts rejecting_codec rejecting_codec plain_format
              boot_container "payload.bin" false boot_payload 4 "boot" []
              (mkOutdir false ∅))
    as (after & Hmain & Hdir & _).
  - constructor; [reflexivity | constructor].
  - vm_compute. reflexivity.
  - reflexivity.
  - constructor; [|constructor].
    exists boot_desc. split; [vm_compute; reflexivity|].
    split; [|split; exact I].
    constructor; [|constructor; [|constructor]].
    + right. split; [left; reflexivity|].
      split; [vm_compute; discriminate|]. split; [vm_compute; discriminate|].
      split; [constructor; [vm_compute; discriminate | constructor]|].
      split; [left; reflexivity|]. eexists. reflexivity.
    + left. split; [reflexivity|].
      constructor; [split; vm_compute; discriminate | constructor].
  - exists after. split; [exact Hmain | exact Hdir].
Defined.

(** ** The downloader's byte ranges *)

Lemma tiles_from (total c : Z) (count : nat) :
  forall (k : nat) (m : nat),
    k + S m = count ->
    tiles (Z.of_nat k * c)%Z
      (map (fun i : Z =>
              ((i * c)%Z,
               if (i =? Z.of_nat count - 1)%Z then (total - 1)%Z
               else ((i + 1) * c - 1)%Z))
           ((fun i : nat => (Z.of_nat i + 0)%Z) <$> seq k (S m)))
      total.
Proof.
  intros k m. revert k. induction m as [|m IH]; intros k Hk.
  - cbn [seq fmap list_fmap map tiles]. rewrite Z.add_0_r.
    rewrite (proj2 (Z.eqb_eq _ _)) by lia. split; [reflexivity | lia].
  - cbn [seq fmap list_fmap map tiles]. rewrite Z.add_0_r.
    rewrite (proj2 (Z.eqb_neq _ _)) by lia. split; [reflexivity|].
    replace ((Z.of_nat k + 1) * c - 1 + 1)%Z with (Z.of_nat (S k) * c)%Z by lia.
    apply (IH (S k)). lia.
Qed.

(** X26. [download_file_multiconnection] on a size that is not positive
    (and no less than [-2^63 + 1]) computes no range: the pre-allocation
    fails and the function returns [False]. On a positive size below
    [2^63], for at least one connection, it computes one range per
    connection, lying end to end from byte 0 to byte [total_size - 1], the
    last one taking the remainder. With at least as many bytes as
    connections no range is empty; with fewer bytes than connections the
    chunk size is 0 and the first range is (0, -1). *)
Theorem X26_byte_ranges_tile (total_size num_connections : Z) :
  ((- 2 ^ 63 < total_size <= 0)%Z ->
   byte_ranges total_size num_connections = NotPreallocated)
  /\ ((0 < total_size < 2 ^ 63)%Z -> (0 < num_connections)%Z ->
      exists ranges,
        byte_ranges total_size num_connections = Ranges ranges
        /\ length ranges = Z.to_nat num_connections
        /\ tiles 0 ranges total_size
        /\ (num_connections <= total_size ->
            Forall (fun r : Z * Z => (r.1 <= r.2)%Z) ranges)%Z
        /\ (total_size < num_connections -> 1 < num_connections ->
            head ranges = Some (0, -1))%Z).
Proof.
  unfold byte_ranges. cbv zeta. split.
  { intros Ht.
    rewrite (proj2 (Z.ltb_ge _ _)) by lia. rewrite (proj2 (Z.ltb_ge _ _)) by lia.
    cbn [orb]. by rewrite (proj2 (Z.ltb_lt _ _)) by lia. }
  intros Ht Hn.
  rewrite (proj2 (Z.ltb_ge _ _)) by lia. rewrite (proj2 (Z.ltb_ge _ _)) by lia.
  cbn [orb]. rewrite (proj2 (Z.ltb_ge _ _)) by lia.
  rewrite (proj2 (Z.eqb_neq _ _)) by lia.
  eexists. split; [reflexivity|]. split; [|split; [|split]].
  - by rewrite length_map, length_seqZ.
  - unfold seqZ. destruct (Z.to_nat num_connections) as [|m] eqn:Hm; [lia|].
    pose proof (tiles_from total_size (total_size `div` num_connections) (S m) 0 m
                  eq_refl) as H.
    replace (Z.of_nat (S m)) with num_connections in H by lia.
    exact H.
  - intros Hle. apply Forall_map, Forall_forall. intros i Hi.
    apply elem_of_seqZ in Hi. cbn [fst snd].
    assert (Hc : (1 <= total_size `div` num_connections)%Z)
      by (apply Z.div_le_lower_bound; lia).
    pose proof (Z.mul_div_le total_size num_connections Hn) as Hmul.
    destruct (Z.eqb_spec i (num_connections - 1)); nia.
  - intros Hlt H1. rewrite Z.div_small by lia.
    unfold seqZ. destruct (Z.to_nat num_connections) as [|m] eqn:Hm; [lia|].
    cbn [seq fmap list_fmap map head].
    rewrite (proj2 (Z.eqb_neq _ _)) by lia. reflexivity.
Qed.

(** X26 at ten bytes over three connections: (0,2), (3,5), (6,9). *)
Lemma X26_witness :
  exists ranges,
    byte_ranges 10 3 = Ranges ranges
    /\ length ranges = Z.to_nat 3
    /\ tiles 0 ranges 10
    /\ (3 <= 10 -> Forall (fun r : Z * Z => (r.1 <= r.2)%Z) ranges)%Z
    /\ (10 < 3 -> 1 < 3 -> head ranges = Some (0, -1))%Z.
Proof. apply (proj2 (X26_byte_ranges_tile 10 3)); lia. Defined.

(** ** An extent past what seek and [bytes] take *)

(** The write loop stops at the first extent whose offset seek refuses: the
    extents before it have been written, as they are when they stand
    alone. *)
Lemma write_extents_refused (bs : N) (data : bytes) (pre : list (N * N)) (e : N * N)
    (post : list (N * N)) :
  Forall (seekable bs) pre -> (OFFSET_MAX < e.1 * bs)%N ->
  forall (pos : N) (f_out : wfile),
    write_extents (VInt bs) data (typed_extents (pre ++ e :: post)) pos f_out
    = (apply_writes f_out
         (imap (fun i e =>
                  (N.to_nat (e.1 * bs),
                   take (N.to_nat (extent_bytes bs e))
                        (drop (N.to_nat (pos + cursor_before bs pre i)) data)))
               pre),
       Some OffsetTooLarge).
Proof.
  intros Hpre He. induction Hpre as [|[start num] pre Hs _ IH]; intros pos f_out.
  - destruct e as [start num].
    cbn [app typed_extents map write_extents py_mul mbind exc_bind fst snd] in *.
    by rewrite (seek_to_refused _ _ He).
  - cbn [app typed_extents map write_extents py_mul mbind exc_bind fst snd].
    rewrite (seek_to_offset _ _ Hs).
    fold (typed_extents (pre ++ e :: post)). rewrite IH. rewrite imap_cons.
    cbn [apply_writes foldl fst snd]. f_equal. f_equal.
    + f_equal. unfold slice, extent_bytes. simpl.
      rewrite cursor_before_0, N.add_0_r. f_equal.
      generalize (num * bs)%N. intros sz. lia.
    + apply imap_ext. intros i e' _. simpl. rewrite cursor_before_S.
      unfold extent_bytes. simpl. do 3 f_equal.
      generalize (num * bs)%N. intros sz. lia.
Qed.

(** The Zero loop stops at the first extent whose offset seek refuses, or
    whose size [bytes] refuses once the seek is made. *)
Lemma zero_extents_refused (bs : N) (pre : list (N * N)) (e : N * N)
    (post : list (N * N)) :
  Forall (zeroable bs) pre ->
  forall f_out : wfile,
    zero_extents (VInt bs) (typed_extents (pre ++ e :: post)) f_out
    = if (OFFSET_MAX <? e.1 * bs)%N
      then (apply_writes f_out (zero_spans bs pre), Some OffsetTooLarge)
      else if (BYTES_MAX <? e.2 * bs)%N
           then (seek (N.to_nat (e.1 * bs)) (apply_writes f_out (zero_spans bs pre)),
                 Some OverflowError)
           else zero_extents (VInt bs) (typed_extents post)
                  (apply_writes f_out (zero_spans bs (pre ++ [e]))).
Proof.
  intros Hpre. induction Hpre as [|[start num] pre [Hs Hz] _ IH]; intros f_out.
  - destruct e as [start num].
    cbn [app typed_extents map zero_extents py_mul mbind exc_bind fst snd seek_to
           py_bytes zero_spans apply_writes foldl].
    destruct (OFFSET_MAX <? start * bs)%N; [reflexivity|].
    by destruct (BYTES_MAX <? num * bs)%N.
  - cbn [app typed_extents map zero_extents py_mul mbind exc_bind fst snd] in *.
    rewrite (seek_to_offset _ _ Hs), (py_bytes_zeros _ Hz).
    fold (typed_extents (pre ++ e :: post)). rewrite IH. reflexivity.
Qed.

(** X28. An extent past the interpreter's limits ends the extraction with
    an exception, after the extents before it were written. In the Zero
    loop, with the extents before it in range: an offset [start_block * bs]
    past [2^63 - 1] raises the [ValueError] of seek; with the offset in
    range, a size [num_blocks * bs] past [2^63 - 34] raises the
    [OverflowError] of [bytes], the seek being made and nothing written for
    the extent. In the write loop of a Replace, ReplaceXz or ReplaceBz
    operation whose source read, digest check and decompression passed, an
    offset past [2^63 - 1] raises the [ValueError] of seek, whatever the
    size. *)
Theorem X28_extent_past_the_limit (lzma bz2 : bytes -> option bytes) (f_in : bytes)
    (payload : Payload) (i : nat) (op : Operation) (f_out : wfile) (bs : N)
    (pre : list (N * N)) (e : N * N) (post : list (N * N)) :
  block_size payload = VInt bs ->
  dst_extents op = typed_extents (pre ++ e :: post) ->
  (op_type op = VInt OP_ZERO -> Forall (zeroable bs) pre ->
   ((OFFSET_MAX < e.1 * bs)%N ->
    extract_op lzma bz2 f_in payload i op f_out
    = (apply_writes f_out (zero_spans bs pre), Some (Raised OffsetTooLarge)))
   /\ ((e.1 * bs <= OFFSET_MAX)%N -> (BYTES_MAX < e.2 * bs)%N ->
       extract_op lzma bz2 f_in payload i op f_out
       = (seek (N.to_nat (e.1 * bs)) (apply_writes f_out (zero_spans bs pre)),
          Some (Raised OverflowError))))
  /\ (forall compressed data,
        replace_family (op_type op) -> Forall (seekable bs) pre ->
        (OFFSET_MAX < e.1 * bs)%N ->
        read_source f_in payload op = Ok compressed ->
        digest_mismatch op compressed = false ->
        decompress lzma bz2 compressed (op_type op) = Ok data ->
        extract_op lzma bz2 f_in payload i op f_out
        = (apply_writes f_out (extent_spans bs data pre), Some (Raised OffsetTooLarge))).
Proof.
  intros Hbs Hexts. split.
  - intros Hk Hpre.
    assert (Hstep : extract_op lzma bz2 f_in payload i op f_out
                    = match zero_extents (VInt bs) (typed_extents (pre ++ e :: post))
                              f_out with
                      | (f, None) => (f, None)
                      | (f, Some ex) => (f, Some (Raised ex))
                      end).
    { unfold extract_op. rewrite Hk, Hbs, Hexts. reflexivity. }
    rewrite Hstep, (zero_extents_refused bs pre e post Hpre). split.
    + intros He. by rewrite (proj2 (N.ltb_lt _ _) He).
    + intros Hs Hz.
      by rewrite (proj2 (N.ltb_ge _ _) Hs), (proj2 (N.ltb_lt _ _) Hz).
  - intros compressed data Hfam Hpre He Hr Hd Hdec.
    destruct (replace_family_branch _ Hfam) as [Hz Hi].
    unfold extract_op. rewrite Hz, Hi, Hr, Hd, Hdec, Hbs, Hexts.
    by rewrite (write_extents_refused bs data pre e post Hpre He).
Qed.

(** X28 at a Zero operation on the blocks 0 and [2^63] at block size 1:
    block 0 is zeroed, and the seek to the second extent raises. *)
Lemma X28_witness :
  extract_op rejecting_codec rejecting_codec [] (mkPayload "payload.bin" 66 (VInt 1) [])
    0 (op_of (mkOpDesc 6 0 0 [(0, 1); (2 ^ 63, 1)]%N [])) open_wb
  = (apply_writes open_wb (zero_spans 1 [(0, 1)%N]), Some (Raised OffsetTooLarge)).
Proof.
  refine (proj1 (proj1 (X28_extent_past_the_limit rejecting_codec rejecting_codec []
                          (mkPayload "payload.bin" 66 (VInt 1) []) 0
                          (op_of (mkOpDesc 6 0 0 [(0, 1); (2 ^ 63, 1)]%N [])) open_wb
                          1 [(0, 1)%N] (2 ^ 63, 1)%N [] eq_refl eq_refl)
                   eq_refl _) _).
  - constructor; [split; vm_compute; discriminate | constructor].
  - vm_compute. reflexivity.
Defined.
